(** * Pegasus Wealth Engine: the strategy request service of [pwe_api/main.py]

    A shallow embedding of the request path of the HTTP API (fingerprint and
    upsert of an exchange, similarity lookup, fallback generation, action
    extraction, earnings estimate, confidence score, feedback) and the
    properties its specification states about it; then the routes that only
    read (health check, history), the address setting of the app
    ([pwe_app/config.py]) and the price of a bundle
    ([pwe_bots/ebook_bot.py]), with further properties of the code.

    Python text is a list of Unicode code points, SQLite's table is a finite
    map from rowid to row, exceptions are values of a [result] type, the
    clock and the store's failures are explicit inputs. *)

From Stdlib Require Import ZArith NArith Strings.String Strings.Ascii.
From Stdlib Require Import Floats.PrimFloat Numbers.DecimalString.
From Stdlib Require DecimalFacts DecimalPos DecimalN.
From stdpp Require Import gmap list sorting.

Set Warnings "-inexact-float,-clear-no-such-hyp".

(** ** Python text *)

Module Py.

(** A [str] is a sequence of code points; [len], slicing and [in] count code
    points, as CPython does. *)
Definition char := N.
Definition str := list N.

(** Literals of the source, written as Rocq strings: every literal used below
    is ASCII except the bullet and the chart emoji, which are given by code
    point. *)
Definition lit (s : string) : str :=
  map N_of_ascii (list_ascii_of_string s).
Arguments lit s%_string.

Definition LF : char := 10%N.
Definition QUOTE : char := 34%N.
Definition BULLET : char := 8226%N.
Definition CHART : char := 128202%N.

Local Open Scope N_scope.

Definition between (lo hi c : N) : bool := (lo <=? c) && (c <=? hi).

Definition is_ascii (c : char) : bool := c <? 128.

(** [str.isspace] on one code point: what [strip()] and [split()] remove. *)
Definition is_space (c : char) : bool :=
  between 9 13 c || between 28 32 c || (c =? 133) || (c =? 160)
  || (c =? 5760) || between 8192 8202 c || (c =? 8232) || (c =? 8233)
  || (c =? 8239) || (c =? 8287) || (c =? 12288).

Definition ascii_lower_char (c : char) : char :=
  if between 65 90 c then c + 32 else c.

Definition ascii_lower (s : str) : str := map ascii_lower_char s.

Fixpoint drop_while (p : char → bool) (s : str) : str :=
  match s with
  | [] => []
  | c :: r => if p c then drop_while p r else s
  end.

Definition lstrip_with (p : char → bool) (s : str) : str := drop_while p s.
Definition rstrip_with (p : char → bool) (s : str) : str :=
  rev (drop_while p (rev s)).

(** [s.strip()] *)
Definition strip (s : str) : str := rstrip_with is_space (lstrip_with is_space s).

Definition char_in (chars : str) (c : char) : bool :=
  existsb (N.eqb c) chars.

(** [s.lstrip(chars)]: drops every leading code point that occurs in [chars]. *)
Definition lstrip_chars (chars : str) (s : str) : str :=
  lstrip_with (char_in chars) s.

(** [s.startswith(prefix)] *)
Fixpoint startswith (s prefix : str) {struct prefix} : bool :=
  match prefix, s with
  | [], _ => true
  | _ :: _, [] => false
  | p :: prefix', c :: s' => (c =? p) && startswith s' prefix'
  end.

(** [needle in hay] *)
Fixpoint contains (hay needle : str) : bool :=
  startswith hay needle ||
  match hay with
  | [] => false
  | _ :: hay' => contains hay' needle
  end.

(** [any(word in s for word in words)] *)
Definition any_in (words : list str) (s : str) : bool :=
  existsb (contains s) words.

(** [s.split(sep)] for a one-character separator: never empty. *)
Fixpoint split_char (sep : char) (s : str) : list str :=
  match s with
  | [] => [[]]
  | c :: r =>
      if c =? sep then [] :: split_char sep r
      else match split_char sep r with
           | [] => [[c]]
           | h :: t => (c :: h) :: t
           end
  end.

(** [s.split()]: maximal runs of non-space code points. [cur] is the run
    being read, reversed. *)
Fixpoint split_ws_from (cur : str) (s : str) : list str :=
  match s with
  | [] => match cur with [] => [] | _ => [rev cur] end
  | c :: r =>
      if is_space c
      then match cur with
           | [] => split_ws_from [] r
           | _ => rev cur :: split_ws_from [] r
           end
      else split_ws_from (c :: cur) r
  end.

Definition split (s : str) : list str := split_ws_from [] s.

(** [sep.join(parts)] *)
Fixpoint join (sep : str) (parts : list str) : str :=
  match parts with
  | [] => []
  | [p] => p
  | p :: rest => p ++ sep ++ join sep rest
  end.

(** [s.replace(c, '')] for a one-character [c]. *)
Definition remove_char (c : char) (s : str) : str :=
  filter (λ d, d ≠ c) s.

(** [str(n)] for a non-negative integer. *)
Definition str_of_N (n : N) : str :=
  lit (NilEmpty.string_of_uint (N.to_uint n)).

(** [str(z)] for an [int]. *)
Definition str_of_Z (z : Z) : str :=
  match z with
  | Zneg p => lit "-" ++ str_of_N (Npos p)
  | _ => str_of_N (Z.to_N z)
  end.

(** Comparison of two texts code point by code point (the order of their
    UTF-8 encodings under [memcmp]). *)
Fixpoint str_compare (a b : str) : comparison :=
  match a, b with
  | [], [] => Eq
  | [], _ :: _ => Lt
  | _ :: _, [] => Gt
  | x :: a', y :: b' =>
      match x ?= y with
      | Eq => str_compare a' b'
      | o => o
      end
  end.

(** *** What CPython takes from the Unicode database

    [str.lower], the decimal digits ([\d] of [re], [int]) and the limit on
    the digits [int] reads are tables and settings of the interpreter, not
    code of this repository. They are an interface: a model of the
    interpreter gives the three, and has to agree with CPython on ASCII
    text, where lowering maps A-Z to a-z and the digits are 0-9. The limit
    is 0 (none) or at least 640, as [sys.set_int_max_str_digits] requires. *)
Class CPython := {
  lower : str → str;
  decimal : char → option N;
  max_str_digits : N;
  lower_ascii : ∀ s, forallb is_ascii s = true → lower s = ascii_lower s;
  decimal_ascii : ∀ c, is_ascii c = true →
    decimal c = if between 48 57 c then Some (c - 48) else None;
  decimal_lt_10 : ∀ c d, decimal c = Some d → d < 10;
  max_str_digits_valid : max_str_digits = 0 ∨ 640 ≤ max_str_digits
}.

Definition ascii_decimal (c : char) : option N :=
  if between 48 57 c then Some (c - 48) else None.

Lemma ascii_decimal_lt_10 (c : char) (d : N) : ascii_decimal c = Some d → d < 10.
Proof.
  unfold ascii_decimal, between.
  destruct (_ && _) eqn:E; [|discriminate].
  intros [= <-]. apply andb_prop in E as [_ E]. apply N.leb_le in E. lia.
Qed.

Lemma default_limit_valid : 4300 = 0 ∨ 640 ≤ 4300.
Proof. right. lia. Qed.

(** The interpreter restricted to ASCII: code points above 127 are neither
    lowered nor digits. It is the instance the concrete evaluations run on. *)
#[export] Instance ascii_only : CPython := {|
  lower := ascii_lower;
  decimal := ascii_decimal;
  max_str_digits := 4300;
  lower_ascii := λ s _, eq_refl;
  decimal_ascii := λ c _, eq_refl;
  decimal_lt_10 := ascii_decimal_lt_10;
  max_str_digits_valid := default_limit_valid
|}.

(** [re]'s [\d]. *)
Definition is_digit `{CPython} (c : char) : bool :=
  match decimal c with Some _ => true | None => false end.

(** Exceptions, as far as the request path tells them apart. *)
Inductive exn :=
| UnicodeEncodeError
| ValueError
| TypeError
| OverflowError
| AttributeError
| OperationalError
| RuntimeError.

Inductive result (A : Type) :=
| Ok (a : A)
| Raise (e : exn).
Arguments Ok {A} a.
Arguments Raise {A} e.

#[export] Instance result_ret : MRet result := λ A a, Ok a.
#[export] Instance result_bind : MBind result := λ A B f m,
  match m with
  | Ok a => f a
  | Raise e => Raise e
  end.

(** *** [str.encode()]: UTF-8, which refuses the surrogates

    A number above 1114111 is no code point; the model refuses it too. *)

Definition utf8_char (c : char) : result (list N) :=
  if c <? 128 then Ok [c]
  else if c <? 2048 then Ok [192 + c / 64; 128 + c mod 64]
  else if c <? 65536 then
    if between 55296 57343 c then Raise UnicodeEncodeError
    else Ok [224 + c / 4096; 128 + (c / 64) mod 64; 128 + c mod 64]
  else if c <? 1114112 then
    Ok [240 + c / 262144; 128 + (c / 4096) mod 64; 128 + (c / 64) mod 64;
        128 + c mod 64]
  else Raise UnicodeEncodeError.

Fixpoint encode (s : str) : result (list N) :=
  match s with
  | [] => Ok []
  | c :: r =>
      b ← utf8_char c;
      bs ← encode r;
      mret (b ++ bs)
  end.

(** *** [repr] of [bytes]

    The letter b and the bytes between single quotes, or between double
    quotes when the bytes hold a single quote and no double one. The quote
    and the backslash are escaped; a tab, a line feed and a carriage return
    are written as [\t], [\n] and [\r]; any other byte that is not
    printable ASCII as [\x] and two hexadecimal digits. *)
Definition hexdigit (n : N) : char :=
  if n <? 10 then 48 + n else 87 + n.

Definition repr_byte (quote : char) (c : N) : str :=
  if (c =? quote) || (c =? 92) then [92; c]
  else if c =? 9 then [92; 116]
  else if c =? 10 then [92; 110]
  else if c =? 13 then [92; 114]
  else if (c <? 32) || (127 <=? c) then [92; 120; hexdigit (c / 16); hexdigit (c mod 16)]
  else [c].

Definition bytes_repr (b : list N) : str :=
  let quote := if char_in b 39 && negb (char_in b 34) then 34 else 39 in
  [98; quote] ++ flat_map (repr_byte quote) b ++ [quote].

(** *** [int(s)] in base 10

    Blanks around the number are dropped (the separators 28-31 are blanks
    for [strip] and not for [int]), one sign may lead, and the digits may be
    grouped by single underscores. *)
Definition is_int_space (c : char) : bool :=
  is_space c && negb (between 28 31 c).

(** The digits after the sign: [acc] is the value so far, [n] the number of
    digits read, [prev] whether the previous code point was a digit. *)
Fixpoint int_digits `{CPython} (acc n : N) (prev : bool) (s : str) : option (N * N) :=
  match s with
  | [] => if prev then Some (acc, n) else None
  | c :: r =>
      match decimal c with
      | Some d => int_digits (10 * acc + d) (n + 1) true r
      | None =>
          if (c =? 95) && prev then int_digits acc n false r else None
      end
  end.

(** The sign and the text that follows it, blanks dropped. *)
Definition int_sign (s : str) : bool * str :=
  let body := rstrip_with is_int_space (lstrip_with is_int_space s) in
  match body with
  | c :: r =>
      if c =? 45 then (true, r)
      else if c =? 43 then (false, r)
      else (false, body)
  | [] => (false, body)
  end.

Definition int `{CPython} (s : str) : result Z :=
  let '(neg, ds) := int_sign s in
  match int_digits 0 0 false ds with
  | Some (v, n) =>
      if (0 <? max_str_digits) && (max_str_digits <? n) then Raise ValueError
      else Ok (if neg then - Z.of_N v else Z.of_N v)%Z
  | None => Raise ValueError
  end.

End Py.

(** ** [hashlib.md5(...).hexdigest()] (RFC 1321)

    32-bit words are [N] with the wrap-around written out. *)

Module MD5.

Local Open Scope N_scope.

Definition mask32 : N := 4294967295.
Definition wrap (x : N) : N := N.land x mask32.
Definition add32 (x y : N) : N := wrap (x + y).
Definition not32 (x : N) : N := N.lxor x mask32.
Definition rotl32 (x s : N) : N :=
  wrap (N.lor (N.shiftl x s) (N.shiftr x (32 - s))).

Definition shifts : list N :=
  [7; 12; 17; 22; 7; 12; 17; 22; 7; 12; 17; 22; 7; 12; 17; 22;
   5; 9; 14; 20; 5; 9; 14; 20; 5; 9; 14; 20; 5; 9; 14; 20;
   4; 11; 16; 23; 4; 11; 16; 23; 4; 11; 16; 23; 4; 11; 16; 23;
   6; 10; 15; 21; 6; 10; 15; 21; 6; 10; 15; 21; 6; 10; 15; 21].

(** [floor (2^32 * |sin (i + 1)|)] for [i] from 0 to 63. *)
Definition sines : list N :=
  [0xd76aa478; 0xe8c7b756; 0x242070db; 0xc1bdceee; 0xf57c0faf; 0x4787c62a;
   0xa8304613; 0xfd469501; 0x698098d8; 0x8b44f7af; 0xffff5bb1; 0x895cd7be;
   0x6b901122; 0xfd987193; 0xa679438e; 0x49b40821; 0xf61e2562; 0xc040b340;
   0x265e5a51; 0xe9b6c7aa; 0xd62f105d; 0x02441453; 0xd8a1e681; 0xe7d3fbc8;
   0x21e1cde6; 0xc33707d6; 0xf4d50d87; 0x455a14ed; 0xa9e3e905; 0xfcefa3f8;
   0x676f02d9; 0x8d2a4c8a; 0xfffa3942; 0x8771f681; 0x6d9d6122; 0xfde5380c;
   0xa4beea44; 0x4bdecfa9; 0xf6bb4b60; 0xbebfbc70; 0x289b7ec6; 0xeaa127fa;
   0xd4ef3085; 0x04881d05; 0xd9d4d039; 0xe6db99e5; 0x1fa27cf8; 0xc4ac5665;
   0xf4292244; 0x432aff97; 0xab9423a7; 0xfc93a039; 0x655b59c3; 0x8f0ccc92;
   0xffeff47d; 0x85845dd1; 0x6fa87e4f; 0xfe2ce6e0; 0xa3014314; 0x4e0811a1;
   0xf7537e82; 0xbd3af235; 0x2ad7d2bb; 0xeb86d391].

(** Little-endian bytes of a word, and back. *)
Fixpoint le_bytes (n : nat) (x : N) : list N :=
  match n with
  | O => []
  | S n' => x mod 256 :: le_bytes n' (x / 256)
  end.

Fixpoint le_word (bs : list N) : N :=
  match bs with
  | [] => 0
  | b :: r => b + 256 * le_word r
  end.

(** The message, a 1 bit, zeros up to 56 modulo 64, and the length in bits. *)
Definition pad (msg : list N) : list N :=
  let len := N.of_nat (length msg) in
  let zeros := (55 + 64 - len mod 64) mod 64 in
  msg ++ [128] ++ repeat 0 (N.to_nat zeros) ++ le_bytes 8 ((8 * len) mod 2 ^ 64).

(** The sixteen words of one 64-byte block. *)
Fixpoint words (n : nat) (block : list N) : list N :=
  match n with
  | O => []
  | S n' => le_word (take 4 block) :: words n' (drop 4 block)
  end.

Record state := State { sa : N; sb : N; sc : N; sd : N }.

Definition init : state :=
  State 0x67452301 0xefcdab89 0x98badcfe 0x10325476.

Definition round (m : list N) (st : state) (i : nat) : state :=
  let '(State a b c d) := st in
  let '(f, g) :=
    if (i <? 16)%nat then
      (N.lor (N.land b c) (N.land (not32 b) d), i)
    else if (i <? 32)%nat then
      (N.lor (N.land d b) (N.land (not32 d) c), ((5 * i + 1) mod 16)%nat)
    else if (i <? 48)%nat then
      (N.lxor b (N.lxor c d), ((3 * i + 5) mod 16)%nat)
    else
      (N.lxor c (N.lor b (not32 d)), ((7 * i) mod 16)%nat) in
  let f' := add32 (add32 (add32 f a) (nth i sines 0)) (nth g m 0) in
  State d (add32 b (rotl32 f' (nth i shifts 0))) b c.

Definition block (st : state) (m : list N) : state :=
  let '(State a b c d) := foldl (round m) st (seq 0 64) in
  State (add32 (sa st) a) (add32 (sb st) b) (add32 (sc st) c) (add32 (sd st) d).

(** The blocks of a padded message; [n] bounds their number. *)
Fixpoint blocks (n : nat) (st : state) (bytes : list N) : state :=
  match n, bytes with
  | S n', _ :: _ => blocks n' (block st (words 16 (take 64 bytes))) (drop 64 bytes)
  | _, _ => st
  end.

Definition digest (msg : list N) : list N :=
  let p := pad msg in
  let '(State a b c d) := blocks (length p) init p in
  le_bytes 4 a ++ le_bytes 4 b ++ le_bytes 4 c ++ le_bytes 4 d.

Definition hex_digit (n : N) : N :=
  if n <? 10 then 48 + n else 87 + n.

Definition hex (bytes : list N) : Py.str :=
  flat_map (λ b, [hex_digit (b / 16); hex_digit (b mod 16)]) bytes.

Definition hexdigest (msg : list N) : Py.str := hex (digest msg).

End MD5.

(** ** The store: the table [conversations] of [history.db]

    [init_database] creates the table with an AUTOINCREMENT integer key and
    a UNIQUE [prompt_hash]. A table is the finite map from rowid to row;
    [sequence] is the largest rowid the table ever had (SQLite keeps it in
    [sqlite_sequence]). *)

Module Sqlite.
Import Py.

Record row := Row {
  row_prompt_hash : str;
  row_prompt : str;
  row_response : str;
  row_timestamp : str;
  row_success_score : Z;
  (** REAL, [None] for NULL *)
  row_earnings : option float
}.

Record db := Db {
  conversations : gmap Z row;
  sequence : Z
}.

(** [init_database] on a fresh file. *)
Definition init_database : db := Db ∅ 0.

(** What a column of a fetched row holds, as [sqlite3] hands it to Python:
    [None], an [int], a [float], a [str] or [bytes]. *)
Inductive value :=
| Null
| Integer (z : Z)
| Real (x : float)
| Text (s : str)
| Blob (b : list N).

(** A row of [fetchall()] for a statement that begins [SELECT * FROM
    conversations]: whatever follows, it has the seven columns of the
    table. *)
Record fetched := Fetched {
  column_0 : value;
  column_1 : value;
  column_2 : value;
  column_3 : value;
  column_4 : value;
  column_5 : value;
  column_6 : value
}.

(** A row of the table, fetched. *)
Definition fetch (kv : Z * row) : fetched :=
  Fetched (Integer kv.1) (Text (row_prompt_hash kv.2)) (Text (row_prompt kv.2))
          (Text (row_response kv.2)) (Text (row_timestamp kv.2))
          (Integer (row_success_score kv.2))
          (match row_earnings kv.2 with Some x => Real x | None => Null end).

Definition int64_min : Z := -9223372036854775808.
Definition int64_max : Z := 9223372036854775807.

(** Binding a Python [int]: SQLite's integers have 64 bits. *)
Definition bind_int (z : Z) : result Z :=
  if ((int64_min <=? z) && (z <=? int64_max))%Z then Ok z else Raise OverflowError.

(** Binding a Python [str]: it is sent as UTF-8. *)
Definition bind_text (s : str) : result str :=
  _ ← encode s; mret s.

(** Binding a Python [float]: SQLite stores a NaN as NULL. *)
Definition bind_real (x : float) : option float :=
  if PrimFloat.is_nan x then None else Some x.

Definition max_rowid (t : gmap Z row) : Z :=
  map_fold (λ k _ m, Z.max k m) 0%Z t.

(** [INSERT OR REPLACE INTO conversations (prompt_hash, prompt, response,
    timestamp) VALUES (?, ?, ?, ?)]: the rowid is one above every rowid the
    table ever had, a row that holds the same [prompt_hash] is deleted, and
    the columns not named take their defaults. The result is [lastrowid]. *)
Definition insert_or_replace (d : db) (h p r ts : str) : result (Z * db) :=
  let id := (Z.max (max_rowid (conversations d)) (sequence d) + 1)%Z in
  if (int64_max <? id)%Z then Raise OperationalError
  else
    let kept := filter (λ kv, row_prompt_hash kv.2 ≠ h) (conversations d) in
    Ok (id, Db (<[id := Row h p r ts 0 (Some 0%float)]> kept) id).

(** [UPDATE conversations SET success_score = ?, earnings = ? WHERE id = ?] *)
Definition update_feedback (d : db) (score : Z) (e : option float) (id : Z) : db :=
  Db (alter (λ r, Row (row_prompt_hash r) (row_prompt r) (row_response r)
                      (row_timestamp r) score e) id (conversations d))
     (sequence d).

(** SQLite's [LOWER] folds the ASCII letters only. *)
Definition sql_lower (s : str) : str := ascii_lower s.

(** [LIKE] reads its operands as zero-terminated text. *)
Fixpoint c_text (s : str) : str :=
  match s with
  | [] => []
  | c :: r => if (c =? 0)%N then [] else c :: c_text r
  end.

Definition PERCENT : char := 37%N.
Definition UNDERSCORE : char := 95%N.
Definition APOSTROPHE : char := 39%N.

Definition like_char (p c : char) : bool :=
  ((p =? UNDERSCORE) || (ascii_lower_char p =? ascii_lower_char c))%N.

(** [text LIKE pattern], no ESCAPE: [%] stands for any run of characters,
    [_] for any one character, and the ASCII letters match in either case. *)
Fixpoint like (pattern text : str) {struct pattern} : bool :=
  match pattern with
  | [] => match text with [] => true | _ => false end
  | p :: pattern' =>
      if (p =? PERCENT)%N then
        (fix skip (t : str) : bool :=
           like pattern' t ||
           match t with
           | [] => false
           | _ :: t' => skip t'
           end) text
      else
        match text with
        | [] => false
        | c :: text' => like_char p c && like pattern' text'
        end
  end.

(** [LOWER(prompt) LIKE '%word%'] *)
Definition lower_prompt_like (word : str) (r : row) : bool :=
  like ([PERCENT] ++ word ++ [PERCENT]) (c_text (sql_lower (row_prompt r))).

(** [ORDER BY timestamp DESC]. What [isoformat()] returns is never a
    numeral, so the column holds text and the order is the one of text.
    SQLite leaves the order of rows with equal timestamps open; here the
    smaller rowid comes first. *)
Definition newer (a b : Z * row) : bool :=
  match str_compare (row_timestamp a.2) (row_timestamp b.2) with
  | Gt => true
  | Eq => (a.1 <=? b.1)%Z
  | Lt => false
  end.

Definition newer_rel (a b : Z * row) : Prop := newer a b = true.

#[export] Instance newer_rel_dec (a b : Z * row) : Decision (newer_rel a b).
Proof. unfold newer_rel. apply _. Defined.

Definition order_by_timestamp_desc (rows : list (Z * row)) : list (Z * row) :=
  merge_sort newer_rel rows.

(** [SELECT * FROM conversations WHERE c1 OR ... OR cn ORDER BY timestamp
    DESC LIMIT 5], each [ci] being [LOWER(prompt) LIKE '%wi%']. *)
Definition select_like (d : db) (words : list str) : list (Z * row) :=
  take 5 (order_by_timestamp_desc
            (filter (λ kv, existsb (λ w, lower_prompt_like w kv.2) words = true)
                    (map_to_list (conversations d)))).

(** The longest pattern [LIKE] accepts, in bytes. *)
Definition max_like_pattern : N := 50000.

(** A word can stand between the quotes of the SQL text as it is when it
    holds no quote, no zero and no surrogate, and [%word%] is no longer than
    [LIKE] accepts. *)
Definition plain_word (w : str) : bool :=
  negb (char_in w APOSTROPHE) && negb (char_in w 0%N) &&
  match encode w with
  | Ok bytes => (N.of_nat (length bytes) + 2 <=? max_like_pattern)%N
  | Raise _ => false
  end.

End Sqlite.

(** ** [pwe_api/main.py] *)

Module Api.
Import Py Sqlite.

(** *** Helper functions: the persistence store *)

(** [hashlib.md5(prompt.lower().encode()).hexdigest()] *)
Definition get_prompt_hash `{CPython} (prompt : str) : result str :=
  bytes ← encode (lower prompt);
  mret (MD5.hexdigest bytes).

(** The call of [sqlite3] that fails, if one does (no file, a locked or full
    database): the store's availability is an input of every request. *)
Inductive fault :=
| no_fault
| connect_fails
| execute_fails
| commit_fails.

Definition connect (f : fault) : result unit :=
  match f with connect_fails => Raise OperationalError | _ => Ok () end.

(** [cursor.execute]: the parameters are bound, then the statement runs. *)
Definition execute {A} (f : fault) (statement : result A) : result A :=
  a ← statement;
  match f with execute_fails => Raise OperationalError | _ => Ok a end.

Definition commit (f : fault) : result unit :=
  match f with commit_fails => Raise OperationalError | _ => Ok () end.

(** The [try] block of [save_conversation]. [now_iso] is
    [datetime.datetime.now().isoformat()]. *)
Definition save_conversation_try `{CPython} (f : fault) (now_iso : str)
    (d : db) (prompt response : str) : result (str * db) :=
  _ ← connect f;
  prompt_hash ← get_prompt_hash prompt;
  let timestamp := now_iso in
  '(strategy_id, d') ← execute f (
    h ← bind_text prompt_hash;
    p ← bind_text prompt;
    r ← bind_text response;
    ts ← bind_text timestamp;
    insert_or_replace d h p r ts);
  _ ← commit f;
  mret (str_of_Z strategy_id, d').

(** [save_conversation(prompt, response)]: the [try] block, and the handler
    of [except Exception]. [now_stamp] is
    [str(datetime.datetime.now().timestamp())] as the handler reads it. What
    is not committed is not stored. *)
Definition save_conversation `{CPython} (f : fault) (now_iso now_stamp : str)
    (d : db) (prompt response : str) : result str * db :=
  match save_conversation_try f now_iso d prompt response with
  | Ok (strategy_id, d') => (Ok strategy_id, d')
  | Raise _ => (Ok (lit "temp_" ++ now_stamp), d)
  end.

(** One entry of the list [get_similar_strategies] returns: the columns 0,
    2, 3, 4 and 5 of a fetched row, as they are. *)
Record similar := Similar {
  similar_id : value;
  similar_prompt : value;
  similar_response : value;
  similar_timestamp : value;
  similar_success_score : value
}.

Definition similar_of_row (row : fetched) : similar :=
  Similar (column_0 row) (column_2 row) (column_3 row) (column_4 row) (column_5 row).

(** What the engine answers to a statement one of whose words is not plain
    (a quote ends the literal, and the rest of the word is read as SQL, a
    [UNION SELECT] of any values for one): an error, or any rows of any
    values at all. It is an input, like the store's faults. *)
Definition altered_query := list str → db → result (list fetched).

(** [get_similar_strategies(prompt)]. With no word the text reads
    [WHERE  ORDER BY], which the engine refuses. *)
Definition get_similar_strategies `{CPython} (f : fault) (altered : altered_query)
    (d : db) (prompt : str) : list similar :=
  let body : result (list similar) :=
    _ ← connect f;
    let words := split (lower prompt) in
    let query_words := take 5 words in
    results ← execute f (
      match query_words with
      | [] => Raise OperationalError
      | _ =>
          if forallb plain_word query_words
          then Ok (map fetch (select_like d query_words))
          else altered query_words d
      end);
    mret (map similar_of_row results) in
  match body with
  | Ok l => l
  | Raise _ => []
  end.

(** What a handler hands to FastAPI, and what the client is sent: the
    payload, or status 500 with the exception behind it (the
    [HTTPException(500)] a handler raises, or an exception FastAPI meets
    when it sends the payload). *)
Inductive http (A : Type) :=
| Http200 (body : A)
| Http500 (e : exn).
Arguments Http200 {A} body.
Arguments Http500 {A} e.

Record feedback_response := FeedbackResponse {
  feedback_status : str;
  feedback_strategy_id : str
}.

(** The status of an accepted feedback: a check mark and the message. *)
Definition feedback_submitted : str :=
  [9989%N] ++ lit " Feedback submitted successfully".

(** [submit_feedback(strategy_id, success_score, earnings)] *)
Definition submit_feedback `{CPython} (f : fault) (d : db)
    (strategy_id : str) (success_score : Z) (earnings : float)
    : http feedback_response * db :=
  let body : result db :=
    _ ← connect f;
    id ← int strategy_id;
    d' ← execute f (
      score ← bind_int success_score;
      id' ← bind_int id;
      mret (update_feedback d score (bind_real earnings) id'));
    _ ← commit f;
    mret d' in
  match body with
  | Ok d' =>
      (Http200 (FeedbackResponse feedback_submitted strategy_id), d')
  | Raise e => (Http500 e, d)
  end.

(** *** The generation engine *)

(** [self.generator(enhanced_prompt, ...)[0]['generated_text']]: the model
    samples, so what this call yields (a text, or an exception) is an input. *)
Definition text_generator := str → result str.

Record AIEngine := {
  (** [self.model is not None] *)
  model : bool;
  (** [self.tokenizer is not None] *)
  tokenizer : bool;
  generator : option text_generator
}.

(** [load_model]: the three attributes are set together, or all are [None]. *)
Definition load_model (loaded : result text_generator) : AIEngine :=
  match loaded with
  | Ok g => {| model := true; tokenizer := true; generator := Some g |}
  | Raise _ => {| model := false; tokenizer := false; generator := None |}
  end.

Inductive category := freelance | online | ecommerce | investment.

(** The dictionary [strategies]. *)
Definition strategies (c : category) : str :=
  match c with
  | freelance => lit "
1. Create profiles on Upwork, Fiverr, and Freelancer
2. Identify your core skills (writing, design, programming, etc.)
3. Start with competitive pricing to build reviews
4. Focus on quick turnaround projects initially
5. Gradually increase rates as you build reputation
6. Aim for $20-50/hour within first month
7. Scale by offering package deals and retainer clients
"
  | online => lit "
1. Choose a profitable niche (health, finance, tech)
2. Create valuable content (blog, YouTube, social media)
3. Build an email list of potential customers
4. Develop digital products (courses, ebooks, tools)
5. Use affiliate marketing for passive income
6. Monetize through ads, sponsorships, and partnerships
7. Scale with automation and outsourcing
"
  | ecommerce => lit "
1. Research trending products with low competition
2. Find reliable suppliers (Alibaba, local manufacturers)
3. Create an online store (Shopify, Amazon FBA)
4. Optimize product listings with SEO
5. Run targeted social media ads
6. Focus on customer service and reviews
7. Expand product line based on successful items
"
  | investment => lit "
1. Start with index funds for stable growth
2. Learn about dividend stocks for passive income
3. Consider REITs for real estate exposure
4. Use dollar-cost averaging for consistent investing
5. Keep emergency fund of 3-6 months expenses
6. Diversify across asset classes and sectors
7. Reinvest profits to compound returns
"
  end.

Definition freelance_words : list str := [lit "freelance"; lit "gig"; lit "service"].
Definition online_words : list str := [lit "online"; lit "digital"; lit "internet"].
Definition ecommerce_words : list str := [lit "sell"; lit "product"; lit "ecommerce"].
Definition investment_words : list str := [lit "invest"; lit "stock"; lit "crypto"].

(** The [if]/[elif] chain of [generate_fallback_strategy] that determines
    the category from the keywords of the prompt. *)
Definition fallback_category `{CPython} (prompt : str) : category :=
  let prompt_lower := lower prompt in
  if any_in freelance_words prompt_lower then freelance
  else if any_in online_words prompt_lower then online
  else if any_in ecommerce_words prompt_lower then ecommerce
  else if any_in investment_words prompt_lower then investment
  else online.

Definition fallback_header : str := lit "
**Money-Making Strategy for: ".

Definition fallback_footer : str := lit "

**Quick Start Actions:**
1. Set up necessary accounts today
2. Complete profile/setup within 24 hours
3. Launch first offering within 48 hours
4. Track daily progress and earnings
5. Optimize based on results weekly

**Expected Timeline:**
- Week 1: Setup and first attempts ($0-50)
- Week 2-4: Build momentum ($50-200/week)
- Month 2-3: Scale operations ($200-500/week)
- Month 4+: Full optimization ($500+/week)

Remember: Success requires consistent action and adaptation!
".

(** [AIEngine.generate_fallback_strategy(self, prompt)] *)
Definition generate_fallback_strategy `{CPython} (self : AIEngine) (prompt : str) : str :=
  let category := fallback_category prompt in
  let base_strategy := strategies category in
  fallback_header ++ prompt ++ lit "**

" ++ base_strategy ++ fallback_footer.

Definition enhanced_prompt (prompt : str) : str :=
  lit "
As an expert financial strategist and entrepreneur, provide a detailed, actionable money-making strategy for: "
  ++ [QUOTE] ++ prompt ++ [QUOTE] ++ lit "

Consider these factors:
1. Timeline and realistic expectations
2. Required skills and resources
3. Step-by-step action plan
4. Potential earnings and ROI
5. Risk assessment and mitigation
6. Scalability options

Strategy:".

(** [s.split(sep)] for a non-empty [sep]: [skip] counts the code points of
    a separator still to pass, [cur] is the piece being read, reversed. *)
Fixpoint split_str_from (sep : str) (skip : nat) (cur : str) (s : str) : list str :=
  match s with
  | [] => [rev cur]
  | c :: r =>
      match skip with
      | S k => split_str_from sep k cur r
      | O =>
          if startswith s sep
          then rev cur :: split_str_from sep (length sep - 1) [] r
          else split_str_from sep 0 (c :: cur) r
      end
  end.

Definition split_str (sep s : str) : list str := split_str_from sep 0 [] s.

(** [AIEngine.generate_money_strategy(self, prompt)] *)
Definition generate_money_strategy `{CPython} (self : AIEngine) (prompt : str) : str :=
  let body : result str :=
    match generator self with
    | Some g =>
        _ ← (if tokenizer self then Ok () else Raise AttributeError);
        generated_text ← g (enhanced_prompt prompt);
        mret (strip (List.last (split_str (lit "Strategy:") generated_text) []))
    | None => Ok (generate_fallback_strategy self prompt)
    end in
  match body with
  | Ok strategy => strategy
  | Raise _ => generate_fallback_strategy self prompt
  end.

(** *** Helper functions: the post-processor *)

Definition action_prefixes : list str :=
  [lit "1."; lit "2."; lit "3."; lit "4."; lit "5."; lit "-"; [BULLET]].

Definition action_strip_chars : str :=
  lit "123456789.-" ++ [BULLET] ++ lit " ".

(** [any(line.startswith(prefix) for prefix in [...])] *)
Definition has_action_prefix (line : str) : bool :=
  existsb (startswith line) action_prefixes.

(** [line.lstrip('123456789.-• ').strip()] *)
Definition clean_action (line : str) : str :=
  strip (lstrip_chars action_strip_chars line).

(** [action and len(action) > 10] *)
Definition long_enough (action : str) : bool :=
  match action with
  | [] => false
  | _ => (10 <? length action)%nat
  end.

(** One turn of the loop over the lines. *)
Definition extract_step (actions : list str) (line : str) : list str :=
  let line := strip line in
  if has_action_prefix line then
    let action := clean_action line in
    if long_enough action then actions ++ [action] else actions
  else actions.

(** [extract_suggested_actions(strategy)] *)
Definition extract_suggested_actions (strategy : str) : list str :=
  let lines := split_char LF strategy in
  take 5 (foldl extract_step [] lines).

Definition DOLLAR : char := 36%N.
Definition COMMA : char := 44%N.
Definition DOT : char := 46%N.

(** [\d+]: the longest run of digits. *)
Fixpoint match_digits `{CPython} (s : str) : str :=
  match s with
  | c :: r => if is_digit c then c :: match_digits r else []
  | [] => []
  end.

(** [(?:,\d{3})*]: as many groups of a comma and three digits as follow. *)
Fixpoint match_thousands `{CPython} (s : str) : str :=
  match s with
  | c :: d1 :: d2 :: d3 :: r =>
      if (c =? COMMA)%N && is_digit d1 && is_digit d2 && is_digit d3
      then c :: d1 :: d2 :: d3 :: match_thousands r
      else []
  | _ => []
  end.

(** [(?:\.\d{2})?] *)
Definition match_cents `{CPython} (s : str) : str :=
  match s with
  | c :: d1 :: d2 :: _ =>
      if (c =? DOT)%N && is_digit d1 && is_digit d2 then [c; d1; d2] else []
  | _ => []
  end.

(** The group of [\$(\d+(?:,\d{3})*(?:\.\d{2})?)] matched at a dollar sign
    that [s] follows. Every part after the digits is optional and nothing
    follows the pattern, so the greedy choice is the match. *)
Definition match_amount `{CPython} (s : str) : option str :=
  match match_digits s with
  | [] => None
  | digits =>
      let s1 := drop (length digits) s in
      let thousands := match_thousands s1 in
      let s2 := drop (length thousands) s1 in
      Some (digits ++ thousands ++ match_cents s2)
  end.

(** [re.findall(pattern, s)]: the matches from left to right, none
    overlapping another. [skip] counts the code points of the last match
    still to pass. *)
Fixpoint findall_amounts_from `{CPython} (skip : nat) (s : str) : list str :=
  match s with
  | [] => []
  | c :: r =>
      match skip with
      | S k => findall_amounts_from k r
      | O =>
          if (c =? DOLLAR)%N then
            match match_amount r with
            | Some m => m :: findall_amounts_from (length m) r
            | None => findall_amounts_from 0 r
            end
          else findall_amounts_from 0 r
      end
  end.

Definition findall_amounts `{CPython} (s : str) : list str :=
  findall_amounts_from 0 s.

Definition short_term : str := lit "$50-200 (short-term)".
Definition weekly_potential : str := lit "$200-1000 (weekly potential)".
Definition monthly_potential : str := lit "$1000-5000 (monthly potential)".
Definition typical_range : str := lit "$100-500 (typical range)".

(** [estimate_earnings(prompt, strategy)] *)
Definition estimate_earnings `{CPython} (prompt strategy : str) : str :=
  let prompt_lower := lower prompt in
  let amounts := findall_amounts prompt in
  match amounts with
  | first :: _ =>
      let target_amount := remove_char COMMA first in
      lit "Target: $" ++ target_amount ++ lit " (as specified)"
  | [] =>
      if any_in [lit "day"; lit "today"; lit "quickly"] prompt_lower then short_term
      else if any_in [lit "week"; lit "weekly"] prompt_lower then weekly_potential
      else if any_in [lit "month"; lit "monthly"] prompt_lower then monthly_potential
      else typical_range
  end.

(** *** The route [POST /v1/chat/completions] *)

Record ChatRequest := {
  request_prompt : str;
  request_user_id : str
}.

Record ChatResponse := {
  response : str;
  strategy_id : str;
  confidence : float;
  suggested_actions : list str;
  estimated_earnings : str;
  timestamp : str
}.

(** What one request reads from outside: the store's faults at the lookup
    and at the upsert, the engine's answer to altered query text, and the
    three readings of the clock. *)
Record environment := {
  lookup_fault : fault;
  lookup_altered : altered_query;
  save_fault : fault;
  save_now_iso : str;
  save_now_stamp : str;
  respond_now_iso : str
}.

(** [enumerate(l, i)] *)
Fixpoint enumerate {A} (i : N) (l : list A) : list (N * A) :=
  match l with
  | [] => []
  | x :: r => (i, x) :: enumerate (i + 1)%N r
  end.

(** [f"{v[:100]}"], [v] being the prompt of a similar exchange: the first
    100 code points of a text, the [repr] of the first 100 bytes of a blob;
    a number and [None] cannot be sliced. *)
Definition slice_100 (v : value) : result str :=
  match v with
  | Text s => Ok (take 100 s)
  | Blob b => Ok (bytes_repr (take 100 b))
  | _ => Raise TypeError
  end.

(** The heading of the note appended when similar strategies were found. *)
Definition note_heading (n : nat) : str :=
  lit "

**" ++ [CHART] ++ lit " Based on " ++ str_of_N (N.of_nat n)
  ++ lit " similar queries, here are additional insights:**
".

(** The line one turn of the loop appends. *)
Definition note_line (item : N * similar) : result str :=
  previous ← slice_100 (similar_prompt item.2);
  mret (str_of_N item.1 ++ lit ". Previous approach: " ++ previous ++ lit "...
").

(** The note: the heading and the lines for the first two similar
    exchanges. A turn of the loop that raises ends it. *)
Definition similar_note (similar_strategies : list similar) : result str :=
  lines ← mapM note_line (enumerate 1 (take 2 similar_strategies));
  mret (note_heading (length similar_strategies) ++ concat lines).

(** [min(a, b)] of Python: [b] when [b < a], else [a]. *)
Definition py_min (a b : float) : float :=
  if (b <? a)%float then b else a.

(** The confidence of a response, from [ai_engine.model] and from whether
    the lookup found anything. *)
Definition chat_confidence (model_loaded has_similar : bool) : float :=
  let confidence := (if model_loaded then 0.8 else 0.6)%float in
  let confidence := (if has_similar then confidence + 0.1 else confidence)%float in
  py_min confidence 0.95%float.

Definition non_empty {A} (l : list A) : bool :=
  match l with [] => false | _ => true end.

(** The strategy as it is when [save_conversation] is called: the
    generated text, with the note when similar strategies were found. *)
Definition noted_strategy `{CPython} (env : environment) (ai_engine : AIEngine)
    (d : db) (request : ChatRequest) : result str :=
  let prompt := request_prompt request in
  let similar_strategies :=
    get_similar_strategies (lookup_fault env) (lookup_altered env) d prompt in
  let strategy := generate_money_strategy ai_engine prompt in
  if non_empty similar_strategies
  then note ← similar_note similar_strategies; mret (strategy ++ note)
  else mret strategy.

(** [chat_completions(request)], the handler: [Http200 r] when it returns
    [r], [Http500 e] when it raises [HTTPException(500)] for the exception
    [e] met in its [try] block. What is raised before [save_conversation] is
    called leaves the store as it was. *)
Definition chat_completions `{CPython} (env : environment) (ai_engine : AIEngine)
    (d : db) (request : ChatRequest) : http ChatResponse * db :=
  let prompt := request_prompt request in
  let similar_strategies :=
    get_similar_strategies (lookup_fault env) (lookup_altered env) d prompt in
  match noted_strategy env ai_engine d request with
  | Raise e => (Http500 e, d)
  | Ok strategy =>
      let '(saved, d') :=
        save_conversation (save_fault env) (save_now_iso env) (save_now_stamp env)
                          d prompt strategy in
      let body : result ChatResponse :=
        strategy_id ← saved;
        let suggested_actions := extract_suggested_actions strategy in
        let estimated_earnings := estimate_earnings prompt strategy in
        mret {| response := strategy;
                strategy_id := strategy_id;
                confidence :=
                  chat_confidence (model ai_engine) (non_empty similar_strategies);
                suggested_actions := suggested_actions;
                estimated_earnings := estimated_earnings;
                timestamp := respond_now_iso env |} in
      match body with
      | Ok r => (Http200 r, d')
      | Raise e => (Http500 e, d')
      end
  end.

(** What FastAPI does with the value the handler returned: the response is
    written as JSON and encoded as UTF-8 ([JSONResponse.render]). The
    escapes of JSON leave a surrogate as it is, so a text that holds one
    cannot be encoded. *)
Definition render (r : ChatResponse) : result unit :=
  _ ← encode (response r);
  _ ← encode (strategy_id r);
  _ ← mapM encode (suggested_actions r);
  _ ← encode (estimated_earnings r);
  _ ← encode (timestamp r);
  mret ().

(** The route [POST /v1/chat/completions], as the client sees it: the
    handler's answer when it can be sent, status 500 when the handler raised
    or the response cannot be rendered. *)
Definition post_chat_completions `{CPython} (env : environment) (ai_engine : AIEngine)
    (d : db) (request : ChatRequest) : http ChatResponse * db :=
  match chat_completions env ai_engine d request with
  | (Http200 r, d') =>
      match render r with
      | Ok _ => (Http200 r, d')
      | Raise e => (Http500 e, d')
      end
  | (Http500 e, d') => (Http500 e, d')
  end.

End Api.

(** ** The words of the specification *)

Module Spec.
Import Py Sqlite Api.

(** Text of ASCII code points only: there every interpreter agrees. *)
Definition ascii_text (s : str) : Prop := forallb is_ascii s = true.

(** [needle] occurs in [hay]. *)
Definition substring (needle hay : str) : Prop :=
  ∃ before after, hay = before ++ needle ++ after.

(** [text] holds one of the keywords. *)
Definition mentions (keywords : list str) (text : str) : Prop :=
  ∃ w, w ∈ keywords ∧ substring w text.

(** The keyword sets in the order in which the classifier tries them. *)
Definition keyword_sets : list (category * list str) :=
  [(freelance, freelance_words); (online, online_words);
   (ecommerce, ecommerce_words); (investment, investment_words)].

(** The first category, in that order, one of whose keywords the text
    holds; [online] when there is none. *)
Definition first_category (text : str) : category :=
  match find (λ cw, any_in cw.2 text) keyword_sets with
  | Some cw => cw.1
  | None => online
  end.

(** The text holds a dollar sign that a digit follows: the places where the
    pattern of [estimate_earnings] matches. *)
Definition has_amount `{CPython} (s : str) : Prop :=
  ∃ before d after, s = before ++ DOLLAR :: d :: after ∧ is_digit d = true.

Definition day_words : list str := [lit "day"; lit "today"; lit "quickly"].
Definition week_words : list str := [lit "week"; lit "weekly"].
Definition month_words : list str := [lit "month"; lit "monthly"].

(** The label put around the amount found in the prompt. *)
Definition as_specified (amount : str) : str :=
  lit "Target: $" ++ remove_char COMMA amount ++ lit " (as specified)".

(** A dollar amount as the specification words it: digits, thousands in
    groups of three digits behind a comma each, and cents, two digits
    behind a dot, if any. *)
Record amount := Amount {
  amount_whole : str;
  amount_thousands : list str;
  amount_cents : option str
}.

Definition all_digits `{CPython} (s : str) : Prop :=
  Forall (λ c, is_digit c = true) s.

Definition valid_amount `{CPython} (a : amount) : Prop :=
  amount_whole a ≠ [] ∧ all_digits (amount_whole a) ∧
  Forall (λ g, length g = 3 ∧ all_digits g) (amount_thousands a) ∧
  match amount_cents a with
  | Some c => length c = 2 ∧ all_digits c
  | None => True
  end.

(** The amount as the prompt writes it behind the dollar sign. *)
Definition written (a : amount) : str :=
  amount_whole a ++ flat_map (λ g, COMMA :: g) (amount_thousands a)
  ++ match amount_cents a with Some c => DOT :: c | None => [] end.

(** The amount without its thousands separators. *)
Definition without_commas (a : amount) : str :=
  amount_whole a ++ concat (amount_thousands a)
  ++ match amount_cents a with Some c => DOT :: c | None => [] end.

(** [s] begins with [c] and [n] digits. *)
Definition begins_with `{CPython} (c : char) (n : nat) (s : str) : Prop :=
  ∃ ds rest, s = c :: ds ++ rest ∧ length ds = n ∧ all_digits ds.

(** The amount takes in all that the text offers: behind an amount without
    cents come neither a further group of thousands nor cents, and behind
    bare digits comes no digit. *)
Definition longest `{CPython} (a : amount) (after : str) : Prop :=
  match amount_cents a with
  | Some _ => True
  | None =>
      ¬ begins_with COMMA 3 after ∧ ¬ begins_with DOT 2 after ∧
      (amount_thousands a = [] → ∀ c rest, after = c :: rest → is_digit c = false)
  end.

(** [a] is the first dollar amount of the prompt: it stands behind the
    leftmost dollar sign that a digit follows. *)
Definition first_amount `{CPython} (prompt : str) (a : amount) : Prop :=
  valid_amount a ∧
  ∃ before after,
    prompt = before ++ DOLLAR :: written a ++ after ∧
    ¬ has_amount (before ++ [DOLLAR]) ∧ longest a after.

(** A plan of [n] numbered steps: a line break, then the lines [1. ...]
    to [n. ...], each closed by a line break. *)
Definition numbered_plan (n : nat) (body : str) : Prop :=
  ∃ steps : list str,
    length steps = n ∧ Forall (λ s, LF ∉ s) steps ∧
    body = LF :: concat (imap (λ i s, str_of_N (N.of_nat (S i)) ++ lit ". " ++ s ++ [LF]) steps).

(** The lines [1. b1], [2. b2], ... joined by line breaks. *)
Definition numbered_lines (bodies : list str) : str :=
  join [LF] (imap (λ i b, str_of_N (N.of_nat (S i)) ++ lit ". " ++ b) bodies).

(** The markers of an action line, as the specification lists them. *)
Definition markers : list str :=
  [lit "1."; lit "2."; lit "3."; lit "4."; lit "5."; lit "-"; [BULLET]].

(** The characters markers are made of: the digits 1 to 9, the dot, the
    dash and the bullet. *)
Definition marker_chars : str := lit "123456789.-" ++ [BULLET].

(** The trimmed line is a marker followed by [rest]. *)
Definition marked (line rest : str) : Prop :=
  ∃ m, m ∈ markers ∧ strip line = m ++ rest.

(** The text of an action does not begin like a marker. The specification
    says nothing of an action line whose text does. *)
Definition plain_action (action : str) : Prop :=
  match action with
  | c :: _ => c ∉ marker_chars
  | [] => True
  end.

(** The actions of a list of lines, in the specification's words: a line
    without marker gives none, a line with a marker gives the text behind
    the marker, trimmed, when that is longer than 10 characters. *)
Inductive actions_of : list str → list str → Prop :=
| actions_of_nil : actions_of [] []
| actions_of_other line lines actions :
    (∀ rest, ¬ marked line rest) →
    actions_of lines actions →
    actions_of (line :: lines) actions
| actions_of_kept line rest lines actions :
    marked line rest → plain_action (strip rest) → 10 < length (strip rest) →
    actions_of lines actions →
    actions_of (line :: lines) (strip rest :: actions)
| actions_of_short line rest lines actions :
    marked line rest → plain_action (strip rest) → length (strip rest) ≤ 10 →
    actions_of lines actions →
    actions_of (line :: lines) actions.

(** A text that stands behind a marker as it is: it begins with no
    character of a marker and no blank, ends with no blank, and has no line
    break. *)
Definition clean_text (b : str) : Prop :=
  ∃ c middle e, b = c :: middle ++ [e] ∧ (LF ∉ b) ∧
    char_in marker_chars c = false ∧ is_space c = false ∧ is_space e = false.

(** A text that UTF-8 can encode: it holds no surrogate. *)
Definition encodable (s : str) : Prop := ∃ bytes, encode s = Ok bytes.

(** One call of the upsert: the store's fault, the two readings of the
    clock, the prompt and the response. *)
Record upsert := Upsert {
  upsert_fault : fault;
  upsert_now_iso : str;
  upsert_now_stamp : str;
  upsert_prompt : str;
  upsert_response : str
}.

Definition apply_upsert `{CPython} (d : db) (u : upsert) : db :=
  (save_conversation (upsert_fault u) (upsert_now_iso u) (upsert_now_stamp u)
                     d (upsert_prompt u) (upsert_response u)).2.

(** The store after a sequence of upserts. *)
Definition run_upserts `{CPython} (d : db) (us : list upsert) : db :=
  foldl apply_upsert d us.

(** Whether the upsert writes its row: its [try] block returns. *)
Definition stored `{CPython} (d : db) (u : upsert) : bool :=
  match save_conversation_try (upsert_fault u) (upsert_now_iso u) d
                              (upsert_prompt u) (upsert_response u) with
  | Ok _ => true
  | Raise _ => false
  end.

(** The prompt and response of every upsert of the sequence that wrote its
    row, in order. *)
Fixpoint writes `{CPython} (d : db) (us : list upsert) : list (str * str) :=
  match us with
  | [] => []
  | u :: rest =>
      (if stored d u then [(upsert_prompt u, upsert_response u)] else [])
      ++ writes (apply_upsert d u) rest
  end.

(** The last write whose prompt has the normalized text [text]. *)
Definition last_write `{CPython} (text : str) (ws : list (str * str)) : option (str * str) :=
  last (filter (λ w, lower w.1 = text) ws).

(** The UNIQUE constraint on [prompt_hash]. *)
Definition unique_fingerprints (d : db) : Prop :=
  ∀ i j ri rj,
    conversations d !! i = Some ri → conversations d !! j = Some rj →
    row_prompt_hash ri = row_prompt_hash rj → i = j.

(** What holds of the store after the writes [ws]: fingerprints are unique,
    every row holds the fingerprint of its prompt, and every row holds the
    last write made for its normalized prompt. *)
Definition store_inv `{CPython} (d : db) (ws : list (str * str)) : Prop :=
  unique_fingerprints d ∧
  ∀ i r, conversations d !! i = Some r →
    get_prompt_hash (row_prompt r) = Ok (row_prompt_hash r) ∧
    last_write (lower (row_prompt r)) ws = Some (row_prompt r, row_response r).

(** The row an upsert stores. *)
Definition fresh_row (h prompt response now_iso : str) : row :=
  Row h prompt response now_iso 0 (Some 0%float).

(** [clean_text], decided. *)
Definition clean_textb (b : str) : bool :=
  match b, rev b with
  | c :: _ :: _, e :: _ =>
      negb (char_in b LF) && negb (char_in marker_chars c)
      && negb (is_space c) && negb (is_space e)
  | _, _ => false
  end.

(** The primary generative path succeeded: the generator exists and its
    call returned a text. *)
Definition primary_path_succeeded (self : AIEngine) (prompt : str) : bool :=
  match generator self with
  | Some g =>
      tokenizer self &&
      match g (enhanced_prompt prompt) with Ok _ => true | Raise _ => false end
  | None => false
  end.

(** The lookup of one request, and whether it found anything. *)
Definition found_similar `{CPython} (env : environment) (d : db) (prompt : str) : bool :=
  non_empty (get_similar_strategies (lookup_fault env) (lookup_altered env) d prompt).

(** The confidence as the specification words it: the base follows from
    whether the primary generative path succeeded. *)
Definition stated_confidence (succeeded found : bool) : float :=
  let base := (if succeeded then 0.8 else 0.6)%float in
  py_min (if found then base + 0.1 else base)%float 0.95%float.

Definition confidence_as_stated (R : CPython) : Prop :=
  ∀ env ai_engine d request r d',
    chat_completions env ai_engine d request = (Http200 r, d') →
    confidence r
    = stated_confidence (primary_path_succeeded ai_engine (request_prompt request))
                        (found_similar env d (request_prompt request)).

(** A request served with the store available. *)
Definition quiet_environment : environment := {|
  lookup_fault := no_fault;
  lookup_altered := λ _ _, Raise OperationalError;
  save_fault := no_fault;
  save_now_iso := lit "2024-01-01T00:00:00";
  save_now_stamp := lit "1704067200.0";
  respond_now_iso := lit "2024-01-01T00:00:01"
|}.

(** An engine whose model is loaded and whose generator raises at the call
    (out of memory, say). *)
Definition failing_engine : AIEngine :=
  load_model (Ok (λ _, Raise RuntimeError)).

(** The strategy_id names no row of the store. *)
Definition matches_no_row `{CPython} (d : db) (strategy_id : str) : Prop :=
  ∀ n r, conversations d !! n = Some r → int strategy_id ≠ Ok n.

(** Feedback as the specification words it: an id that matches no row is
    accepted, nothing is updated. *)
Definition feedback_as_stated (R : CPython) : Prop :=
  ∀ d strategy_id success_score earnings,
    matches_no_row d strategy_id →
    ∃ body,
      submit_feedback no_fault d strategy_id success_score earnings
      = (Http200 body, d).

(** A store with one exchange, whose prompt is [abc]. *)
Definition abc_store : db :=
  Db {[ 1%Z := Row (lit "900150983cd24fb0d6963f7d28e17f72") (lit "abc")
                   (lit "a plan") (lit "2024-01-01T00:00:00") 0 (Some 0%float) ]}
     1.

(** The value fits SQLite's 64-bit integers. *)
Definition fits_int64 (z : Z) : Prop := (int64_min ≤ z ≤ int64_max)%Z.




(** A prompt UTF-8 cannot encode: one lone surrogate. *)
Definition lone_surrogate : str := [55296%N].

(** The two digits of a number below 100. *)
Definition two_digits (n : nat) : str :=
  [(48 + N.of_nat (n / 10))%N; (48 + N.of_nat (n mod 10))%N].

(** The store after 51 requests, one second after the other, each with a
    prompt of its own. *)
Definition busy_store : db :=
  @run_upserts ascii_only init_database
    (map (λ i, Upsert no_fault (lit "2024-01-01T00:00:" ++ two_digits i)
                      (lit "1704067200.0") (lit "prompt " ++ two_digits i)
                      (lit "a plan"))
         (seq 1 51)).

End Spec.

(** ** The routes that only read the store and the engine *)

Module Routes.
Import Py Sqlite Api.

(** What [GET /] answers. *)
Record HealthResponse := {
  status : str;
  version : str;
  ai_model : str;
  timestamp : str
}.

(** [health_check()]: [now_iso] is [datetime.datetime.now().isoformat()]. *)
Definition health_check (ai_engine : AIEngine) (now_iso : str) : HealthResponse :=
  {| status := [9989%N] ++ lit " PWE API is running!";
     version := lit "1.0.0";
     ai_model := if model ai_engine then lit "facebook/opt-1.3b" else lit "fallback";
     timestamp := now_iso |}.

(** [SELECT * FROM conversations ORDER BY timestamp DESC LIMIT 50] *)
Definition select_recent (d : db) : list (Z * row) :=
  take 50 (order_by_timestamp_desc (map_to_list (conversations d))).

(** The order of the column [earnings]: NULL is below every number, and
    the numbers compare as binary64 values. *)
Definition earnings_less (a b : option float) : bool :=
  match a, b with
  | None, Some _ => true
  | Some x, Some y => (x <? y)%float
  | _, None => false
  end.

(** [ORDER BY success_score DESC, earnings DESC]: among rows equal in both
    columns, which SQLite leaves open, the smaller rowid comes first. *)
Definition better (a b : Z * row) : bool :=
  if (row_success_score b.2 <? row_success_score a.2)%Z then true
  else if (row_success_score a.2 <? row_success_score b.2)%Z then false
  else if earnings_less (row_earnings b.2) (row_earnings a.2) then true
  else if earnings_less (row_earnings a.2) (row_earnings b.2) then false
  else (a.1 <=? b.1)%Z.

Definition better_rel (a b : Z * row) : Prop := better a b = true.

(** The first key of that order alone. *)
Definition score_ge (a b : Z * row) : Prop :=
  (row_success_score b.2 ≤ row_success_score a.2)%Z.

#[global] Instance better_rel_dec (a b : Z * row) : Decision (better_rel a b).
Proof. unfold better_rel. apply _. Defined.

(** [SELECT * FROM conversations WHERE success_score > 0 ORDER BY
    success_score DESC, earnings DESC LIMIT 10] *)
Definition select_top_performing (d : db) : list (Z * row) :=
  take 10 (merge_sort better_rel
             (filter (λ kv, (0 < row_success_score kv.2)%Z)
                     (map_to_list (conversations d)))).

(** One entry of [conversations] in the answer of [GET /v1/history]. *)
Record conversation_entry := {
  conversation_id : Z;
  conversation_prompt : str;
  conversation_response : str;
  conversation_timestamp : str;
  conversation_success_score : Z;
  conversation_earnings : option float
}.

(** One entry of [top_performing]. *)
Record top_entry := {
  top_id : Z;
  top_prompt : str;
  top_success_score : Z;
  top_earnings : option float
}.

(** The dictionary built from a row of the first query: the response is
    the first 200 code points of the stored one, and three dots. *)
Definition conversation_of_row (kv : Z * row) : conversation_entry :=
  {| conversation_id := kv.1;
     conversation_prompt := row_prompt kv.2;
     conversation_response := take 200 (row_response kv.2) ++ lit "...";
     conversation_timestamp := row_timestamp kv.2;
     conversation_success_score := row_success_score kv.2;
     conversation_earnings := row_earnings kv.2 |}.

Definition top_of_row (kv : Z * row) : top_entry :=
  {| top_id := kv.1;
     top_prompt := row_prompt kv.2;
     top_success_score := row_success_score kv.2;
     top_earnings := row_earnings kv.2 |}.

Record HistoryResponse := {
  history_conversations : list conversation_entry;
  total_strategies : nat;
  top_performing : list top_entry
}.

(** [get_history()]: two queries, no commit. *)
Definition get_history (f : fault) (d : db) : http HistoryResponse :=
  let body : result HistoryResponse :=
    _ ← connect f;
    conversations ← execute f (Ok (select_recent d));
    top_performing ← execute f (Ok (select_top_performing d));
    mret {| history_conversations := map conversation_of_row conversations;
            total_strategies := length conversations;
            top_performing := map top_of_row top_performing |} in
  match body with
  | Ok r => Http200 r
  | Raise e => Http500 e
  end.

End Routes.

(** ** [pwe_app/config.py]: the address of the API *)

Module Config.
Import Py.

Definition SLASH : char := 47%N.

(** [Config.validate_api_url(url)] *)
Definition validate_api_url (url : str) : bool :=
  (startswith url (lit "http://") || startswith url (lit "https://"))
  && (10 <? length url)%nat.

(** [Config.update_api_url(new_url)]: the class attribute [API_BASE_URL] is
    the state; the result is the new value of the attribute and the flag
    returned. *)
Definition update_api_url (API_BASE_URL new_url : str) : str * bool :=
  if validate_api_url new_url
  then (rstrip_with (char_in [SLASH]) new_url, true)
  else (API_BASE_URL, false).

End Config.

(** ** [pwe_bots/ebook_bot.py]: the price of a bundle *)

Module EbookBot.

(** The two entries of [ebook_data] the price reads; [None] when the key is
    missing. *)
Record ebook_data := {
  total_word_count : option Z;
  article_count : option Z
}.

(** [EBookGenerator.calculate_suggested_price(ebook_data)], in cents. *)
Definition calculate_suggested_price (data : ebook_data) : Z :=
  let word_count := default 0%Z (total_word_count data) in
  let article_count := default 1%Z (article_count data) in
  let base_price := Z.max 5 ((word_count / 1000) * 3) in
  let multi_article_bonus := Z.max 0 ((article_count - 1) * 2) in
  let suggested_price := ((base_price + multi_article_bonus) * 100)%Z in
  Z.max 500 (Z.min 5000 suggested_price).

End EbookBot.

(** * Properties *)

Import Py Sqlite Api Spec.

(** ** The models of the libraries on known values *)

(** The test suite of RFC 1321. *)
Example md5_test_suite :
  MD5.hexdigest [] = lit "d41d8cd98f00b204e9800998ecf8427e" ∧
  MD5.hexdigest (lit "a") = lit "0cc175b9c0f1b6a831c399e269772661" ∧
  MD5.hexdigest (lit "abc") = lit "900150983cd24fb0d6963f7d28e17f72" ∧
  MD5.hexdigest (lit "message digest") = lit "f96b697d7cb7938d525a2f31aaf161d0" ∧
  MD5.hexdigest (lit "12345678901234567890123456789012345678901234567890123456789012345678901234567890")
  = lit "57edf4a22be3c955ac49da2e2107b67a".
Proof. repeat split; vm_compute; reflexivity. Qed.

Example encode_bullet : encode [BULLET; CHART] = Ok [226; 128; 162; 240; 159; 147; 138]%N.
Proof. vm_compute. reflexivity. Qed.

Example int_examples :
  int (lit " +1_000 ") = Ok 1000%Z ∧ int (lit "-12") = Ok (-12)%Z ∧
  int (lit "012") = Ok 12%Z ∧ int (lit "1__2") = Raise ValueError ∧
  int (lit "12_") = Raise ValueError ∧ int (lit "") = Raise ValueError ∧
  int (lit "1.0") = Raise ValueError ∧ int [28; 53]%N = Raise ValueError.
Proof. repeat split; vm_compute; reflexivity. Qed.

Example bytes_repr_examples :
  bytes_repr [97; 10; 255; 92]%N = lit "b'a\n\xff\\'" ∧
  bytes_repr [39]%N = [98; 34; 39; 34]%N ∧
  bytes_repr [39; 34]%N = [98; 39; 92; 39; 34; 39]%N.
Proof. repeat split; vm_compute; reflexivity. Qed.

Example like_examples :
  like (lit "%a_c%") (lit "xxabcxx") = true ∧ like (lit "%a_c%") (lit "ac") = false ∧
  like (lit "%AbC%") (lit "abc") = true ∧ like (lit "%%%") (lit "") = true ∧
  like (lit "_") (lit "") = false.
Proof. repeat split; vm_compute; reflexivity. Qed.

Example split_examples :
  split (lit "  invest   in crypto ") = [lit "invest"; lit "in"; lit "crypto"] ∧
  split (lit "   ") = [] ∧
  split_char LF (lit "a" ++ [LF; LF] ++ lit "b") = [lit "a"; []; lit "b"] ∧
  split_str (lit "Strategy:") (lit "aStrategy:bStrategy:Strategy:c")
  = [lit "a"; lit "b"; []; lit "c"].
Proof. repeat split; vm_compute; reflexivity. Qed.

(** ** Text *)

Lemma startswith_spec (s p : str) :
  startswith s p = true ↔ ∃ r, s = p ++ r.
Proof.
  revert s. induction p as [|c p IH]; intros s; simpl.
  - split; [intros _; by exists s | done].
  - destruct s as [|d s].
    + split; [done | intros [r Hr]; discriminate].
    + rewrite andb_true_iff, N.eqb_eq, IH. split.
      * intros [-> [r ->]]. by exists r.
      * intros [r [= -> ->]]. split; [done | by exists r].
Qed.

Lemma contains_spec (hay needle : str) :
  contains hay needle = true ↔ substring needle hay.
Proof.
  unfold substring. induction hay as [|c hay IH].
  - simpl. rewrite orb_false_r, startswith_spec. split.
    + intros [r Hr]. by exists [], r.
    + intros [a [b Hab]]. symmetry in Hab.
      apply app_eq_nil in Hab as [-> Hab]. apply app_eq_nil in Hab as [-> ->].
      by exists [].
  - cbn [contains]. rewrite orb_true_iff, startswith_spec, IH. split.
    + intros [[r Hr] | [a [b Hab]]].
      * by exists [], r.
      * exists (c :: a), b. by rewrite Hab.
    + intros [[|d a] [b Hab]].
      * left. by exists b.
      * right. injection Hab as -> ->. by exists a, b.
Qed.

Lemma any_in_spec (words : list str) (s : str) :
  any_in words s = true ↔ mentions words s.
Proof.
  unfold any_in, mentions. rewrite existsb_exists. split.
  - intros [w [Hin Hw]]. exists w. split.
    + by apply list_elem_of_In.
    + by apply contains_spec.
  - intros [w [Hin Hw]]. exists w. split.
    + by apply list_elem_of_In.
    + by apply contains_spec.
Qed.

Lemma char_in_spec (s : str) (c : char) : char_in s c = true ↔ c ∈ s.
Proof.
  unfold char_in. rewrite existsb_exists. split.
  - intros [d [Hin ->%N.eqb_eq]]. by apply list_elem_of_In.
  - intros Hin. exists c. split; [by apply list_elem_of_In | apply N.eqb_refl].
Qed.

Lemma char_in_false (s : str) (c : char) : char_in s c = false → c ∉ s.
Proof. rewrite <- char_in_spec. by intros ->. Qed.

Lemma ascii_text_cons (c : char) (s : str) :
  ascii_text (c :: s) ↔ is_ascii c = true ∧ ascii_text s.
Proof. unfold ascii_text. simpl. apply andb_true_iff. Qed.

Ltac ascii_split :=
  repeat match goal with
  | Hs : ascii_text (_ :: _) |- _ => apply ascii_text_cons in Hs as [? Hs]
  end.

(** On ASCII text every interpreter lowers alike. *)
Lemma lower_lit `{CPython} (s : str) :
  ascii_text s → lower s = @lower ascii_only s.
Proof. apply lower_ascii. Qed.

(** ** The fallback classifier *)

Lemma fallback_category_first `{CPython} (prompt : str) :
  fallback_category prompt = first_category (lower prompt).
Proof.
  unfold fallback_category, first_category, keyword_sets. cbn [find snd fst].
  repeat (destruct (any_in _ (lower prompt)); [reflexivity|]).
  reflexivity.
Qed.

Lemma fallback_category_ascii `{CPython} (prompt : str) :
  ascii_text prompt → fallback_category prompt = @fallback_category ascii_only prompt.
Proof. intros Hp. unfold fallback_category. by rewrite lower_lit. Qed.

(** C4. The fallback classifier gives every prompt one of the four
    categories: the first of freelance, online, ecommerce, investment one
    of whose keywords occurs in the lowered prompt, and online when none
    occurs. The three prompts the specification names classify as
    freelance, investment and online. *)
Theorem fallback_category_priority `{CPython} :
  (∀ prompt,
     fallback_category prompt = first_category (lower prompt) ∧
     let text := lower prompt in
     (fallback_category prompt = freelance ↔ mentions freelance_words text) ∧
     (fallback_category prompt = online ↔
        ¬ mentions freelance_words text ∧
        (mentions online_words text ∨
         ¬ mentions ecommerce_words text ∧ ¬ mentions investment_words text)) ∧
     (fallback_category prompt = ecommerce ↔
        ¬ mentions freelance_words text ∧ ¬ mentions online_words text ∧
        mentions ecommerce_words text) ∧
     (fallback_category prompt = investment ↔
        ¬ mentions freelance_words text ∧ ¬ mentions online_words text ∧
        ¬ mentions ecommerce_words text ∧ mentions investment_words text)) ∧
  fallback_category (lit "I want to freelance write articles") = freelance ∧
  fallback_category (lit "invest in crypto") = investment ∧
  fallback_category (lit "random unrelated text") = online.
Proof.
  split.
  - intros prompt. split; [apply fallback_category_first|].
    cbv zeta. unfold fallback_category.
    rewrite <- !any_in_spec.
    destruct (any_in freelance_words _), (any_in online_words _),
      (any_in ecommerce_words _), (any_in investment_words _);
      intuition congruence.
  - repeat split; rewrite fallback_category_ascii by reflexivity;
      vm_compute; reflexivity.
Qed.

(** ** The earnings estimate *)

Lemma is_digit_ascii `{CPython} (d : char) :
  is_ascii d = true → is_digit d = @is_digit ascii_only d.
Proof. intros Hd. unfold is_digit. by rewrite decimal_ascii. Qed.

Lemma is_digit_dollar `{CPython} : is_digit DOLLAR = false.
Proof. by rewrite is_digit_ascii. Qed.

Lemma match_digits_ascii `{CPython} (s : str) :
  ascii_text s → match_digits s = @match_digits ascii_only s.
Proof.
  induction s as [|c s IH]; [done|].
  intros [Hc Hs]%ascii_text_cons. simpl.
  rewrite is_digit_ascii, IH by done. reflexivity.
Qed.

Lemma match_thousands_ascii `{CPython} (s : str) :
  ascii_text s → match_thousands s = @match_thousands ascii_only s.
Proof.
  induction s as [s IH] using (induction_ltof1 _ (@length _)).
  destruct s as [|c [|d1 [|d2 [|d3 r]]]]; try done.
  intros Hs. ascii_split.
  cbn [match_thousands].
  rewrite (is_digit_ascii d1), (is_digit_ascii d2), (is_digit_ascii d3) by done.
  rewrite IH; [done | unfold ltof; simpl; lia | done].
Qed.

Lemma match_cents_ascii `{CPython} (s : str) :
  ascii_text s → match_cents s = @match_cents ascii_only s.
Proof.
  destruct s as [|c [|d1 [|d2 r]]]; try done.
  intros Hs. ascii_split. unfold match_cents.
  by rewrite (is_digit_ascii d1), (is_digit_ascii d2) by done.
Qed.

Lemma ascii_text_drop (n : nat) (s : str) : ascii_text s → ascii_text (drop n s).
Proof.
  revert n. induction s as [|c s IH]; intros [|n] Hs; try done.
  simpl. apply IH. by ascii_split.
Qed.

Lemma match_amount_ascii `{CPython} (s : str) :
  ascii_text s → match_amount s = @match_amount ascii_only s.
Proof.
  intros Hs. unfold match_amount.
  rewrite match_digits_ascii by done.
  destruct (@match_digits ascii_only s) as [|d ds]; [done|].
  cbv zeta.
  rewrite match_thousands_ascii by (by apply ascii_text_drop).
  rewrite match_cents_ascii by (by do 2 apply ascii_text_drop).
  reflexivity.
Qed.

Lemma findall_amounts_from_ascii `{CPython} (skip : nat) (s : str) :
  ascii_text s →
  findall_amounts_from skip s = @findall_amounts_from ascii_only skip s.
Proof.
  revert skip. induction s as [|c s IH]; intros skip Hs; [done|].
  ascii_split. destruct skip as [|k]; simpl; [|by apply IH].
  rewrite match_amount_ascii by done.
  destruct (c =? DOLLAR)%N; [|by apply IH].
  destruct (@match_amount ascii_only s); [|by apply IH].
  f_equal. by apply IH.
Qed.

(** On an ASCII prompt the estimate is the one computed with the ASCII
    tables. *)
Lemma estimate_earnings_ascii `{CPython} (prompt strategy : str) :
  ascii_text prompt →
  estimate_earnings prompt strategy = @estimate_earnings ascii_only prompt strategy.
Proof.
  intros Hp. unfold estimate_earnings, findall_amounts.
  by rewrite findall_amounts_from_ascii, lower_lit.
Qed.

Lemma match_digits_prefix `{CPython} (s : str) :
  s = match_digits s ++ drop (length (match_digits s)) s.
Proof.
  induction s as [|c s IH]; simpl; [done|].
  destruct (is_digit c); simpl; [by f_equal | done].
Qed.

Lemma match_thousands_prefix `{CPython} (s : str) :
  s = match_thousands s ++ drop (length (match_thousands s)) s.
Proof.
  induction s as [s IH] using (induction_ltof1 _ (@length _)).
  destruct s as [|c [|d1 [|d2 [|d3 r]]]]; try done.
  cbn [match_thousands]. destruct (_ && _); [|done].
  cbn [length drop app]. do 4 f_equal. apply IH. unfold ltof. simpl. lia.
Qed.

Lemma match_cents_prefix `{CPython} (s : str) :
  s = match_cents s ++ drop (length (match_cents s)) s.
Proof.
  destruct s as [|c [|d1 [|d2 r]]]; try done.
  unfold match_cents. by destruct (_ && _).
Qed.


Lemma match_amount_is_Some `{CPython} (s : str) :
  is_Some (match_amount s) ↔ ∃ d r, s = d :: r ∧ is_digit d = true.
Proof.
  unfold match_amount. split.
  - intros [m Hm]. destruct s as [|d r]; [done|].
    exists d, r. split; [done|]. simpl in Hm. by destruct (is_digit d).
  - intros (d & r & -> & Hd). simpl. rewrite Hd. eauto.
Qed.

Lemma has_amount_cons `{CPython} (c : char) (s : str) :
  has_amount (c :: s) ↔
  (c = DOLLAR ∧ is_Some (match_amount s)) ∨ has_amount s.
Proof.
  unfold has_amount. rewrite match_amount_is_Some. split.
  - intros ([|c' before] & d & after & Heq & Hd); injection Heq as -> ->.
    + left. eauto.
    + right. eauto.
  - intros [[-> (d & r & -> & Hd)] | (before & d & after & -> & Hd)].
    + by exists [], d, r.
    + by exists (c :: before), d, after.
Qed.

Lemma has_amount_nil `{CPython} : ¬ has_amount [].
Proof. intros ([|? ?] & d & after & Heq & _); discriminate. Qed.

Lemma findall_amounts_cons `{CPython} (c : char) (s : str) :
  findall_amounts (c :: s) =
  if (c =? DOLLAR)%N then
    match match_amount s with
    | Some m => m :: findall_amounts_from (length m) s
    | None => findall_amounts s
    end
  else findall_amounts s.
Proof. reflexivity. Qed.

(** [re.findall] finds nothing exactly when no dollar sign has a digit
    behind it. *)
Lemma findall_amounts_nil `{CPython} (s : str) :
  findall_amounts s = [] ↔ ¬ has_amount s.
Proof.
  induction s as [|c s IH].
  - split; [intros _; apply has_amount_nil | done].
  - rewrite findall_amounts_cons, has_amount_cons.
    destruct (N.eqb_spec c DOLLAR) as [->|Hc].
    + destruct (match_amount s) as [m|] eqn:Hm.
      * split; [done | intros Hn; destruct Hn; left; eauto].
      * rewrite IH. split.
        -- intros Hn [[_ [m Hs]] | Hs]; [discriminate | done].
        -- intros Hn Hs. apply Hn. by right.
    + rewrite IH. split.
      * intros Hn [[Heq _] | Hs]; done.
      * intros Hn Hs. apply Hn. by right.
Qed.

(** The first match starts at the leftmost dollar sign that a digit
    follows. *)
Lemma findall_amounts_first `{CPython} (before rest m : str) :
  ¬ has_amount (before ++ [DOLLAR]) →
  match_amount rest = Some m →
  findall_amounts (before ++ DOLLAR :: rest)
  = m :: findall_amounts_from (length m) rest.
Proof.
  intros Hno Hm. induction before as [|c before IH].
  - simpl. rewrite findall_amounts_cons, N.eqb_refl. by rewrite Hm.
  - simpl in *. rewrite has_amount_cons in Hno.
    rewrite findall_amounts_cons.
    assert (findall_amounts (before ++ DOLLAR :: rest)
            = m :: findall_amounts_from (length m) rest) as IH'.
    { apply IH. intros Hs. apply Hno. by right. }
    destruct (N.eqb_spec c DOLLAR) as [->|Hc]; [|done].
    destruct (match_amount (before ++ DOLLAR :: rest)) as [m'|] eqn:Hm'; [|done].
    exfalso. apply Hno. left. split; [done|].
    apply match_amount_is_Some.
    assert (is_Some (match_amount (before ++ DOLLAR :: rest))) as Hs by eauto.
    apply match_amount_is_Some in Hs as (d & r & Heq & Hd).
    destruct before as [|d' before'].
    + injection Heq as <- <-. rewrite is_digit_dollar in Hd. discriminate.
    + injection Heq as <- <-. eauto.
Qed.

(** Where the text has an amount, it has a leftmost one. *)
Lemma has_amount_leftmost `{CPython} (s : str) :
  has_amount s →
  ∃ before rest m, s = before ++ DOLLAR :: rest ∧
    ¬ has_amount (before ++ [DOLLAR]) ∧ match_amount rest = Some m.
Proof.
  induction s as [|c s IH]; [intros Hs; by apply has_amount_nil in Hs|].
  intros Hs.
  destruct (decide (c = DOLLAR ∧ is_Some (match_amount s))) as [[-> [m Hm]]|Hn].
  - exists [], s, m. repeat split; [|done].
    simpl. rewrite has_amount_cons. intros [[_ [m' Hm']] | Hnil].
    + discriminate.
    + by apply has_amount_nil in Hnil.
  - apply has_amount_cons in Hs as [Hs | Hs]; [done|].
    destruct (IH Hs) as (before & rest & m & -> & Hno & Hm).
    exists (c :: before), rest, m. repeat split; [|done].
    simpl. rewrite has_amount_cons. intros [[-> Hsome] | Hb]; [|done].
    apply Hn. split; [done|].
    apply match_amount_is_Some in Hsome as (d & r & Heq & Hd).
    apply match_amount_is_Some. destruct before as [|d' before'].
    + injection Heq as <- <-. rewrite is_digit_dollar in Hd. discriminate.
    + injection Heq as <- <-. simpl. eauto.
Qed.

Lemma estimate_earnings_amount `{CPython} (prompt strategy first : str) (rest : list str) :
  findall_amounts prompt = first :: rest →
  estimate_earnings prompt strategy = as_specified first.
Proof. unfold estimate_earnings. by intros ->. Qed.

Lemma estimate_earnings_keywords `{CPython} (prompt strategy : str) :
  findall_amounts prompt = [] →
  estimate_earnings prompt strategy =
    if any_in day_words (lower prompt) then short_term
    else if any_in week_words (lower prompt) then weekly_potential
    else if any_in month_words (lower prompt) then monthly_potential
    else typical_range.
Proof. unfold estimate_earnings. by intros ->. Qed.

(** *** The pattern, part by part *)

Lemma is_digit_comma `{CPython} : is_digit COMMA = false.
Proof. by rewrite is_digit_ascii. Qed.

Lemma is_digit_dot `{CPython} : is_digit DOT = false.
Proof. by rewrite is_digit_ascii. Qed.

(** The run of digits ends where the first code point that is no digit
    stands. *)
Lemma match_digits_app `{CPython} (w rest : str) :
  all_digits w → (∀ c r, rest = c :: r → is_digit c = false) →
  match_digits (w ++ rest) = w.
Proof.
  intros Hw Hrest. induction Hw as [|c w Hc _ IH]; simpl.
  - destruct rest as [|c r]; [done|]. simpl. by rewrite (Hrest c r).
  - by rewrite Hc, IH.
Qed.

Lemma match_digits_spec `{CPython} (s : str) :
  all_digits (match_digits s) ∧
  ∀ c r, drop (length (match_digits s)) s = c :: r → is_digit c = false.
Proof.
  induction s as [|c s [IH1 IH2]]; simpl.
  - split; [constructor | done].
  - destruct (is_digit c) eqn:Hc; simpl.
    + split; [by constructor | done].
    + split; [constructor|]. by intros c' r [= <- _].
Qed.

Lemma begins_with_cons `{CPython} (c x : char) (n : nat) (s : str) :
  begins_with c n (x :: s) ↔
  x = c ∧ ∃ ds rest, s = ds ++ rest ∧ length ds = n ∧ all_digits ds.
Proof.
  unfold begins_with. split.
  - intros (ds & rest & [= -> ->] & Hlen & Hds). split; [done|]. by exists ds, rest.
  - intros [-> (ds & rest & -> & Hlen & Hds)]. by exists ds, rest.
Qed.

(** A comma and three digits. *)
Lemma begins_with_comma `{CPython} (c d1 d2 d3 : char) (r : str) :
  (c =? COMMA)%N && is_digit d1 && is_digit d2 && is_digit d3 = true ↔
  begins_with COMMA 3 (c :: d1 :: d2 :: d3 :: r).
Proof.
  rewrite begins_with_cons. split.
  - intros Hg. apply andb_prop in Hg as [Hg H3]. apply andb_prop in Hg as [Hg H2].
    apply andb_prop in Hg as [Hc H1]. apply N.eqb_eq in Hc.
    split; [done|]. exists [d1; d2; d3], r. split; [done|]. split; [done|].
    by repeat constructor.
  - intros [-> (ds & rest & Heq & Hlen & Hds)].
    destruct ds as [|x1 [|x2 [|x3 [|]]]]; try done.
    injection Heq as <- <- <- _.
    apply Forall_cons in Hds as [-> Hds]. apply Forall_cons in Hds as [-> Hds].
    apply Forall_cons in Hds as [-> _]. by rewrite N.eqb_refl.
Qed.

Lemma begins_with_short `{CPython} (c : char) (n : nat) (s : str) :
  length s ≤ n → ¬ begins_with c n s.
Proof.
  intros Hlen (ds & rest & -> & Hn & _). simpl in Hlen. rewrite length_app in Hlen. lia.
Qed.

Lemma match_thousands_app `{CPython} (gs : list str) (rest : str) :
  Forall (λ g, length g = 3 ∧ all_digits g) gs →
  ¬ begins_with COMMA 3 rest →
  match_thousands (flat_map (λ g, COMMA :: g) gs ++ rest)
  = flat_map (λ g, COMMA :: g) gs.
Proof.
  intros Hgs Hrest. induction Hgs as [|g gs [Hlen Hg] _ IH]; cbn [flat_map app].
  - destruct rest as [|c [|d1 [|d2 [|d3 r]]]]; try done.
    cbn [match_thousands].
    destruct (_ && _) eqn:Hgroup; [|done].
    by apply (begins_with_comma c d1 d2 d3 r) in Hgroup.
  - destruct g as [|d1 [|d2 [|d3 [|]]]]; try done.
    apply Forall_cons in Hg as [H1 Hg]. apply Forall_cons in Hg as [H2 Hg].
    apply Forall_cons in Hg as [H3 _].
    cbn [app match_thousands]. rewrite N.eqb_refl, H1, H2, H3. cbn [andb].
    by rewrite IH.
Qed.

Lemma match_thousands_spec `{CPython} (s : str) :
  ∃ gs,
    match_thousands s = flat_map (λ g, COMMA :: g) gs ∧
    Forall (λ g, length g = 3 ∧ all_digits g) gs ∧
    ¬ begins_with COMMA 3 (drop (length (match_thousands s)) s).
Proof.
  induction s as [s IH] using (induction_ltof1 _ (@length _)).
  destruct s as [|c [|d1 [|d2 [|d3 r]]]].
  1-4: exists []; split; [done|]; split; [constructor|];
       apply begins_with_short; simpl; lia.
  cbn [match_thousands].
  destruct ((c =? COMMA)%N && is_digit d1 && is_digit d2 && is_digit d3) eqn:Hgroup.
  - destruct (IH r) as (gs & Hgs & Hall & Hrest); [unfold ltof; simpl; lia|].
    apply andb_prop in Hgroup as [Hgroup H3]. apply andb_prop in Hgroup as [Hgroup H2].
    apply andb_prop in Hgroup as [Hc H1]. apply N.eqb_eq in Hc as ->.
    exists ([d1; d2; d3] :: gs). split; [by rewrite Hgs|]. split; [|done].
    constructor; [|done]. split; [done|]. by repeat constructor.
  - exists []. split; [done|]. split; [constructor|]. cbn [length drop].
    intros Hb. apply begins_with_comma in Hb. congruence.
Qed.

Lemma match_cents_Some `{CPython} (c after : str) :
  length c = 2 → all_digits c → match_cents (DOT :: c ++ after) = DOT :: c.
Proof.
  intros Hlen Hc. destruct c as [|d1 [|d2 [|]]]; try done.
  apply Forall_cons in Hc as [H1 Hc]. apply Forall_cons in Hc as [H2 _].
  cbn [app match_cents]. by rewrite N.eqb_refl, H1, H2.
Qed.

Lemma match_cents_spec `{CPython} (s : str) :
  (match_cents s = [] ∧ ¬ begins_with DOT 2 s) ∨
  (∃ c, match_cents s = DOT :: c ∧ length c = 2 ∧ all_digits c).
Proof.
  destruct s as [|x [|d1 [|d2 r]]].
  1-3: left; split; [done|]; apply begins_with_short; simpl; lia.
  cbn [match_cents].
  destruct ((x =? DOT)%N && is_digit d1 && is_digit d2) eqn:Hgroup.
  - apply andb_prop in Hgroup as [Hgroup H2]. apply andb_prop in Hgroup as [Hx H1].
    apply N.eqb_eq in Hx as ->. right. exists [d1; d2].
    split; [done|]. split; [done|]. by repeat constructor.
  - left. split; [done|]. rewrite begins_with_cons.
    intros [-> (ds & rest & Heq & Hlen & Hds)].
    destruct ds as [|x1 [|x2 [|]]]; try done. injection Heq as <- <- _.
    apply Forall_cons in Hds as [H1 Hds]. apply Forall_cons in Hds as [H2 _].
    by rewrite N.eqb_refl, H1, H2 in Hgroup.
Qed.

(** The pattern matches an amount that takes in all the text offers, and
    nothing else. *)
Lemma match_amount_written `{CPython} (a : amount) (after : str) :
  valid_amount a → longest a after →
  match_amount (written a ++ after) = Some (written a).
Proof.
  destruct a as [w gs cs]. unfold valid_amount, longest, written.
  cbn [amount_whole amount_thousands amount_cents].
  intros (Hne & Hw & Hgs & Hcs) Hlong.
  set (cents := match cs with Some c => DOT :: c | None => [] end) in *.
  set (groups := flat_map (λ g : list char, COMMA :: g) gs) in *.
  assert (¬ begins_with COMMA 3 (cents ++ after)) as Hgroups.
  { destruct cs as [c|]; [|by destruct Hlong].
    unfold cents. cbn [app]. rewrite begins_with_cons. by intros [? _]. }
  assert (match_cents (cents ++ after) = cents) as Hcents.
  { destruct cs as [c|]; unfold cents.
    - destruct Hcs. by apply match_cents_Some.
    - destruct Hlong as (_ & Hdot & _). cbn [app].
      destruct (match_cents_spec after) as [[-> _]|(c & Hc & Hlen & Hdig)]; [done|].
      destruct Hdot. exists c, (drop (length (match_cents after)) after).
      split; [|done]. rewrite (match_cents_prefix after) at 1. by rewrite Hc. }
  assert (match_digits (w ++ groups ++ cents ++ after) = w) as Hdigits.
  { apply match_digits_app; [done|]. intros c r Heq.
    destruct gs as [|g gs]; unfold groups in Heq; cbn [flat_map app] in Heq.
    - destruct cs as [c'|]; unfold cents in Heq; cbn [app] in Heq.
      + injection Heq as <- _. apply is_digit_dot.
      + destruct Hlong as (_ & _ & Hafter). by apply (Hafter eq_refl c r).
    - injection Heq as <- _. apply is_digit_comma. }
  unfold match_amount. rewrite <- !app_assoc, Hdigits.
  destruct w as [|d w]; [done|].
  rewrite drop_app_length. subst groups.
  rewrite match_thousands_app by done.
  rewrite drop_app_length, Hcents. done.
Qed.

Lemma match_amount_shape `{CPython} (s m : str) :
  match_amount s = Some m →
  ∃ a after, valid_amount a ∧ m = written a ∧ s = m ++ after ∧ longest a after.
Proof.
  unfold match_amount. intros Hm.
  destruct (match_digits_spec s) as [Hw Hstop].
  pose proof (match_digits_prefix s) as Hs.
  set (w := match_digits s) in *. set (s1 := drop (length w) s) in *.
  destruct (match_thousands_spec s1) as (gs & Hgs & Hall & Hnext).
  pose proof (match_thousands_prefix s1) as Hs1.
  set (s2 := drop (length (match_thousands s1)) s1) in *.
  pose proof (match_cents_prefix s2) as Hs2.
  assert (w ≠ [] ∧ m = w ++ match_thousands s1 ++ match_cents s2) as [Hne ->].
  { destruct w; [done|]. split; [done | by injection Hm]. }
  destruct (match_cents_spec s2) as [[Hc Hdot]|(c & Hc & Hlen & Hdigits)].
  - exists (Amount w gs None), s2. unfold valid_amount, written, longest.
    cbn [amount_whole amount_thousands amount_cents].
    rewrite Hc, <- Hgs, !app_nil_r. split; [done|]. split; [done|]. split.
    + rewrite <- app_assoc, <- Hs1. exact Hs.
    + split; [done|]. split; [done|]. intros -> c r Heq.
      apply (Hstop c r). rewrite Hs1. rewrite Hgs. cbn [flat_map app]. done.
  - exists (Amount w gs (Some c)), (drop (length (match_cents s2)) s2).
    unfold valid_amount, written, longest.
    cbn [amount_whole amount_thousands amount_cents].
    rewrite Hc, <- Hgs. split; [done|]. split; [done|]. split; [|done].
    rewrite <- !app_assoc. rewrite <- Hc, <- Hs2, <- Hs1. exact Hs.
Qed.

(** Removing the commas leaves the digits and the cents. *)
Lemma remove_char_written `{CPython} (a : amount) :
  valid_amount a → remove_char COMMA (written a) = without_commas a.
Proof.
  assert (∀ l : str, all_digits l → remove_char COMMA l = l) as Hkeep.
  { intros l Hl. unfold remove_char, str, char in *.
    induction Hl as [|c l Hc _ IH]; [done|].
    rewrite filter_cons_True; [by rewrite IH|].
    intros ->. by rewrite is_digit_comma in Hc. }
  destruct a as [w gs cs]. unfold valid_amount, written, without_commas.
  cbn [amount_whole amount_thousands amount_cents].
  intros (_ & Hw & Hgs & Hcs).
  assert (∀ x y : str, remove_char COMMA (x ++ y)
                       = remove_char COMMA x ++ remove_char COMMA y) as Happ.
  { intros x y. unfold remove_char, str, char in *. apply filter_app. }
  rewrite !Happ, (Hkeep w Hw). f_equal. f_equal.
  - induction Hgs as [|g gs [_ Hg] _ IH]; [done|].
    cbn [flat_map concat].
    rewrite Happ. change (COMMA :: g) with ([COMMA] ++ g).
    rewrite Happ, (Hkeep g Hg), IH. done.
  - destruct cs as [c|]; [|done]. destruct Hcs as [_ Hc].
    change (DOT :: c) with ([DOT] ++ c). by rewrite Happ, (Hkeep c Hc).
Qed.

(** C5. Where the prompt holds a dollar amount (digits, thousands behind
    commas, cents behind a dot), [estimate_earnings] returns the first one,
    taken as far as it goes, without its commas and labelled as specified,
    whatever temporal keyword the prompt holds besides; a prompt in which a
    digit follows a dollar sign has such an amount. Otherwise it returns one
    of four fixed texts, chosen by the keywords for a day, then a week, then
    a month, else the typical range. The two prompts the specification names
    yield the $1500 target and the weekly range. *)
Theorem estimate_earnings_spec `{CPython} :
  (∀ prompt strategy,
     (∀ a, first_amount prompt a →
        estimate_earnings prompt strategy
        = lit "Target: $" ++ without_commas a ++ lit " (as specified)") ∧
     (has_amount prompt → ∃ a, first_amount prompt a) ∧
     (¬ has_amount prompt →
        let text := lower prompt in
        (mentions day_words text →
           estimate_earnings prompt strategy = short_term) ∧
        (¬ mentions day_words text → mentions week_words text →
           estimate_earnings prompt strategy = weekly_potential) ∧
        (¬ mentions day_words text → ¬ mentions week_words text →
           mentions month_words text →
           estimate_earnings prompt strategy = monthly_potential) ∧
        (¬ mentions day_words text → ¬ mentions week_words text →
           ¬ mentions month_words text →
           estimate_earnings prompt strategy = typical_range))) ∧
  estimate_earnings (lit "Earn me $1,500 today") [] = lit "Target: $1500 (as specified)" ∧
  estimate_earnings (lit "Help me earn money this week") [] = lit "$200-1000 (weekly potential)".
Proof.
  split; [intros prompt strategy; split; [|split]|].
  - intros a (Hvalid & before & after & -> & Hno & Hlong).
    rewrite (estimate_earnings_amount _ _ (written a)
               (findall_amounts_from (length (written a)) (written a ++ after))).
    + unfold as_specified. by rewrite remove_char_written.
    + apply findall_amounts_first; [done|]. by apply match_amount_written.
  - intros Hs. destruct (has_amount_leftmost prompt Hs) as (before & rest & m & -> & Hno & Hm).
    destruct (match_amount_shape rest m Hm) as (a & after & Hvalid & -> & -> & Hlong).
    exists a. split; [done|]. by exists before, after.
  - intros Hn. apply findall_amounts_nil in Hn.
    cbv zeta. rewrite (estimate_earnings_keywords _ _ Hn).
    rewrite <- !any_in_spec.
    destruct (any_in day_words _), (any_in week_words _), (any_in month_words _);
      repeat split; intros; try done; exfalso; auto.
  - split; rewrite estimate_earnings_ascii by reflexivity;
      vm_compute; reflexivity.
Qed.

(** C10. [estimate_earnings] does not read its second argument: two
    strategy texts give the same estimate for the same prompt, and the
    estimate a chat response carries is the estimate of the prompt alone. *)
Theorem estimate_earnings_ignores_strategy `{CPython} :
  (∀ prompt s1 s2, estimate_earnings prompt s1 = estimate_earnings prompt s2) ∧
  (∀ env ai_engine d request r d',
     chat_completions env ai_engine d request = (Http200 r, d') →
     estimated_earnings r = estimate_earnings (request_prompt request) []).
Proof.
  split.
  - intros prompt s1 s2. unfold estimate_earnings. reflexivity.
  - intros env ai_engine d request r d'. unfold chat_completions.
    destruct (noted_strategy env ai_engine d request) as [strategy|e]; [|discriminate].
    destruct (save_conversation _ _ _ _ _ _) as [[id|e1] d1]; simpl.
    + intros [= <- _]. reflexivity.
    + discriminate.
Qed.

(** ** The fallback generator *)

Lemma generate_money_strategy_fallback `{CPython} (self : AIEngine) (prompt : str) :
  primary_path_succeeded self prompt = false →
  generate_money_strategy self prompt = generate_fallback_strategy self prompt.
Proof.
  unfold primary_path_succeeded, generate_money_strategy.
  destruct (generator self) as [g|]; [|done].
  destruct (tokenizer self); simpl; [|done].
  by destruct (g (enhanced_prompt prompt)).
Qed.

(** C3. The fallback generator is a function of the prompt alone: the state
    of the engine does not enter it, so two evaluations on one prompt give
    the same text and the same bytes; the text is the fixed header, the
    prompt, the plan of the category and the fixed footer; the category is a
    function of the lowered prompt; every plan has seven numbered steps; and
    whenever the model's path does not succeed, the strategy is that text. *)
Theorem fallback_strategy_deterministic `{CPython} :
  (∀ e1 e2 prompt,
     generate_fallback_strategy e1 prompt = generate_fallback_strategy e2 prompt ∧
     encode (generate_fallback_strategy e1 prompt)
     = encode (generate_fallback_strategy e2 prompt)) ∧
  (∀ self prompt,
     generate_fallback_strategy self prompt
     = fallback_header ++ prompt ++ [42; 42; LF; LF]%N
       ++ strategies (fallback_category prompt) ++ fallback_footer) ∧
  (∀ p1 p2, lower p1 = lower p2 →
     fallback_category p1 = fallback_category p2 ∧
     strategies (fallback_category p1) = strategies (fallback_category p2)) ∧
  (∀ c, numbered_plan 7 (strategies c)) ∧
  (∀ e1 e2 prompt,
     primary_path_succeeded e1 prompt = false →
     primary_path_succeeded e2 prompt = false →
     generate_money_strategy e1 prompt = generate_money_strategy e2 prompt).
Proof.
  split; [|split; [|split; [|split]]].
  - intros e1 e2 prompt. split; reflexivity.
  - intros self prompt. reflexivity.
  - intros p1 p2 Hlow. unfold fallback_category. by rewrite Hlow.
  - intros c. unfold numbered_plan. destruct c.
    + exists (map lit [
        "Create profiles on Upwork, Fiverr, and Freelancer";
        "Identify your core skills (writing, design, programming, etc.)";
        "Start with competitive pricing to build reviews";
        "Focus on quick turnaround projects initially";
        "Gradually increase rates as you build reputation";
        "Aim for $20-50/hour within first month";
        "Scale by offering package deals and retainer clients"]%string).
      split; [done|]. split; [|vm_compute; reflexivity].
      repeat constructor; by apply char_in_false.
    + exists (map lit [
        "Choose a profitable niche (health, finance, tech)";
        "Create valuable content (blog, YouTube, social media)";
        "Build an email list of potential customers";
        "Develop digital products (courses, ebooks, tools)";
        "Use affiliate marketing for passive income";
        "Monetize through ads, sponsorships, and partnerships";
        "Scale with automation and outsourcing"]%string).
      split; [done|]. split; [|vm_compute; reflexivity].
      repeat constructor; by apply char_in_false.
    + exists (map lit [
        "Research trending products with low competition";
        "Find reliable suppliers (Alibaba, local manufacturers)";
        "Create an online store (Shopify, Amazon FBA)";
        "Optimize product listings with SEO";
        "Run targeted social media ads";
        "Focus on customer service and reviews";
        "Expand product line based on successful items"]%string).
      split; [done|]. split; [|vm_compute; reflexivity].
      repeat constructor; by apply char_in_false.
    + exists (map lit [
        "Start with index funds for stable growth";
        "Learn about dividend stocks for passive income";
        "Consider REITs for real estate exposure";
        "Use dollar-cost averaging for consistent investing";
        "Keep emergency fund of 3-6 months expenses";
        "Diversify across asset classes and sectors";
        "Reinvest profits to compound returns"]%string).
      split; [done|]. split; [|vm_compute; reflexivity].
      repeat constructor; by apply char_in_false.
  - intros e1 e2 prompt H1 H2.
    by rewrite !generate_money_strategy_fallback.
Qed.

(** ** The suggested actions *)

(** The loop appends, in order, the cleaned texts that are long enough of
    the trimmed lines that start with a marker. *)
Lemma foldl_extract_step (lines : list str) (actions : list str) :
  foldl extract_step actions lines
  = actions ++ List.filter long_enough
                 (map clean_action (List.filter has_action_prefix (map strip lines))).
Proof.
  revert actions. induction lines as [|line lines IH]; intros actions; simpl.
  - by rewrite app_nil_r.
  - rewrite IH. unfold extract_step.
    destruct (has_action_prefix (strip line)); [|done]. simpl.
    destruct (long_enough (clean_action (strip line))); [|done].
    by rewrite <- app_assoc.
Qed.

Lemma split_char_no_sep (sep : char) (s : str) :
  sep ∉ s → split_char sep s = [s].
Proof.
  induction s as [|c s IH]; [done|].
  intros Hs. apply not_elem_of_cons in Hs as [Hc Hs]. simpl.
  destruct (N.eqb_spec c sep) as [->|_]; [done|]. by rewrite IH.
Qed.

Lemma split_char_app (sep : char) (s rest : str) :
  sep ∉ s → split_char sep (s ++ sep :: rest) = s :: split_char sep rest.
Proof.
  induction s as [|c s IH]; intros Hs; simpl.
  - by rewrite N.eqb_refl.
  - apply not_elem_of_cons in Hs as [Hc Hs].
    destruct (N.eqb_spec c sep) as [->|_]; [done|]. by rewrite IH.
Qed.

(** Lines without a line break, joined by line breaks, split back into
    themselves. *)
Lemma split_char_join (sep : char) (lines : list str) :
  lines ≠ [] → Forall (λ l, sep ∉ l) lines →
  split_char sep (join [sep] lines) = lines.
Proof.
  induction lines as [|l lines IH]; [done|].
  intros _ Hall. apply Forall_cons in Hall as [Hl Hall].
  destruct lines as [|l' lines].
  - simpl. by apply split_char_no_sep.
  - change (join [sep] (l :: l' :: lines)) with (l ++ sep :: join [sep] (l' :: lines)).
    rewrite split_char_app by done. f_equal. by apply IH.
Qed.

Lemma drop_while_stop (p : char → bool) (c : char) (s : str) :
  p c = false → drop_while p (c :: s) = c :: s.
Proof. intros Hc. simpl. by rewrite Hc. Qed.

(** [strip] leaves a text that has no blank at either end. *)
Lemma strip_no_blank (c e : char) (middle : str) :
  is_space c = false → is_space e = false →
  strip (c :: middle ++ [e]) = c :: middle ++ [e].
Proof.
  intros Hc He. unfold strip, lstrip_with, rstrip_with.
  rewrite drop_while_stop by done.
  change (c :: middle ++ [e]) with ((c :: middle) ++ [e]).
  rewrite rev_unit, drop_while_stop by done.
  rewrite <- rev_unit. apply rev_involutive.
Qed.

(** What [lstrip] removes: the characters of the markers, and the space. *)
Lemma action_strip_chars_spec (c : char) :
  char_in action_strip_chars c = char_in marker_chars c || (c =? 32)%N.
Proof.
  unfold char_in. change action_strip_chars with (marker_chars ++ [32%N]).
  rewrite existsb_app. f_equal. simpl. apply orb_false_r.
Qed.

Lemma is_space_32 (c : char) : is_space c = false → (c =? 32)%N = false.
Proof.
  intros Hc. destruct (N.eqb_spec c 32) as [->|]; [|done]. by vm_compute in Hc.
Qed.

(** The line [k. b] for a digit [k] and a clean text [b]: trimming leaves
    it, and cleaning it gives [b]. *)
Lemma numbered_line_clean (k : char) (b : str) :
  between 49 57 k = true → clean_text b →
  strip (k :: lit ". " ++ b) = k :: lit ". " ++ b ∧
  clean_action (k :: lit ". " ++ b) = b.
Proof.
  intros Hk (c & middle & e & -> & _ & Hc & Hsp & He).
  assert (char_in action_strip_chars c = false) as Hc'.
  { by rewrite action_strip_chars_spec, Hc, is_space_32. }
  clear Hc. rename Hc' into Hc.
  assert (is_space k = false ∧ char_in action_strip_chars k = true) as [Hks Hkc].
  { unfold between in Hk. apply andb_prop in Hk as [Hlo Hhi].
    apply N.leb_le in Hlo, Hhi.
    assert (k = 49 ∨ k = 50 ∨ k = 51 ∨ k = 52 ∨ k = 53 ∨ k = 54 ∨ k = 55
            ∨ k = 56 ∨ k = 57)%N as Hcases by lia.
    destruct Hcases as [->|[->|[->|[->|[->|[->|[->|[->| ->]]]]]]]]; by split. }
  split.
  - change (k :: lit ". " ++ c :: middle ++ [e])
      with (k :: (lit ". " ++ c :: middle) ++ [e]).
    by apply strip_no_blank.
  - unfold clean_action, lstrip_chars, lstrip_with.
    change (k :: lit ". " ++ c :: middle ++ [e])
      with (k :: 46%N :: 32%N :: c :: middle ++ [e]).
    cbn [drop_while]. rewrite Hkc.
    change (char_in action_strip_chars 46%N) with true.
    change (char_in action_strip_chars 32%N) with true.
    cbv iota. rewrite Hc. by apply strip_no_blank.
Qed.

Lemma clean_text_long_enough (b : str) :
  clean_text b → 10 < length b → long_enough b = true.
Proof.
  intros (c & middle & e & -> & _) Hlen. unfold long_enough.
  by apply Nat.ltb_lt.
Qed.

(** A line numbered 1 to 5 with a clean text of more than 10 characters is
    kept, without its number. *)
Lemma extract_step_kept (actions : list str) (k : char) (b : str) :
  between 49 53 k = true → clean_text b → 10 < length b →
  extract_step actions (k :: lit ". " ++ b) = actions ++ [b].
Proof.
  intros Hk Hb Hlen. unfold extract_step.
  assert (between 49 57 k = true) as Hk'.
  { unfold between in *. apply andb_prop in Hk as [Hlo Hhi].
    apply N.leb_le in Hlo, Hhi. apply andb_true_intro.
    split; apply N.leb_le; lia. }
  destruct (numbered_line_clean k b Hk' Hb) as [-> ->].
  rewrite (clean_text_long_enough b Hb Hlen).
  assert (has_action_prefix (k :: lit ". " ++ b) = true) as ->; [|done].
  unfold between in Hk. apply andb_prop in Hk as [Hlo Hhi].
  apply N.leb_le in Hlo, Hhi.
  assert (k = 49 ∨ k = 50 ∨ k = 51 ∨ k = 52 ∨ k = 53)%N as Hcases by lia.
  destruct Hcases as [->|[->|[->|[->| ->]]]]; reflexivity.
Qed.

(** A line numbered 6 to 9 starts with no marker. *)
Lemma extract_step_skipped (actions : list str) (k : char) (b : str) :
  between 54 57 k = true → clean_text b →
  extract_step actions (k :: lit ". " ++ b) = actions.
Proof.
  intros Hk Hb. unfold extract_step.
  assert (between 49 57 k = true) as Hk'.
  { unfold between in *. apply andb_prop in Hk as [Hlo Hhi].
    apply N.leb_le in Hlo, Hhi. apply andb_true_intro.
    split; apply N.leb_le; lia. }
  destruct (numbered_line_clean k b Hk' Hb) as [-> _].
  assert (has_action_prefix (k :: lit ". " ++ b) = false) as ->; [|done].
  unfold between in Hk. apply andb_prop in Hk as [Hlo Hhi].
  apply N.leb_le in Hlo, Hhi.
  assert (k = 54 ∨ k = 55 ∨ k = 56 ∨ k = 57)%N as Hcases by lia.
  destruct Hcases as [->|[->|[->| ->]]]; reflexivity.
Qed.

Lemma clean_text_no_LF (b : str) : clean_text b → LF ∉ b.
Proof. by intros (c & middle & e & _ & Hlf & _). Qed.

Lemma numbered_line_no_LF (k : char) (b : str) :
  between 49 57 k = true → clean_text b → LF ∉ k :: lit ". " ++ b.
Proof.
  intros Hk Hb Hin. apply clean_text_no_LF in Hb.
  apply elem_of_cons in Hin as [Heq|Hin]; [by rewrite <- Heq in Hk|].
  apply elem_of_app in Hin as [Hin|Hin]; [|done].
  by apply (char_in_false (lit ". ") LF).
Qed.

(** ** The store *)

Lemma max_rowid_ge (t : gmap Z row) (k : Z) :
  is_Some (t !! k) → (k ≤ max_rowid t)%Z.
Proof.
  unfold max_rowid. revert k.
  apply (map_fold_weak_ind (λ r m, ∀ k, is_Some (m !! k) → (k ≤ r)%Z)).
  - intros k [x Hx]. by rewrite lookup_empty in Hx.
  - intros i x m r Hi IH k [y Hy].
    destruct (decide (i = k)) as [->|Hne]; [lia|].
    rewrite lookup_insert_ne in Hy by done.
    specialize (IH k (ex_intro _ y Hy)). lia.
Qed.

Lemma insert_or_replace_Ok (d d' : db) (h p r ts : str) (id : Z) :
  insert_or_replace d h p r ts = Ok (id, d') ↔
  id = (Z.max (max_rowid (conversations d)) (sequence d) + 1)%Z ∧
  (id ≤ int64_max)%Z ∧
  d' = Db (<[id := fresh_row h p r ts]>
             (filter (λ kv, row_prompt_hash kv.2 ≠ h) (conversations d))) id.
Proof.
  unfold insert_or_replace, fresh_row.
  destruct (Z.ltb_spec int64_max (Z.max (max_rowid (conversations d)) (sequence d) + 1)).
  - split; [done | intros (-> & Hle & _); lia].
  - split.
    + intros [= <- <-]. done.
    + intros (-> & _ & ->). done.
Qed.

(** The rowid an upsert takes is above every rowid of the table. *)
Lemma insert_or_replace_fresh (d d' : db) (h p r ts : str) (id : Z) :
  insert_or_replace d h p r ts = Ok (id, d') → conversations d !! id = None.
Proof.
  intros (-> & _ & _)%insert_or_replace_Ok.
  apply eq_None_not_Some. intros Hs%max_rowid_ge. lia.
Qed.

Ltac result_simpl :=
  unfold mbind, result_bind, mret, result_ret in *; simpl in *.

Lemma bind_text_Ok (s t : str) : bind_text s = Ok t ↔ encodable s ∧ t = s.
Proof.
  unfold bind_text, encodable. destruct (encode s) as [bytes|e]; result_simpl.
  - split; [intros [= <-]; eauto | by intros [_ ->]].
  - split; [done | by intros [[bytes Hb] _]].
Qed.

Lemma encode_ascii (s : str) : ascii_text s → encode s = Ok s.
Proof.
  induction s as [|c s IH]; [done|].
  intros Hs. ascii_split. simpl. unfold utf8_char.
  unfold is_ascii in *. rewrite H. result_simpl. by rewrite IH.
Qed.

(** What cannot be encoded raises [UnicodeEncodeError], nothing else. *)
Lemma encode_Raise (s : str) (e : exn) : encode s = Raise e → e = UnicodeEncodeError.
Proof.
  induction s as [|c s IH]; [done|]. simpl.
  destruct (utf8_char c) as [b|e'] eqn:Hc; result_simpl.
  - destruct (encode s) as [bs|e'']; result_simpl; [done|].
    intros [= <-]. by apply IH.
  - intros [= <-]. unfold utf8_char in Hc.
    repeat case_match; simplify_eq; done.
Qed.

Lemma encodable_cons (c : char) (s : str) :
  encodable (c :: s) ↔ encodable [c] ∧ encodable s.
Proof.
  unfold encodable. simpl.
  destruct (utf8_char c) as [b|e], (encode s) as [bs|e']; result_simpl;
    split; try (intros [? ?]; done); try (intros [[? ?] [? ?]]; done); eauto.
Qed.

Lemma encodable_app (a b : str) : encodable (a ++ b) ↔ encodable a ∧ encodable b.
Proof.
  induction a as [|c a IH]; simpl.
  - split; [intros Hb; split; [by exists [] | done] | by intros [_ Hb]].
  - rewrite (encodable_cons c (a ++ b)), (encodable_cons c a), IH. tauto.
Qed.



Lemma not_encodable (s : str) : ¬ encodable s → encode s = Raise UnicodeEncodeError.
Proof.
  intros Hs. destruct (encode s) as [bytes|e] eqn:He.
  - destruct Hs. by exists bytes.
  - by rewrite (encode_Raise s e He).
Qed.

Lemma le_bytes_lt (n : nat) (x : N) : Forall (λ b, (b < 256)%N) (MD5.le_bytes n x).
Proof.
  revert x. induction n as [|n IH]; intros x; simpl; constructor.
  - by apply N.mod_lt.
  - apply IH.
Qed.

Lemma hex_ascii (bs : list N) :
  Forall (λ b, (b < 256)%N) bs → ascii_text (MD5.hex bs).
Proof.
  induction 1 as [|b bs Hb _ IH]; [done|].
  unfold MD5.hex. simpl. apply ascii_text_cons. split.
  - unfold is_ascii, MD5.hex_digit. apply N.ltb_lt.
    assert (b / 16 < 16)%N by (apply N.Div0.div_lt_upper_bound; lia).
    destruct (N.ltb_spec (b / 16) 10); lia.
  - apply ascii_text_cons. split; [|exact IH].
    unfold is_ascii, MD5.hex_digit. apply N.ltb_lt.
    assert (b mod 16 < 16)%N by (by apply N.mod_lt).
    destruct (N.ltb_spec (b mod 16) 10); lia.
Qed.

(** A digest is written with the sixteen hexadecimal digits. *)
Lemma hexdigest_ascii (msg : list N) : ascii_text (MD5.hexdigest msg).
Proof.
  unfold MD5.hexdigest, MD5.digest. apply hex_ascii.
  destruct (MD5.blocks _ _ _).
  repeat (apply Forall_app; split); apply le_bytes_lt.
Qed.

Lemma get_prompt_hash_encodable `{CPython} (prompt h : str) :
  get_prompt_hash prompt = Ok h → encodable h.
Proof.
  unfold get_prompt_hash. destruct (encode (lower prompt)); result_simpl; [|done].
  intros [= <-]. eexists. apply encode_ascii, hexdigest_ascii.
Qed.

(** The [try] block returns exactly when no call of the store fails, the
    texts can be encoded and the rowid fits: then the row is inserted. *)
Lemma save_conversation_try_Ok `{CPython} (f : fault) (now_iso : str)
    (d d' : db) (prompt response sid : str) :
  save_conversation_try f now_iso d prompt response = Ok (sid, d') ↔
  ∃ h id, f = no_fault ∧ get_prompt_hash prompt = Ok h ∧
    encodable prompt ∧ encodable response ∧ encodable now_iso ∧
    insert_or_replace d h prompt response now_iso = Ok (id, d') ∧
    sid = str_of_Z id.
Proof.
  unfold save_conversation_try, execute, connect, commit. split.
  - destruct f; result_simpl; try done.
    2,3: by intros Htry; repeat case_match; simplify_eq.
    destruct (get_prompt_hash prompt) as [h|] eqn:Hh; [|done].
    destruct (bind_text h) as [h'|] eqn:Hh'; [|done].
    destruct (bind_text prompt) as [p'|] eqn:Hp'; [|done].
    destruct (bind_text response) as [r'|] eqn:Hr'; [|done].
    destruct (bind_text now_iso) as [ts'|] eqn:Hts'; [|done].
    apply bind_text_Ok in Hh' as [_ ->], Hp' as [? ->], Hr' as [? ->], Hts' as [? ->].
    destruct (insert_or_replace d h prompt response now_iso) as [[id d1]|] eqn:Hins; [|done].
    intros [= <- <-]. by exists h, id.
  - intros (h & id & -> & Hh & Hp & Hr & Hts & Hins & ->). result_simpl.
    rewrite Hh.
    assert (bind_text h = Ok h) as ->.
    { apply bind_text_Ok. split; [|done]. by eapply get_prompt_hash_encodable. }
    assert (bind_text prompt = Ok prompt) as -> by by apply bind_text_Ok.
    assert (bind_text response = Ok response) as -> by by apply bind_text_Ok.
    assert (bind_text now_iso = Ok now_iso) as -> by by apply bind_text_Ok.
    by rewrite Hins.
Qed.


(** ** The upsert *)

Lemma get_prompt_hash_lower `{CPython} (p1 p2 : str) :
  lower p1 = lower p2 → get_prompt_hash p1 = get_prompt_hash p2.
Proof. intros Hlow. unfold get_prompt_hash. by rewrite Hlow. Qed.

(** A call of [save_conversation] either stores the row and returns its
    rowid, or stores nothing and returns the temporary identifier. *)
Lemma save_conversation_cases `{CPython} (f : fault) (now_iso now_stamp : str)
    (d : db) (prompt response : str) :
  (∃ e, save_conversation_try f now_iso d prompt response = Raise e ∧
        save_conversation f now_iso now_stamp d prompt response
        = (Ok (lit "temp_" ++ now_stamp), d)) ∨
  (∃ h id d', f = no_fault ∧ get_prompt_hash prompt = Ok h ∧
        insert_or_replace d h prompt response now_iso = Ok (id, d') ∧
        save_conversation_try f now_iso d prompt response = Ok (str_of_Z id, d') ∧
        save_conversation f now_iso now_stamp d prompt response
        = (Ok (str_of_Z id), d')).
Proof.
  unfold save_conversation.
  destruct (save_conversation_try f now_iso d prompt response) as [[sid d']|e] eqn:Htry.
  - right. apply save_conversation_try_Ok in Htry as Hok.
    destruct Hok as (h & id & -> & Hh & _ & _ & _ & Hins & ->).
    by exists h, id, d'.
  - left. by exists e.
Qed.

Lemma lookup_upserted (d d' : db) (h p r ts : str) (id k : Z) (x : row) :
  insert_or_replace d h p r ts = Ok (id, d') →
  conversations d' !! k = Some x ↔
  (k = id ∧ x = fresh_row h p r ts) ∨
  (k ≠ id ∧ conversations d !! k = Some x ∧ row_prompt_hash x ≠ h).
Proof.
  intros (-> & _ & ->)%insert_or_replace_Ok. cbn [conversations].
  rewrite lookup_insert_Some, map_lookup_filter_Some. naive_solver.
Qed.

(** One upsert keeps what holds of the store. *)
Lemma store_inv_upsert `{CPython} (d : db) (ws : list (str * str)) (u : upsert) :
  store_inv d ws →
  store_inv (apply_upsert d u)
    (ws ++ if stored d u then [(upsert_prompt u, upsert_response u)] else []).
Proof.
  intros [Huniq Hrows]. unfold apply_upsert, stored.
  destruct (save_conversation_cases (upsert_fault u) (upsert_now_iso u)
              (upsert_now_stamp u) d (upsert_prompt u) (upsert_response u))
    as [(e & -> & ->) | (h & id & d' & _ & Hh & Hins & -> & ->)]; cbn [snd].
  { by rewrite app_nil_r. }
  split.
  - intros i j ri rj Hi Hj Heq.
    apply (lookup_upserted _ _ _ _ _ _ _ _ _ Hins) in Hi, Hj.
    destruct Hi as [[-> ->] | (Hi & Hri & Hhi)], Hj as [[-> ->] | (Hj & Hrj & Hhj)];
      try done.
    by eapply Huniq.
  - intros i r Hi. apply (lookup_upserted _ _ _ _ _ _ _ _ _ Hins) in Hi.
    unfold last_write. rewrite filter_app.
    destruct Hi as [[-> ->] | (Hi & Hr & Hhr)]; cbn [fresh_row row_prompt row_prompt_hash row_response].
    + split; [done|].
      rewrite (filter_singleton_True _ (upsert_prompt u, upsert_response u)) by done.
      apply last_snoc.
    + destruct (Hrows i r Hr) as [Hhash Hlast]. split; [done|].
      rewrite filter_singleton_False, app_nil_r; [done | done |].
      cbn [fst]. intros Hlow. apply get_prompt_hash_lower in Hlow.
      congruence.
Qed.

Lemma store_inv_run `{CPython} (us : list upsert) (d : db) (ws : list (str * str)) :
  store_inv d ws → store_inv (run_upserts d us) (ws ++ writes d us).
Proof.
  revert d ws. induction us as [|u us IH]; intros d ws Hinv; simpl.
  - by rewrite app_nil_r.
  - rewrite app_assoc. apply IH. by apply store_inv_upsert.
Qed.

Lemma store_inv_init `{CPython} : store_inv init_database [].
Proof.
  split.
  - intros i j ri rj Hi.
    change (conversations init_database) with (∅ : gmap Z row) in Hi.
    by rewrite lookup_empty in Hi.
  - intros i r Hi.
    change (conversations init_database) with (∅ : gmap Z row) in Hi.
    by rewrite lookup_empty in Hi.
Qed.

(** An upsert of a prompt the previous upsert wrote replaces that row. *)
Lemma upsert_replaces `{CPython} (d d1 d2 : db) (p1 r1 ts1 p2 r2 ts2 h : str) (id1 id2 : Z) :
  insert_or_replace d h p1 r1 ts1 = Ok (id1, d1) →
  insert_or_replace d1 h p2 r2 ts2 = Ok (id2, d2) →
  conversations d2
  = <[id2 := fresh_row h p2 r2 ts2]> (delete id1 (conversations d1)) ∧
  size (conversations d2) = size (conversations d1) ∧
  id1 ≠ id2.
Proof.
  intros H1 H2.
  assert (conversations d1 !! id1 = Some (fresh_row h p1 r1 ts1)) as Hid1.
  { apply (lookup_upserted _ _ _ _ _ _ _ _ _ H1). by left. }
  pose proof (insert_or_replace_fresh _ _ _ _ _ _ _ H2) as Hfresh.
  assert (id1 ≠ id2) as Hne by congruence.
  assert (conversations d2
          = <[id2 := fresh_row h p2 r2 ts2]> (delete id1 (conversations d1))) as Heq.
  { apply map_eq. intros k. apply option_eq. intros x.
    rewrite (lookup_upserted _ _ _ _ _ _ _ _ _ H2).
    rewrite lookup_insert_Some, lookup_delete_Some.
    rewrite (lookup_upserted _ _ _ _ _ _ _ _ _ H1). naive_solver. }
  split; [done|]. split; [|done].
  rewrite Heq, map_size_insert_None, map_size_delete_Some by
    (try (rewrite lookup_delete_ne by done); eauto).
  destruct (size (conversations d1)) eqn:Hsize; [|done].
  apply map_size_empty_inv in Hsize. rewrite Hsize, lookup_empty in Hid1. done.
Qed.

(** C1. Two prompts with the same lowered text have the same fingerprint;
    an upsert of the second, after the first was written, replaces the
    first's row (the table keeps its size); and after any sequence of
    upserts on a fresh store, no two rows have the same normalized prompt,
    and each row holds the prompt and response of the last write made for
    its normalized prompt. *)
Theorem fingerprint_upsert `{CPython} :
  (∀ p1 p2, lower p1 = lower p2 → get_prompt_hash p1 = get_prompt_hash p2) ∧
  (∀ f1 iso1 f2 iso2 d p1 r1 p2 r2 sid1 d1 sid2 d2,
     lower p1 = lower p2 →
     save_conversation_try f1 iso1 d p1 r1 = Ok (sid1, d1) →
     save_conversation_try f2 iso2 d1 p2 r2 = Ok (sid2, d2) →
     ∃ id1 id2 h,
       sid1 = str_of_Z id1 ∧ sid2 = str_of_Z id2 ∧ id1 ≠ id2 ∧
       get_prompt_hash p2 = Ok h ∧
       is_Some (conversations d1 !! id1) ∧
       conversations d2
       = <[id2 := fresh_row h p2 r2 iso2]> (delete id1 (conversations d1)) ∧
       size (conversations d2) = size (conversations d1)) ∧
  (∀ us,
     let d := run_upserts init_database us in
     (∀ i j ri rj,
        conversations d !! i = Some ri → conversations d !! j = Some rj →
        lower (row_prompt ri) = lower (row_prompt rj) → i = j) ∧
     (∀ i r,
        conversations d !! i = Some r →
        last_write (lower (row_prompt r)) (writes init_database us)
        = Some (row_prompt r, row_response r))).
Proof.
  split; [exact get_prompt_hash_lower|]. split.
  - intros f1 iso1 f2 iso2 d p1 r1 p2 r2 sid1 d1 sid2 d2 Hlow Htry1 Htry2.
    apply save_conversation_try_Ok in Htry1 as (h1 & id1 & _ & Hh1 & _ & _ & _ & Hins1 & ->).
    apply save_conversation_try_Ok in Htry2 as (h2 & id2 & _ & Hh2 & _ & _ & _ & Hins2 & ->).
    assert (h1 = h2) as ->.
    { apply get_prompt_hash_lower in Hlow. congruence. }
    destruct (upsert_replaces _ _ _ _ _ _ _ _ _ _ _ _ Hins1 Hins2) as (Heq & Hsize & Hne).
    exists id1, id2, h2. repeat split; try done.
    exists (fresh_row h2 p1 r1 iso1).
    apply (lookup_upserted _ _ _ _ _ _ _ _ _ Hins1). by left.
  - intros us d.
    destruct (store_inv_run us init_database [] store_inv_init) as [Huniq Hrows].
    fold d in Huniq, Hrows. split.
    + intros i j ri rj Hi Hj Hlow. apply (Huniq i j ri rj Hi Hj).
      destruct (Hrows i ri Hi) as [Hhi _], (Hrows j rj Hj) as [Hhj _].
      apply get_prompt_hash_lower in Hlow. congruence.
    + intros i r Hi. by destruct (Hrows i r Hi) as [_ Hlast].
Qed.

(** ** The handler of the chat request *)

(** Once the strategy and its note are built, the handler returns: the
    upsert gives an identifier whatever the store does, and nothing after it
    raises. *)
Lemma chat_completions_Ok `{CPython} (env : environment) (ai_engine : AIEngine)
    (d : db) (request : ChatRequest) (strategy : str) :
  noted_strategy env ai_engine d request = Ok strategy →
  ∃ sid d',
    save_conversation (save_fault env) (save_now_iso env) (save_now_stamp env)
                      d (request_prompt request) strategy = (Ok sid, d') ∧
    chat_completions env ai_engine d request
    = (Http200
         {| response := strategy;
            strategy_id := sid;
            confidence :=
              chat_confidence (model ai_engine)
                (found_similar env d (request_prompt request));
            suggested_actions := extract_suggested_actions strategy;
            estimated_earnings := estimate_earnings (request_prompt request) strategy;
            timestamp := respond_now_iso env |}, d').
Proof.
  intros Hnoted. unfold chat_completions, found_similar. rewrite Hnoted.
  destruct (save_conversation_cases (save_fault env) (save_now_iso env)
              (save_now_stamp env) d (request_prompt request) strategy)
    as [(e & _ & Hsave) | (h & id & d' & _ & _ & _ & _ & Hsave)];
    rewrite Hsave; result_simpl; eauto.
Qed.

(** When the note cannot be built the handler raises, before the upsert. *)
Lemma chat_completions_Raise `{CPython} (env : environment) (ai_engine : AIEngine)
    (d : db) (request : ChatRequest) (e : exn) :
  noted_strategy env ai_engine d request = Raise e →
  chat_completions env ai_engine d request = (Http500 e, d).
Proof. intros Hnoted. unfold chat_completions. by rewrite Hnoted. Qed.

(** What the handler returns, field by field. *)
Lemma chat_completions_Http200 `{CPython} (env : environment) (ai_engine : AIEngine)
    (d d' : db) (request : ChatRequest) (r : ChatResponse) :
  chat_completions env ai_engine d request = (Http200 r, d') →
  ∃ strategy,
    noted_strategy env ai_engine d request = Ok strategy ∧
    save_conversation (save_fault env) (save_now_iso env) (save_now_stamp env)
                      d (request_prompt request) strategy = (Ok (strategy_id r), d') ∧
    r = {| response := strategy;
           strategy_id := strategy_id r;
           confidence :=
             chat_confidence (model ai_engine)
               (found_similar env d (request_prompt request));
           suggested_actions := extract_suggested_actions strategy;
           estimated_earnings := estimate_earnings (request_prompt request) strategy;
           timestamp := respond_now_iso env |}.
Proof.
  intros Hchat.
  destruct (noted_strategy env ai_engine d request) as [strategy|e] eqn:Hnoted.
  - destruct (chat_completions_Ok env ai_engine d request strategy Hnoted)
      as (sid & d1 & Hsave & Heq).
    rewrite Heq in Hchat. injection Hchat as <- <-. by exists strategy.
  - rewrite (chat_completions_Raise env ai_engine d request e Hnoted) in Hchat.
    discriminate.
Qed.

(** The text the handler stores and returns is the generated strategy,
    followed by the note when the lookup found anything. *)
Lemma noted_strategy_Ok `{CPython} (env : environment) (ai_engine : AIEngine)
    (d : db) (request : ChatRequest) (strategy : str) :
  noted_strategy env ai_engine d request = Ok strategy →
  ∃ tail,
    strategy = generate_money_strategy ai_engine (request_prompt request) ++ tail ∧
    if found_similar env d (request_prompt request)
    then similar_note (get_similar_strategies (lookup_fault env) (lookup_altered env)
                         d (request_prompt request)) = Ok tail
    else tail = [].
Proof.
  unfold noted_strategy, found_similar.
  destruct (non_empty _).
  - destruct (similar_note _) as [note|e]; result_simpl; [|done].
    intros [= <-]. by exists note.
  - intros [= <-]. exists []. by rewrite app_nil_r.
Qed.

(** A lookup that finds nothing leaves the generated strategy as it is. *)
Lemma noted_strategy_none `{CPython} (env : environment) (ai_engine : AIEngine)
    (d : db) (request : ChatRequest) :
  get_similar_strategies (lookup_fault env) (lookup_altered env) d (request_prompt request)
  = [] →
  noted_strategy env ai_engine d request
  = Ok (generate_money_strategy ai_engine (request_prompt request)).
Proof. intros Hnone. unfold noted_strategy. by rewrite Hnone. Qed.

(** ** The confidence *)

Lemma float_neq (x y : float) (f : float → bool) : f x ≠ f y → x ≠ y.
Proof. intros Hf ->. done. Qed.

(** C7, as amended. The confidence of a response is the minimum of 0.95 and
    a base plus 0.1 when the lookup found similar strategies, where the base
    is 0.8 when the model is loaded and 0.6 when it is not, whether or not
    this request's generation succeeded; it is one of 0.6, 0.7, 0.8 and 0.9,
    so within 0 and 0.95. An engine that [load_model] builds has its model
    loaded exactly when it has a generator, and then the base is 0.8 even
    when the generator raises. *)
Theorem chat_confidence_spec `{CPython} :
  (∀ env ai_engine d request r d',
     chat_completions env ai_engine d request = (Http200 r, d') →
     let found := found_similar env d (request_prompt request) in
     let base := (if model ai_engine then 0.8 else 0.6)%float in
     confidence r = py_min (if found then base + 0.1 else base)%float 0.95%float ∧
     (confidence r = 0.6 ∨ confidence r = 0.7 ∨
      confidence r = 0.8 ∨ confidence r = 0.9)%float ∧
     (0 <=? confidence r)%float = true ∧
     (confidence r <=? 0.95)%float = true) ∧
  (∀ loaded,
     (model (load_model loaded) = true ↔ is_Some (generator (load_model loaded))) ∧
     (∀ prompt, primary_path_succeeded (load_model loaded) prompt = true →
                model (load_model loaded) = true)) ∧
  (∀ prompt, primary_path_succeeded failing_engine prompt = false ∧
             model failing_engine = true).
Proof.
  split; [|split].
  - intros env ai_engine d request r d' Hchat.
    destruct (chat_completions_Http200 env ai_engine d d' request r Hchat)
      as (strategy & _ & _ & ->).
    cbv zeta. cbn [confidence]. unfold chat_confidence.
    destruct (model ai_engine), (found_similar env d (request_prompt request));
      vm_compute; repeat split; auto.
  - intros [g|e]; simpl.
    + split; [split; [eauto | done] | done].
    + split; [split; [done | by intros [? ?]] | done].
  - intros prompt. split; reflexivity.
Qed.

(** C7 as stated fails: with the model loaded and the generator raising,
    the strategy is the fallback text, so the primary path did not succeed,
    and the base is 0.8 all the same, not 0.6. *)
Lemma chat_confidence_counterexample : ¬ ∃ R : CPython, confidence_as_stated R.
Proof.
  intros [R Hclaim].
  set (env := quiet_environment).
  set (request := {| request_prompt := lit "make money"; request_user_id := lit "default" |}).
  assert (noted_strategy env failing_engine init_database request
          = Ok (generate_money_strategy failing_engine (request_prompt request))) as Hnoted.
  { apply noted_strategy_none. unfold get_similar_strategies.
    rewrite lower_lit by reflexivity. vm_compute. reflexivity. }
  destruct (chat_completions_Ok env failing_engine init_database request _ Hnoted)
    as (sid & d' & _ & Hchat).
  specialize (Hclaim env failing_engine init_database request _ d' Hchat).
  revert Hclaim. cbn [confidence].
  change (primary_path_succeeded failing_engine (request_prompt request)) with false.
  change (model failing_engine) with true.
  unfold chat_confidence, stated_confidence.
  destruct (found_similar env init_database (request_prompt request)).
  - apply (float_neq _ _ (λ x, (0.8 <? x)%float)). vm_compute. done.
  - apply (float_neq _ _ (λ x, (0.7 <? x)%float)). vm_compute. done.
Qed.

(** ** Feedback *)

Lemma int_digits_ascii `{CPython} (acc n : N) (prev : bool) (s : str) :
  ascii_text s →
  int_digits acc n prev s = @int_digits ascii_only acc n prev s.
Proof.
  revert acc n prev. induction s as [|c s IH]; intros acc n prev Hs; [done|].
  ascii_split. simpl. rewrite decimal_ascii by done.
  change (@decimal ascii_only c) with (ascii_decimal c). unfold ascii_decimal.
  destruct (between 48 57 c); [by apply IH|].
  destruct ((c =? 95)%N && prev); [by apply IH | done].
Qed.

(** A text whose digits part is ASCII and is not a number is refused by
    every interpreter. *)
Lemma int_invalid `{CPython} (s : str) :
  ascii_text (int_sign s).2 →
  @int_digits ascii_only 0 0 false (int_sign s).2 = None →
  int s = Raise ValueError.
Proof.
  intros Hs Hnone. unfold int. destruct (int_sign s) as [neg ds]. simpl in *.
  by rewrite int_digits_ascii, Hnone.
Qed.

Lemma update_feedback_missing (d : db) (score : Z) (e : option float) (id : Z) :
  conversations d !! id = None → update_feedback d score e id = d.
Proof.
  intros Hid. unfold update_feedback. destruct d as [t s]. simpl in *.
  f_equal. apply alter_id. intros x Hx. congruence.
Qed.

Lemma bind_int_fits (z : Z) : fits_int64 z → bind_int z = Ok z.
Proof.
  intros [Hlo Hhi]. unfold bind_int.
  apply Z.leb_le in Hlo, Hhi. by rewrite Hlo, Hhi.
Qed.

Lemma bind_int_Ok (z z' : Z) : bind_int z = Ok z' → z' = z.
Proof. unfold bind_int. destruct (_ && _); congruence. Qed.

(** C2, as amended. Feedback for an id that equals no rowid leaves every
    stored exchange as it is, whatever else happens. The request is
    answered with the success status when the store is available, [int]
    reads the strategy_id as a number, and that number and the score fit 64
    bits; when [int] refuses the strategy_id (as it refuses the [temp_]
    identifiers that [save_conversation] hands out) the request fails with a
    server error. *)
Theorem submit_feedback_unknown_id `{CPython} :
  (∀ f d strategy_id success_score earnings,
     (∀ n, int strategy_id = Ok n → conversations d !! n = None) →
     (submit_feedback f d strategy_id success_score earnings).2 = d) ∧
  (∀ d strategy_id success_score earnings n,
     int strategy_id = Ok n → fits_int64 n → fits_int64 success_score →
     conversations d !! n = None →
     submit_feedback no_fault d strategy_id success_score earnings
     = (Http200 (FeedbackResponse feedback_submitted strategy_id), d)) ∧
  (∀ f d strategy_id success_score earnings e,
     int strategy_id = Raise e →
     ∃ e', submit_feedback f d strategy_id success_score earnings = (Http500 e', d)).
Proof.
  split; [|split].
  - intros f d strategy_id success_score earnings Hmiss.
    unfold submit_feedback, execute, connect, commit.
    destruct (int strategy_id) as [n|e] eqn:Hint.
    + specialize (Hmiss n eq_refl).
      destruct f; result_simpl; try done;
        destruct (bind_int success_score) as [score|]; result_simpl; try done;
        destruct (bind_int n) as [n'|] eqn:Hn; result_simpl; try done.
      apply bind_int_Ok in Hn as ->. by apply update_feedback_missing.
    + destruct f; result_simpl; done.
  - intros d strategy_id success_score earnings n Hint Hn Hscore Hmiss.
    unfold submit_feedback, execute, connect, commit. result_simpl.
    rewrite Hint, (bind_int_fits _ Hscore), (bind_int_fits _ Hn).
    by rewrite update_feedback_missing.
  - intros f d strategy_id success_score earnings e Hint.
    unfold submit_feedback, execute, connect, commit.
    rewrite Hint. destruct f; result_simpl; eauto.
Qed.

(** C2 as stated fails: the identifier that [save_conversation] returns when
    the store was down names no row, and feedback for it is answered with a
    server error, because [int] refuses it. *)
Lemma submit_feedback_counterexample : ¬ ∃ R : CPython, feedback_as_stated R.
Proof.
  intros [R Hclaim].
  destruct (Hclaim init_database (lit "temp_1704067200.5") 5%Z 0%float) as [body Hbody].
  - intros n r Hn.
    change (conversations init_database) with (∅ : gmap Z row) in Hn.
    by rewrite lookup_empty in Hn.
  - revert Hbody. unfold submit_feedback, execute, connect, commit. result_simpl.
    by rewrite (int_invalid (lit "temp_1704067200.5")).
Qed.

(** ** The similarity lookup *)

Lemma get_similar_strategies_ascii `{CPython} (f : fault) (altered : altered_query)
    (d : db) (prompt : str) :
  ascii_text prompt →
  get_similar_strategies f altered d prompt
  = @get_similar_strategies ascii_only f altered d prompt.
Proof. intros Hp. unfold get_similar_strategies. by rewrite lower_lit. Qed.

Lemma split_ws_blank (s : str) :
  forallb is_space s = true → split_ws_from [] s = [].
Proof.
  induction s as [|c s IH]; [done|]. simpl.
  intros [Hc Hs]%andb_prop. rewrite Hc. by apply IH.
Qed.

Lemma ascii_lower_blank (s : str) :
  forallb is_space s = true → forallb is_space (ascii_lower s) = true.
Proof.
  induction s as [|c s IH]; [done|]. simpl.
  intros [Hc Hs]%andb_prop. rewrite (IH Hs), andb_true_r.
  unfold ascii_lower_char, between.
  destruct (N.leb_spec 65 c), (N.leb_spec c 90); simpl; try done.
  unfold is_space, between in Hc.
  repeat (apply orb_prop in Hc as [Hc|Hc]);
    repeat (apply andb_prop in Hc as [? ?]);
    repeat match goal with
    | Hle : (_ <=? _)%N = true |- _ => apply N.leb_le in Hle
    | Heq : (_ =? _)%N = true |- _ => apply N.eqb_eq in Heq
    end; lia.
Qed.

Lemma get_similar_strategies_length `{CPython} (f : fault) (altered : altered_query)
    (d : db) (prompt : str) :
  forallb plain_word (take 5 (split (lower prompt))) = true →
  length (get_similar_strategies f altered d prompt) ≤ 5.
Proof.
  intros Hplain. unfold get_similar_strategies, execute, connect.
  rewrite Hplain.
  destruct f; result_simpl; try lia;
    destruct (take 5 (split (lower prompt))); result_simpl; try lia;
    rewrite !length_map; unfold select_like; rewrite length_take; lia.
Qed.

(** C8 fails on the code. The lookup puts each word between the quotes of a
    [LIKE] pattern as it is, so the underscore of the word [a_c] stands for
    any character: the exchange whose prompt is [abc], stored by a request
    before, is returned, though [abc] does not hold [a_c]. What the claim
    says of a prompt of blanks holds (for ASCII blanks), and so does the
    bound of 5 as long as the words hold no quote. *)
Theorem similar_lookup_wildcard `{CPython} :
  (∀ altered,
     get_similar_strategies no_fault altered abc_store (lit "a_c")
     = [Similar (Integer 1) (Text (lit "abc")) (Text (lit "a plan"))
                (Text (lit "2024-01-01T00:00:00")) (Integer 0)]) ∧
  ¬ substring (lower (lit "a_c")) (lower (lit "abc")) ∧
  (∀ now_stamp,
     (save_conversation no_fault (lit "2024-01-01T00:00:00") now_stamp
                        init_database (lit "abc") (lit "a plan")).2 = abc_store) ∧
  (∀ f altered d prompt,
     ascii_text prompt → forallb is_space prompt = true →
     get_similar_strategies f altered d prompt = []) ∧
  (∀ f altered d prompt,
     forallb plain_word (take 5 (split (lower prompt))) = true →
     length (get_similar_strategies f altered d prompt) ≤ 5).
Proof.
  split; [|split; [|split; [|split]]].
  - intros altered. rewrite get_similar_strategies_ascii by reflexivity.
    vm_compute. reflexivity.
  - rewrite (lower_lit (lit "a_c")), (lower_lit (lit "abc")) by reflexivity.
    intros Hsub. apply contains_spec in Hsub.
    vm_compute in Hsub. congruence.
  - intros now_stamp. unfold save_conversation.
    assert (save_conversation_try no_fault (lit "2024-01-01T00:00:00")
              init_database (lit "abc") (lit "a plan")
            = Ok (lit "1", abc_store)) as ->; [|done].
    apply save_conversation_try_Ok.
    exists (lit "900150983cd24fb0d6963f7d28e17f72"), 1%Z.
    split; [done|]. split.
    { unfold get_prompt_hash. rewrite lower_lit by reflexivity.
      vm_compute. reflexivity. }
    do 3 (split; [eexists; by apply encode_ascii|]).
    split; [|done].
    apply insert_or_replace_Ok. split; [reflexivity|]. split; [done|].
    reflexivity.
  - intros f altered d prompt Hascii Hblank.
    unfold get_similar_strategies, execute, connect, split.
    rewrite lower_lit by done.
    change (@lower ascii_only prompt) with (ascii_lower prompt).
    rewrite split_ws_blank by (by apply ascii_lower_blank).
    by destruct f.
  - apply get_similar_strategies_length.
Qed.

(** ** The claims on concrete inputs *)

(** C1 on two upserts of one prompt in two spellings, an upsert between
    them losing its commit: the second replaces the row of the first, and the
    store holds the last write. *)
Lemma fingerprint_upsert_witness :
  let d1 := (save_conversation no_fault (lit "2024-01-01T00:00:00") (lit "1704067200.0")
               init_database (lit "Make Money") (lit "first plan")).2 in
  let d2 := (save_conversation no_fault (lit "2024-01-02T00:00:00") (lit "1704153600.0")
               d1 (lit "make money") (lit "second plan")).2 in
  let us := [Upsert no_fault (lit "2024-01-01T00:00:00") (lit "1704067200.0")
               (lit "Make Money") (lit "first plan");
             Upsert commit_fails (lit "2024-01-01T12:00:00") (lit "1704110400.0")
               (lit "MAKE MONEY") (lit "lost plan");
             Upsert no_fault (lit "2024-01-02T00:00:00") (lit "1704153600.0")
               (lit "make money") (lit "second plan")] in
  let r2 := fresh_row (lit "734031a6878c5c4e7f26dae9e16f1af8") (lit "make money")
              (lit "second plan") (lit "2024-01-02T00:00:00") in
  (lower (lit "Make Money") = lower (lit "make money") ∧
   save_conversation_try no_fault (lit "2024-01-01T00:00:00") init_database
     (lit "Make Money") (lit "first plan") = Ok (lit "1", d1) ∧
   save_conversation_try no_fault (lit "2024-01-02T00:00:00") d1
     (lit "make money") (lit "second plan") = Ok (lit "2", d2) ∧
   size (conversations d2) = size (conversations d1)) ∧
  (conversations (run_upserts init_database us) !! 2%Z = Some r2 ∧
   last_write (lower (row_prompt r2)) (writes init_database us)
   = Some (row_prompt r2, row_response r2)).
Proof.
  cbv zeta.
  set (d1 := (save_conversation no_fault _ _ init_database _ _).2).
  set (d2 := (save_conversation no_fault _ _ d1 _ _).2).
  set (us := [Upsert no_fault _ _ _ _; Upsert commit_fails _ _ _ _; Upsert no_fault _ _ _ _]).
  set (r2 := fresh_row _ _ _ _).
  assert (lower (lit "Make Money") = lower (lit "make money")) as Hlow
    by (vm_compute; reflexivity).
  assert (save_conversation_try no_fault (lit "2024-01-01T00:00:00") init_database
            (lit "Make Money") (lit "first plan") = Ok (lit "1", d1)) as H1
    by (vm_compute; reflexivity).
  assert (save_conversation_try no_fault (lit "2024-01-02T00:00:00") d1
            (lit "make money") (lit "second plan") = Ok (lit "2", d2)) as H2
    by (vm_compute; reflexivity).
  assert (conversations (run_upserts init_database us) !! 2%Z = Some r2) as Hrow
    by (vm_compute; reflexivity).
  split.
  - split; [exact Hlow|]. split; [exact H1|]. split; [exact H2|].
    destruct (proj1 (proj2 fingerprint_upsert) _ _ _ _ _ _ _ _ _ _ _ _ _ Hlow H1 H2)
      as (id1 & id2 & h & _ & _ & _ & _ & _ & _ & Hsize).
    exact Hsize.
  - split; [exact Hrow|].
    exact (proj2 (proj2 (proj2 fingerprint_upsert) us) 2%Z r2 Hrow).
Defined.

(** C2 on feedback for the id 42, which the store with one exchange does
    not hold, and for an identifier that is no number. *)
Lemma submit_feedback_unknown_id_witness :
  (int (lit "42") = Ok 42%Z ∧ fits_int64 42 ∧ fits_int64 5 ∧
   conversations abc_store !! 42%Z = None ∧
   submit_feedback no_fault abc_store (lit "42") 5 1.5%float
   = (Http200 (FeedbackResponse feedback_submitted (lit "42")), abc_store)) ∧
  (int (lit "temp_1704067200.5") = Raise ValueError ∧
   ∃ e, submit_feedback no_fault abc_store (lit "temp_1704067200.5") 5 1.5%float
        = (Http500 e, abc_store)).
Proof.
  assert (int (lit "42") = Ok 42%Z) as Hint by (vm_compute; reflexivity).
  assert (fits_int64 42) as H42 by (unfold fits_int64, int64_min, int64_max; lia).
  assert (fits_int64 5) as H5 by (unfold fits_int64, int64_min, int64_max; lia).
  assert (conversations abc_store !! 42%Z = None) as Hmiss by (vm_compute; reflexivity).
  assert (int (lit "temp_1704067200.5") = Raise ValueError) as Hbad
    by (vm_compute; reflexivity).
  split.
  - split; [exact Hint|]. split; [exact H42|]. split; [exact H5|].
    split; [exact Hmiss|].
    exact (proj1 (proj2 submit_feedback_unknown_id) abc_store (lit "42") 5%Z 1.5%float
             42%Z Hint H42 H5 Hmiss).
  - split; [exact Hbad|].
    exact (proj2 (proj2 submit_feedback_unknown_id) no_fault abc_store
             (lit "temp_1704067200.5") 5%Z 1.5%float ValueError Hbad).
Defined.

(** C3 on two engines on which the model's path does not succeed: one
    whose generator raises, one without a model. *)
Lemma fallback_strategy_deterministic_witness :
  primary_path_succeeded failing_engine (lit "I want a gig") = false ∧
  primary_path_succeeded (load_model (Raise RuntimeError)) (lit "I want a gig") = false ∧
  generate_money_strategy failing_engine (lit "I want a gig")
  = generate_money_strategy (load_model (Raise RuntimeError)) (lit "I want a gig").
Proof.
  split; [reflexivity|]. split; [reflexivity|].
  exact (proj2 (proj2 (proj2 (proj2 fallback_strategy_deterministic)))
           failing_engine (load_model (Raise RuntimeError)) (lit "I want a gig")
           eq_refl eq_refl).
Defined.

(** C5 on the prompt with the amount of 1,500 dollars, on a prompt whose
    amount has cents, and on the prompt that names a week and no amount. *)
Lemma estimate_earnings_spec_witness :
  (first_amount (lit "Earn me $1,500 today") (Amount (lit "1") [lit "500"] None) ∧
   estimate_earnings (lit "Earn me $1,500 today") []
   = lit "Target: $1500 (as specified)") ∧
  (first_amount (lit "I need $12,500.75 a month")
                (Amount (lit "12") [lit "500"] (Some (lit "75"))) ∧
   estimate_earnings (lit "I need $12,500.75 a month") []
   = lit "Target: $12500.75 (as specified)") ∧
  (¬ has_amount (lit "Help me earn money this week") ∧
   ¬ mentions day_words (lower (lit "Help me earn money this week")) ∧
   mentions week_words (lower (lit "Help me earn money this week")) ∧
   estimate_earnings (lit "Help me earn money this week") [] = weekly_potential).
Proof.
  assert (first_amount (lit "Earn me $1,500 today") (Amount (lit "1") [lit "500"] None))
    as Hfirst.
  { split.
    - split; [done|]. split; [by repeat constructor|]. split; [|done].
      constructor; [|constructor]. split; [done | by repeat constructor].
    - exists (lit "Earn me "), (lit " today"). split; [reflexivity|]. split.
      + apply findall_amounts_nil. vm_compute. reflexivity.
      + split; [|split]; [| |done].
        * intros (ds & rest & Heq & _). vm_compute in Heq. discriminate Heq.
        * intros (ds & rest & Heq & _). vm_compute in Heq. discriminate Heq. }
  assert (first_amount (lit "I need $12,500.75 a month")
            (Amount (lit "12") [lit "500"] (Some (lit "75")))) as Hcents.
  { split.
    - split; [done|]. split; [by repeat constructor|]. split.
      + constructor; [|constructor]. split; [done | by repeat constructor].
      + split; [done | by repeat constructor].
    - exists (lit "I need "), (lit " a month"). split; [reflexivity|]. split; [|done].
      apply findall_amounts_nil. vm_compute. reflexivity. }
  assert (¬ has_amount (lit "Help me earn money this week")) as Hn.
  { apply findall_amounts_nil. vm_compute. reflexivity. }
  assert (¬ mentions day_words (lower (lit "Help me earn money this week"))) as Hday.
  { intros Hm. apply any_in_spec in Hm. vm_compute in Hm. discriminate Hm. }
  assert (mentions week_words (lower (lit "Help me earn money this week"))) as Hweek.
  { apply any_in_spec. vm_compute. reflexivity. }
  split; [|split].
  - split; [exact Hfirst|].
    exact (proj1 (proj1 estimate_earnings_spec (lit "Earn me $1,500 today") [])
             _ Hfirst).
  - split; [exact Hcents|].
    exact (proj1 (proj1 estimate_earnings_spec (lit "I need $12,500.75 a month") [])
             _ Hcents).
  - split; [exact Hn|]. split; [exact Hday|]. split; [exact Hweek|].
    exact (proj1 (proj2 (proj2 (proj2 (proj1 estimate_earnings_spec
                                         (lit "Help me earn money this week") [])) Hn))
             Hday Hweek).
Defined.

(** C8 on a prompt of three spaces. *)
Lemma similar_lookup_wildcard_witness :
  ascii_text (lit "   ") ∧ forallb is_space (lit "   ") = true ∧
  get_similar_strategies no_fault (λ _ _, Raise OperationalError) abc_store (lit "   ") = [].
Proof.
  split; [reflexivity|]. split; [reflexivity|].
  exact (proj1 (proj2 (proj2 (proj2 similar_lookup_wildcard)))
           no_fault (λ _ _, Raise OperationalError) abc_store (lit "   ")
           eq_refl eq_refl).
Defined.

(** C10 on a chat request answered with the fallback text. *)
Lemma estimate_earnings_ignores_strategy_witness :
  let request := {| request_prompt := lit "Earn me $1,500 today";
                    request_user_id := lit "default" |} in
  ∃ r d',
    chat_completions quiet_environment failing_engine init_database request
    = (Http200 r, d') ∧
    estimated_earnings r = estimate_earnings (lit "Earn me $1,500 today") [].
Proof.
  cbv zeta.
  assert (∃ r d',
    chat_completions quiet_environment failing_engine init_database
      {| request_prompt := lit "Earn me $1,500 today";
         request_user_id := lit "default" |} = (Http200 r, d')) as (r & d' & Hchat).
  { eexists _, _. vm_compute. reflexivity. }
  exists r, d'. split; [exact Hchat|].
  exact (proj2 estimate_earnings_ignores_strategy _ _ _ _ _ _ Hchat).
Defined.

(** * Further properties *)

(** ** Numerals: [int(str(n))] *)

Lemma lit_String (a : ascii) (s : string) : lit (String a s) = N_of_ascii a :: lit s.
Proof. reflexivity. Qed.

Lemma decimal_digit `{CPython} (k : N) :
  (k < 10)%N → decimal (48 + k)%N = Some k.
Proof.
  intros Hk. rewrite decimal_ascii.
  - unfold between.
    destruct (N.leb_spec 48 (48 + k)); [|lia].
    destruct (N.leb_spec (48 + k) 57); [|lia].
    simpl. f_equal. lia.
  - unfold is_ascii. apply N.ltb_lt. lia.
Qed.

(** Reading the digits of a numeral continues the value read so far. *)
Lemma int_digits_numeral_pos `{CPython} (u : Decimal.uint) (p : positive) (n : N) (prev : bool) :
  prev = true ∨ u ≠ Decimal.Nil →
  int_digits (Npos p) n prev (lit (NilEmpty.string_of_uint u))
  = Some (Npos (Pos.of_uint_acc u p), (n + N.of_nat (Decimal.nb_digits u))%N).
Proof.
  revert p n prev.
  induction u as [|u IH|u IH|u IH|u IH|u IH|u IH|u IH|u IH|u IH|u IH];
    intros p n prev Hprev.
  { destruct Hprev as [->|]; [|done]. simpl. by rewrite N.add_0_r. }
  all: cbn [NilEmpty.string_of_uint]; rewrite lit_String; cbn [int_digits].
  1: rewrite (decimal_digit 0) by lia.
  2: rewrite (decimal_digit 1) by lia.
  3: rewrite (decimal_digit 2) by lia.
  4: rewrite (decimal_digit 3) by lia.
  5: rewrite (decimal_digit 4) by lia.
  6: rewrite (decimal_digit 5) by lia.
  7: rewrite (decimal_digit 6) by lia.
  8: rewrite (decimal_digit 7) by lia.
  9: rewrite (decimal_digit 8) by lia.
  10: rewrite (decimal_digit 9) by lia.
  all: cbn [Pos.of_uint_acc Decimal.nb_digits].
  all: match goal with
       | |- int_digits ?a _ _ _ = Some (N.pos (Pos.of_uint_acc _ ?q), _) =>
           replace a with (N.pos q) by lia
       end.
  all: rewrite IH by (by left); do 2 f_equal; lia.
Qed.

Lemma int_digits_numeral `{CPython} (u : Decimal.uint) (n : N) (prev : bool) :
  prev = true ∨ u ≠ Decimal.Nil →
  int_digits 0 n prev (lit (NilEmpty.string_of_uint u))
  = Some (Pos.of_uint u, (n + N.of_nat (Decimal.nb_digits u))%N).
Proof.
  revert n prev.
  induction u as [|u IH|u IH|u IH|u IH|u IH|u IH|u IH|u IH|u IH|u IH];
    intros n prev Hprev.
  { destruct Hprev as [->|]; [|done]. simpl. by rewrite N.add_0_r. }
  all: cbn [NilEmpty.string_of_uint]; rewrite lit_String; cbn [int_digits].
  1: rewrite (decimal_digit 0) by lia.
  2: rewrite (decimal_digit 1) by lia.
  3: rewrite (decimal_digit 2) by lia.
  4: rewrite (decimal_digit 3) by lia.
  5: rewrite (decimal_digit 4) by lia.
  6: rewrite (decimal_digit 5) by lia.
  7: rewrite (decimal_digit 6) by lia.
  8: rewrite (decimal_digit 7) by lia.
  9: rewrite (decimal_digit 8) by lia.
  10: rewrite (decimal_digit 9) by lia.
  all: cbn [Pos.of_uint Decimal.nb_digits].
  1: { change (10 * 0 + 0)%N with 0%N. rewrite IH by (by left). do 2 f_equal. lia. }
  all: match goal with
       | |- int_digits ?a _ _ _ = Some (N.pos (Pos.of_uint_acc _ ?q), _) =>
           change a with (N.pos q)
       end.
  all: rewrite int_digits_numeral_pos by (by left); do 2 f_equal; lia.
Qed.

Lemma numeral_chars (u : Decimal.uint) :
  Forall (λ c, between 48 57 c = true) (lit (NilEmpty.string_of_uint u)).
Proof.
  induction u; cbn [NilEmpty.string_of_uint]; rewrite ?lit_String;
    [by apply Forall_nil | by apply Forall_cons..].
Qed.

Lemma drop_while_none (p : char → bool) (s : str) :
  Forall (λ c, p c = false) s → drop_while p s = s.
Proof. destruct 1 as [|c s Hc _]; [done|]. simpl. by rewrite Hc. Qed.

Lemma strip_with_none (p : char → bool) (s : str) :
  Forall (λ c, p c = false) s → rstrip_with p (lstrip_with p s) = s.
Proof.
  intros Hs. unfold rstrip_with, lstrip_with.
  rewrite (drop_while_none p s) by done.
  rewrite drop_while_none; [apply rev_involutive|].
  apply Forall_forall. intros c Hc. rewrite Forall_forall in Hs.
  apply Hs. apply list_elem_of_In, in_rev. by apply list_elem_of_In.
Qed.

Lemma digit_not_int_space (c : char) : between 48 57 c = true → is_int_space c = false.
Proof.
  unfold between, is_int_space, is_space, between.
  intros [H1 H2]%andb_prop. apply N.leb_le in H1, H2.
  repeat match goal with
         | |- context [(?a <=? ?b)%N] => destruct (N.leb_spec a b); try lia
         | |- context [(?a =? ?b)%N] => destruct (N.eqb_spec a b); try lia
         end; reflexivity.
Qed.

Lemma int_sign_numeral (u : Decimal.uint) :
  int_sign (lit (NilEmpty.string_of_uint u)) = (false, lit (NilEmpty.string_of_uint u)).
Proof.
  unfold int_sign. rewrite strip_with_none.
  - pose proof (numeral_chars u) as Hu.
    destruct Hu as [|c s Hc _]; [done|].
    unfold between in Hc. apply andb_prop in Hc as [H1 H2].
    apply N.leb_le in H1, H2.
    destruct (N.eqb_spec c 45); [lia|]. destruct (N.eqb_spec c 43); [lia|]. done.
  - eapply Forall_impl; [apply numeral_chars|]. apply digit_not_int_space.
Qed.

Lemma of_uint_acc_lower (u : Decimal.uint) (p : positive) :
  (N.pos p * 10 ^ N.of_nat (Decimal.nb_digits u) ≤ N.pos (Pos.of_uint_acc u p))%N.
Proof.
  revert p. induction u as [|u IH|u IH|u IH|u IH|u IH|u IH|u IH|u IH|u IH|u IH];
    intros p; cbn [Pos.of_uint_acc Decimal.nb_digits].
  { simpl. lia. }
  all: rewrite Nat2N.inj_succ, N.pow_succ_r'.
  all: etrans; [|apply IH]; nia.
Qed.

(** A numeral has no more digits than its value needs. *)
Lemma numeral_length (n k : N) :
  (n < 10 ^ k)%N → (N.of_nat (Decimal.nb_digits (N.to_uint n)) ≤ N.max 1 k)%N.
Proof.
  intros Hn.
  assert (Decimal.unorm (N.to_uint n) = N.to_uint n) as Hnorm.
  { rewrite <- DecimalN.Unsigned.to_of. by rewrite DecimalN.Unsigned.of_to. }
  pose proof (DecimalN.Unsigned.of_to n) as Hof.
  destruct (N.to_uint n) as [|u|u|u|u|u|u|u|u|u|u] eqn:Hu.
  { done. }
  { rewrite DecimalFacts.unorm_D0 in Hnorm.
    destruct u as [| | | | | | | | | |]; [simpl; lia|..].
    all: match type of Hnorm with
         | Decimal.unorm ?v = _ =>
             pose proof (DecimalFacts.nb_digits_unorm v ltac:(done)) as Hlen
         end; rewrite Hnorm in Hlen; simpl in Hlen; lia. }
  all: cbn [Decimal.nb_digits]; rewrite Nat2N.inj_succ.
  all: unfold N.of_uint in Hof; cbn [Pos.of_uint] in Hof.
  all: match type of Hof with
       | N.pos (Pos.of_uint_acc _ ?q) = _ => pose proof (of_uint_acc_lower u q) as Hlow
       end.
  all: rewrite Hof in Hlow.
  all: assert (10 ^ N.of_nat (Decimal.nb_digits u) < 10 ^ k)%N as Hpow by lia.
  all: apply N.pow_lt_mono_r_iff in Hpow; lia.
Qed.

(** [int(str(n)) == n] for a natural number of at most 640 digits, whatever
    limit on digits the interpreter is set to. *)
Lemma int_str_of_N `{CPython} (n : N) :
  (n < 10 ^ 640)%N → int (str_of_N n) = Ok (Z.of_N n).
Proof.
  intros Hn. unfold int, str_of_N. rewrite int_sign_numeral.
  rewrite int_digits_numeral.
  2:{ right. destruct n; [done|]. apply DecimalPos.Unsigned.to_uint_nonnil. }
  change Pos.of_uint with N.of_uint. rewrite DecimalN.Unsigned.of_to.
  pose proof (numeral_length n 640 Hn) as Hlen.
  destruct max_str_digits_valid as [->|Hmax]; [done|].
  destruct (N.ltb_spec 0 max_str_digits); [|done].
  destruct (N.ltb_spec max_str_digits (0 + N.of_nat (Decimal.nb_digits (N.to_uint n)))); [lia|done].
Qed.

Lemma int_str_of_Z `{CPython} (z : Z) :
  (Z.abs z < 10 ^ 640)%Z → int (str_of_Z z) = Ok z.
Proof.
  intros Hz.
  assert (N.of_nat 0 = 0%N) as _ by done.
  assert (∀ n, (Z.of_N n < 10 ^ 640)%Z → (n < 10 ^ 640)%N) as Hconv.
  { intros n Hlt. apply N2Z.inj_lt. by rewrite N2Z.inj_pow. }
  destruct z as [|p|p]; cbn [str_of_Z].
  - apply (int_str_of_N 0). by apply Hconv.
  - rewrite int_str_of_N; [done|]. apply Hconv. simpl in *. lia.
  - unfold int, int_sign.
    assert (N.pos p < 10 ^ 640)%N as Hp by (apply Hconv; simpl in *; lia).
    rewrite strip_with_none.
    2:{ apply Forall_cons. split; [done|].
        eapply Forall_impl; [apply numeral_chars|]. apply digit_not_int_space. }
    cbn [lit list_ascii_of_string map app N_of_ascii].
    change (N_of_ascii "-") with 45%N. cbn [app]. rewrite N.eqb_refl.
    unfold str_of_N. rewrite int_digits_numeral.
    2:{ right. apply DecimalPos.Unsigned.to_uint_nonnil. }
    change Pos.of_uint with N.of_uint. rewrite DecimalN.Unsigned.of_to.
    pose proof (numeral_length (N.pos p) 640 Hp) as Hlen.
    destruct max_str_digits_valid as [->|Hmax]; [done|].
    destruct (N.ltb_spec 0 max_str_digits); [|done].
    destruct (N.ltb_spec max_str_digits
                (0 + N.of_nat (Decimal.nb_digits (N.to_uint (N.pos p))))); [lia|done].
Qed.

(** ** Feedback on a stored exchange *)

Lemma bind_int_Ok_fits (z z' : Z) : bind_int z = Ok z' ↔ fits_int64 z ∧ z' = z.
Proof.
  unfold bind_int, fits_int64.
  destruct (Z.leb_spec int64_min z), (Z.leb_spec z int64_max); simpl;
    split; try done; try (intros [= <-]; done); try (intros [[? ?] ?]; lia).
  by intros [_ ->].
Qed.

(** The request is accepted exactly when the store is available, [int]
    reads the id and both integers fit 64 bits; the store is then the
    one [UPDATE] leaves. *)
Lemma submit_feedback_Ok `{CPython} (f : fault) (d d' : db) (sid : str)
    (score : Z) (e : float) (body : feedback_response) :
  submit_feedback f d sid score e = (Http200 body, d') ↔
  f = no_fault ∧ body = FeedbackResponse feedback_submitted sid ∧
  ∃ n, int sid = Ok n ∧ fits_int64 n ∧ fits_int64 score ∧
       d' = update_feedback d score (bind_real e) n.
Proof.
  unfold submit_feedback, execute, connect, commit. split.
  - destruct f; result_simpl; try done.
    2,3: by intros Hsub; repeat case_match; simplify_eq.
    destruct (int sid) as [n|] eqn:Hn; [|done].
    destruct (bind_int score) as [s'|] eqn:Hs; [|done].
    destruct (bind_int n) as [n'|] eqn:Hn'; [|done].
    apply bind_int_Ok_fits in Hs as [Hs ->], Hn' as [Hn' ->].
    intros [= <- <-]. repeat split; try done. by exists n.
  - intros (-> & -> & n & Hn & Hfn & Hfs & ->). result_simpl.
    by rewrite Hn, (bind_int_fits score), (bind_int_fits n).
Qed.


Lemma max_rowid_le (t : gmap Z row) (n : Z) :
  (0 ≤ n)%Z → (∀ k, is_Some (t !! k) → (k ≤ n)%Z) → (max_rowid t ≤ n)%Z.
Proof.
  intros Hn. unfold max_rowid.
  apply (map_fold_weak_ind (λ r m, (∀ k, is_Some (m !! k) → (k ≤ n)%Z) → (r ≤ n)%Z)).
  - done.
  - intros i x m r Hi IH Hall.
    assert (i ≤ n)%Z by (apply Hall; rewrite lookup_insert_eq; eauto).
    assert (r ≤ n)%Z; [|lia].
    apply IH. intros k Hk. apply Hall.
    destruct (decide (i = k)) as [->|Hne].
    + rewrite lookup_insert_eq. eauto.
    + by rewrite lookup_insert_ne.
Qed.



Lemma update_feedback_twice (d : db) (s1 s2 : Z) (e1 e2 : option float) (n : Z) :
  update_feedback (update_feedback d s1 e1 n) s2 e2 n = update_feedback d s2 e2 n.
Proof.
  unfold update_feedback. cbn [conversations sequence]. f_equal.
  apply map_eq. intros k. destruct (decide (n = k)) as [<-|Hne].
  - rewrite !lookup_alter_eq. by destruct (conversations d !! n).
  - by rewrite !lookup_alter_ne.
Qed.

(** X2. Feedback overwrites. When the second of two feedback requests for
    one strategy_id is accepted, it leaves the store and the answer it would
    have left had the first request never been made: scores and earnings
    are replaced, not accumulated, and a first request that failed changes
    nothing. *)
Theorem submit_feedback_overwrites `{CPython} (f1 f2 : fault) (d d2 : db) (strategy_id : str)
    (s1 s2 : Z) (e1 e2 : float) (body : feedback_response) :
  submit_feedback f2 (submit_feedback f1 d strategy_id s1 e1).2 strategy_id s2 e2
  = (Http200 body, d2) →
  submit_feedback f2 d strategy_id s2 e2 = (Http200 body, d2).
Proof.
  intros (-> & -> & n & Hn & Hfn & Hfs & ->)%submit_feedback_Ok.
  apply submit_feedback_Ok. split; [done|]. split; [done|].
  exists n. split; [done|]. split; [done|]. split; [done|].
  destruct (submit_feedback f1 d strategy_id s1 e1) as [[body1|e] d1] eqn:H1.
  - apply submit_feedback_Ok in H1 as (_ & _ & n1 & Hn1 & _ & _ & ->).
    rewrite Hn in Hn1. injection Hn1 as <-. cbn [snd]. apply update_feedback_twice.
  - unfold submit_feedback in H1. repeat case_match; simplify_eq. done.
Qed.


(** ** Identifiers *)

(** The rowids in use are positive and none is above [sequence]. *)
Lemma rowids_bounded_upsert `{CPython} (d : db) (u : upsert) (n : nat) :
  sequence d = Z.of_nat n →
  (∀ k, is_Some (conversations d !! k) → (0 < k ≤ sequence d)%Z) →
  let d' := apply_upsert d u in
  sequence d' = Z.of_nat (n + if stored d u then 1 else 0) ∧
  (∀ k, is_Some (conversations d' !! k) → (0 < k ≤ sequence d')%Z) ∧
  (stored d u = true →
   save_conversation_try (upsert_fault u) (upsert_now_iso u) d
                         (upsert_prompt u) (upsert_response u)
   = Ok (str_of_Z (Z.of_nat (S n)), d')).
Proof.
  intros Hseq Hkeys. unfold apply_upsert, stored, save_conversation. cbv zeta.
  destruct (save_conversation_try _ _ d _ _) as [[sid d1]|e] eqn:Htry; cbn [snd].
  - pose proof Htry as (h & id & _ & _ & _ & _ & _ & Hins & ->)%save_conversation_try_Ok.
    pose proof Hins as (Hid & _ & Hd1)%insert_or_replace_Ok.
    assert (max_rowid (conversations d) ≤ sequence d)%Z as Hmax.
    { apply max_rowid_le; [lia|]. intros k Hk. apply Hkeys in Hk. lia. }
    assert (id = Z.of_nat (S n)) as Hid' by lia.
    split; [|split].
    + rewrite Hd1. cbn [sequence]. lia.
    + intros k [x Hx].
      apply (lookup_upserted _ _ _ _ _ _ _ _ _ Hins) in Hx as [[-> _]|(_ & Hx & _)].
      * rewrite Hd1. cbn [sequence]. lia.
      * assert (0 < k ≤ sequence d)%Z by eauto. rewrite Hd1. cbn [sequence]. lia.
    + intros _. by rewrite Hid'.
  - split; [|split]; [rewrite Hseq; lia | done | done].
Qed.

Lemma rowids_bounded_run `{CPython} (us : list upsert) (d : db) (n : nat) :
  sequence d = Z.of_nat n →
  (∀ k, is_Some (conversations d !! k) → (0 < k ≤ sequence d)%Z) →
  sequence (run_upserts d us) = Z.of_nat (n + length (writes d us)) ∧
  (∀ k, is_Some (conversations (run_upserts d us) !! k) →
        (0 < k ≤ sequence (run_upserts d us))%Z).
Proof.
  revert d n. induction us as [|u us IH]; intros d n Hseq Hkeys.
  - simpl. rewrite Nat.add_0_r. done.
  - destruct (rowids_bounded_upsert d u n Hseq Hkeys) as (Hseq' & Hkeys' & _).
    destruct (IH _ _ Hseq' Hkeys') as [Hs Hk].
    cbn [run_upserts foldl writes] in *. unfold run_upserts in *.
    split; [|done]. rewrite Hs, length_app.
    destruct (stored d u); simpl; lia.
Qed.

(** X4. Identifiers count the exchanges stored. After any sequence of
    upserts on a fresh store, an upsert that is stored returns the decimal
    numeral of one more than the number of upserts stored before it,
    whether or not it replaces a row; every rowid in use is between 1 and
    that number, so no identifier is given twice, and the table holds at
    most that many rows. *)
Theorem strategy_ids_count_writes `{CPython} (us : list upsert) (u : upsert) :
  stored (run_upserts init_database us) u = true →
  save_conversation (upsert_fault u) (upsert_now_iso u) (upsert_now_stamp u)
                    (run_upserts init_database us) (upsert_prompt u) (upsert_response u)
  = (Ok (str_of_Z (Z.of_nat (S (length (writes init_database us))))),
     apply_upsert (run_upserts init_database us) u) ∧
  (∀ k, is_Some (conversations (run_upserts init_database us) !! k) →
        (0 < k ≤ Z.of_nat (length (writes init_database us)))%Z) ∧
  size (conversations (run_upserts init_database us)) ≤ length (writes init_database us).
Proof.
  intros Hstored. set (d := run_upserts init_database us) in *.
  destruct (rowids_bounded_run us init_database 0 eq_refl) as [Hseq Hkeys].
  { intros k [x Hx]. change (conversations init_database) with (∅ : gmap Z row) in Hx.
    by rewrite lookup_empty in Hx. }
  fold d in Hseq, Hkeys. simpl in Hseq.
  destruct (rowids_bounded_upsert d u _ Hseq Hkeys) as (_ & _ & Htry).
  specialize (Htry Hstored). split; [|split].
  - unfold save_conversation. by rewrite Htry.
  - intros k Hk. rewrite <- Hseq. by apply Hkeys.
  - set (n := length (writes init_database us)) in *.
    assert (dom (conversations d) ⊆ (list_to_set (map Z.of_nat (seq 1 n)) : gset Z)) as Hsub.
    { intros k Hk. apply elem_of_dom in Hk. apply Hkeys in Hk.
      apply elem_of_list_to_set, list_elem_of_In, in_map_iff.
      exists (Z.to_nat k). split; [lia|]. apply in_seq. lia. }
    apply subseteq_size in Hsub. rewrite size_dom in Hsub.
    rewrite size_list_to_set, length_map, length_seq in Hsub; [done|].
    apply (NoDup_fmap_2 Z.of_nat), NoDup_ListNoDup, seq_NoDup.
Qed.

(** X5. Asking again discards feedback. When an exchange is stored for a
    prompt whose fingerprint a stored row already holds, that row is deleted
    with whatever score and earnings feedback gave it; the new row has a
    larger rowid, score 0 and earnings 0.0; and feedback sent to the old
    identifier afterwards is accepted and changes nothing. *)
Theorem upsert_resets_feedback `{CPython} (now_iso : str) (d d1 : db)
    (prompt response sid : str) (id0 : Z) (r0 : row) :
  save_conversation_try no_fault now_iso d prompt response = Ok (sid, d1) →
  conversations d !! id0 = Some r0 → fits_int64 id0 →
  get_prompt_hash prompt = Ok (row_prompt_hash r0) →
  conversations d1 !! id0 = None ∧
  ∃ id, sid = str_of_Z id ∧ (id0 < id)%Z ∧
    conversations d1 !! id
    = Some (Row (row_prompt_hash r0) prompt response now_iso 0 (Some 0%float)) ∧
    ∀ score earnings,
      fits_int64 score →
      submit_feedback no_fault d1 (str_of_Z id0) score earnings
      = (Http200 (FeedbackResponse feedback_submitted (str_of_Z id0)), d1).
Proof.
  intros (h & id & _ & Hh & _ & _ & _ & Hins & ->)%save_conversation_try_Ok Hr0 Hfit0 Hh0.
  rewrite Hh in Hh0. injection Hh0 as ->.
  pose proof Hins as (Hid & Hmax & Hd1)%insert_or_replace_Ok.
  assert (id0 ≤ max_rowid (conversations d))%Z as Hle by (apply max_rowid_ge; eauto).
  assert (conversations d1 !! id0 = None) as Hgone.
  { apply eq_None_not_Some. intros [x Hx].
    apply (lookup_upserted _ _ _ _ _ _ _ _ _ Hins) in Hx as [[-> _]|(_ & Hx & Hne)]; [lia|].
    rewrite Hr0 in Hx. by injection Hx as <-. }
  split; [done|]. exists id. split; [done|]. split; [lia|]. split.
  { apply (lookup_upserted _ _ _ _ _ _ _ _ _ Hins). by left. }
  intros score earnings Hfs. apply submit_feedback_Ok. split; [done|]. split; [done|].
  exists id0. split; [|split; [|split]]; try done.
  - apply int_str_of_Z. destruct Hfit0 as [Hlo Hhi].
    apply Z.le_lt_trans with (- int64_min)%Z; [unfold int64_min, int64_max in *; lia|].
    by vm_compute.
  - symmetry. by apply update_feedback_missing.
Qed.

(** ** The order of the recency queries *)

Lemma str_compare_antisym (a b : str) : str_compare b a = CompOpp (str_compare a b).
Proof.
  revert b. induction a as [|x a IH]; intros [|y b]; simpl; try done.
  rewrite (N.compare_antisym x y). destruct (x ?= y)%N; simpl; auto.
Qed.

Lemma str_compare_Eq (a b : str) : str_compare a b = Eq ↔ a = b.
Proof.
  revert b. induction a as [|x a IH]; intros [|y b]; simpl; try done.
  destruct (N.compare_spec x y) as [->|Hlt|Hgt].
  - rewrite IH. split; [by intros -> | by intros [= ->]].
  - split; [done | intros [= -> ->]; lia].
  - split; [done | intros [= -> ->]; lia].
Qed.

Lemma str_compare_Gt_trans (a b c : str) :
  str_compare a b = Gt → str_compare b c = Gt → str_compare a c = Gt.
Proof.
  revert b c. induction a as [|x a IH]; intros [|y b] [|z c]; simpl; try done.
  destruct (N.compare_spec x y) as [->|Hlt|Hgt]; try done.
  - destruct (N.compare_spec y z) as [->|Hlt|Hgt]; try done. apply IH.
  - destruct (N.compare_spec y z) as [->|Hlt'|Hgt']; try done.
    + intros _ _. destruct (N.compare_spec x z); try done; lia.
    + intros _ _. destruct (N.compare_spec x z); try done; lia.
Qed.

#[export] Instance newer_total : Total newer_rel.
Proof.
  intros a b. unfold newer_rel, newer.
  rewrite (str_compare_antisym (row_timestamp a.2) (row_timestamp b.2)).
  destruct (str_compare (row_timestamp a.2) (row_timestamp b.2)); simpl; auto.
  destruct (Z.leb_spec a.1 b.1), (Z.leb_spec b.1 a.1); auto; lia.
Qed.

#[export] Instance newer_trans : Transitive newer_rel.
Proof.
  intros a b c. unfold newer_rel, newer.
  destruct (str_compare (row_timestamp a.2) (row_timestamp b.2)) eqn:Hab; [|done|];
    destruct (str_compare (row_timestamp b.2) (row_timestamp c.2)) eqn:Hbc; try done.
  - apply str_compare_Eq in Hab, Hbc. rewrite Hab, Hbc.
    assert (str_compare (row_timestamp c.2) (row_timestamp c.2) = Eq) as ->
      by by apply str_compare_Eq.
    intros ?%Z.leb_le ?%Z.leb_le. apply Z.leb_le. lia.
  - apply str_compare_Eq in Hab. by rewrite Hab, Hbc.
  - apply str_compare_Eq in Hbc. by rewrite <- Hbc, Hab.
  - by rewrite (str_compare_Gt_trans _ _ _ Hab Hbc).
Qed.

Lemma newer_not_older (a b : Z * row) :
  newer_rel a b → str_compare (row_timestamp a.2) (row_timestamp b.2) ≠ Lt.
Proof. unfold newer_rel, newer. by destruct (str_compare _ _). Qed.

Lemma Sorted_weaken {A} (R R' : relation A) (l : list A) :
  (∀ x y, R x y → R' x y) → Sorted R l → Sorted R' l.
Proof.
  intros HR. induction 1 as [|x l Hl IH Hx]; constructor; [done|].
  destruct Hx; constructor; auto.
Qed.

(** What a query with [ORDER BY ... LIMIT n] returns, for a total order [R]
    that refines a transitive [R']: the rows returned are in the order [R'],
    each is a row of the table, none comes twice, and a row left out comes
    after every row returned. *)
Lemma order_limit {A} (R R' : relation A) `{∀ x y, Decision (R x y)}
    `{!Total R} `{!Transitive R'} (n : nat) (rows : list A) :
  (∀ x y, R x y → R' x y) →
  StronglySorted R' (take n (merge_sort R rows)) ∧
  take n (merge_sort R rows) `sublist_of` merge_sort R rows ∧
  merge_sort R rows ≡ₚ rows ∧
  length (take n (merge_sort R rows)) = n `min` length rows ∧
  (∀ y, y ∈ rows → y ∉ take n (merge_sort R rows) →
        length (take n (merge_sort R rows)) = n ∧
        ∀ x, x ∈ take n (merge_sort R rows) → R' x y).
Proof.
  intros HR.
  assert (StronglySorted R' (merge_sort R rows)) as Hsorted.
  { apply Sorted_StronglySorted; [done|].
    apply (Sorted_weaken R R'); [done|]. by apply Sorted_merge_sort. }
  pose proof (merge_sort_Permutation R rows) as Hperm.
  rewrite <- (take_drop n (merge_sort R rows)) in Hsorted.
  apply StronglySorted_app in Hsorted as (Hcross & Htake & _).
  split; [done|]. split; [apply sublist_take|]. split; [done|]. split.
  - by rewrite length_take, Hperm.
  - intros y Hy Hny.
    rewrite <- Hperm, <- (take_drop n (merge_sort R rows)) in Hy.
    apply elem_of_app in Hy as [Hy|Hy]; [done|]. split; [|by auto].
    rewrite length_take. apply Nat.min_l.
    destruct (decide (n ≤ length (merge_sort R rows))) as [|Hlt]; [done|].
    rewrite drop_ge in Hy by lia. by apply elem_of_nil in Hy.
Qed.

Lemma StronglySorted_lookup {A} (R : relation A) (l : list A) (i j : nat) (a b : A) :
  StronglySorted R l → i < j → l !! i = Some a → l !! j = Some b → R a b.
Proof.
  intros Hl. revert i j. induction Hl as [|x l Hl IH Hx]; intros i j Hij Ha Hb.
  - done.
  - destruct j as [|j]; [lia|]. destruct i as [|i]; simpl in *.
    + injection Ha as <-. rewrite Forall_forall in Hx. apply Hx.
      by eapply list_elem_of_lookup_2.
    + eapply IH; [|done..]. lia.
Qed.

(** ** The history *)

#[export] Instance better_total : Total Routes.better_rel.
Proof.
  intros a b. unfold Routes.better_rel, Routes.better.
  destruct (Z.ltb_spec (row_success_score b.2) (row_success_score a.2)); [auto|].
  destruct (Z.ltb_spec (row_success_score a.2) (row_success_score b.2)); [auto|].
  destruct (Routes.earnings_less (row_earnings b.2) (row_earnings a.2)); [auto|].
  destruct (Routes.earnings_less (row_earnings a.2) (row_earnings b.2)); [auto|].
  destruct (Z.leb_spec a.1 b.1), (Z.leb_spec b.1 a.1); auto; lia.
Qed.

#[export] Instance score_ge_trans : Transitive Routes.score_ge.
Proof. unfold Routes.score_ge. intros a b c. lia. Qed.

Lemma better_score_ge (a b : Z * row) : Routes.better_rel a b → Routes.score_ge a b.
Proof.
  unfold Routes.better_rel, Routes.better, Routes.score_ge.
  destruct (Z.ltb_spec (row_success_score b.2) (row_success_score a.2)); [lia|].
  destruct (Z.ltb_spec (row_success_score a.2) (row_success_score b.2)); [done|lia].
Qed.

Lemma get_history_Http200 (f : fault) (d : db) (r : Routes.HistoryResponse) :
  Routes.get_history f d = Http200 r →
  r = {| Routes.history_conversations := map Routes.conversation_of_row (Routes.select_recent d);
         Routes.total_strategies := length (Routes.select_recent d);
         Routes.top_performing := map Routes.top_of_row (Routes.select_top_performing d) |}.
Proof.
  unfold Routes.get_history, execute, connect.
  destruct f; result_simpl; congruence.
Qed.

(** X6. The history route answers 500 with the store's error exactly
    when connecting or the query fails (it never commits); otherwise
    [total_strategies] is the number of conversations listed, which is the
    smaller of 50 and the number of stored exchanges, and at most 10
    exchanges are listed as top performing. *)
Theorem get_history_answers (f : fault) (d : db) :
  match Routes.get_history f d with
  | Http200 r =>
      (f = no_fault ∨ f = commit_fails) ∧
      Routes.total_strategies r = length (Routes.history_conversations r) ∧
      Routes.total_strategies r = 50 `min` size (conversations d) ∧
      length (Routes.top_performing r) ≤ 10
  | Http500 e => (f = connect_fails ∨ f = execute_fails) ∧ e = OperationalError
  end.
Proof.
  destruct (Routes.get_history f d) as [r|e] eqn:Hget.
  - pose proof (get_history_Http200 _ _ _ Hget) as ->.
    cbn [Routes.total_strategies Routes.history_conversations Routes.top_performing].
    split; [|split; [|split]].
    + unfold Routes.get_history, execute, connect in Hget.
      destruct f; result_simpl; auto; discriminate.
    + by rewrite length_map.
    + unfold Routes.select_recent, order_by_timestamp_desc.
      by rewrite length_take, merge_sort_Permutation, length_map_to_list.
    + rewrite length_map. unfold Routes.select_top_performing.
      rewrite length_take. lia.
  - unfold Routes.get_history, execute, connect in Hget.
    destruct f; result_simpl; try discriminate; injection Hget as <-; auto.
Qed.

Lemma select_recent_spec (d : db) :
  StronglySorted newer_rel (Routes.select_recent d) ∧
  NoDup (Routes.select_recent d).*1 ∧
  (∀ k x, (k, x) ∈ Routes.select_recent d → conversations d !! k = Some x) ∧
  (∀ k y, conversations d !! k = Some y → (k, y) ∉ Routes.select_recent d →
          length (Routes.select_recent d) = 50 ∧
          ∀ x, x ∈ Routes.select_recent d → newer_rel x (k, y)).
Proof.
  unfold Routes.select_recent, order_by_timestamp_desc.
  destruct (order_limit newer_rel newer_rel 50 (map_to_list (conversations d)))
    as (Hsorted & Hsub & Hperm & _ & Hout); [done|].
  split; [done|]. split; [|split].
  - eapply sublist_NoDup; [|by apply fmap_sublist].
    rewrite Hperm. apply NoDup_fst_map_to_list.
  - intros k x Hin. apply elem_of_map_to_list. rewrite <- Hperm.
    by eapply elem_of_sublist.
  - intros k y Hy Hny. apply Hout; [|done].
    by apply elem_of_map_to_list.
Qed.

(** X7. Every conversation the history lists is a stored exchange, listed
    once, with its prompt, timestamp, score and earnings; its response is
    the first 200 characters of the stored response followed by three dots,
    also when nothing was cut. *)
Theorem get_history_conversations (f : fault) (d : db) (r : Routes.HistoryResponse) :
  Routes.get_history f d = Http200 r →
  NoDup (map Routes.conversation_id (Routes.history_conversations r)) ∧
  ∀ e, e ∈ Routes.history_conversations r →
    ∃ x, conversations d !! Routes.conversation_id e = Some x ∧
      Routes.conversation_prompt e = row_prompt x ∧
      Routes.conversation_timestamp e = row_timestamp x ∧
      Routes.conversation_success_score e = row_success_score x ∧
      Routes.conversation_earnings e = row_earnings x ∧
      Routes.conversation_response e = take 200 (row_response x) ++ lit "..." ∧
      length (Routes.conversation_response e) = 200 `min` length (row_response x) + 3 ∧
      (length (row_response x) ≤ 200 →
       Routes.conversation_response e = row_response x ++ lit "...").
Proof.
  intros ->%get_history_Http200. cbn [Routes.history_conversations].
  destruct (select_recent_spec d) as (_ & Hnodup & Hrows & _). split.
  - rewrite map_map. exact Hnodup.
  - intros e Hin. apply list_elem_of_fmap in Hin as [[k x] [-> Hin]].
    exists x. cbn. split; [by apply Hrows|]. repeat split.
    + by rewrite length_app, length_take.
    + intros Hlen. by rewrite take_ge.
Qed.

(** X8. The history lists conversations newest first (by the text order
    of the timestamps), and when a stored exchange is not listed then 50
    are, none of them older than it. *)
Theorem get_history_newest_first (f : fault) (d : db) (r : Routes.HistoryResponse) :
  Routes.get_history f d = Http200 r →
  (∀ i j a b, i < j →
     Routes.history_conversations r !! i = Some a →
     Routes.history_conversations r !! j = Some b →
     str_compare (Routes.conversation_timestamp a) (Routes.conversation_timestamp b) ≠ Lt) ∧
  (∀ k x, conversations d !! k = Some x →
     k ∉ map Routes.conversation_id (Routes.history_conversations r) →
     Routes.total_strategies r = 50 ∧
     ∀ e, e ∈ Routes.history_conversations r →
       str_compare (Routes.conversation_timestamp e) (row_timestamp x) ≠ Lt).
Proof.
  intros ->%get_history_Http200.
  cbn [Routes.history_conversations Routes.total_strategies].
  destruct (select_recent_spec d) as (Hsorted & _ & _ & Hout). split.
  - intros i j a b Hij Ha Hb.
    apply list_lookup_fmap_Some in Ha as (x & -> & Hx), Hb as (y & -> & Hy).
    apply (newer_not_older x y). by eapply StronglySorted_lookup.
  - intros k x Hx Hk.
    assert ((k, x) ∉ Routes.select_recent d) as Hnot.
    { intros Hin. apply Hk. rewrite map_map.
      apply list_elem_of_fmap. by exists (k, x). }
    destruct (Hout k x Hx Hnot) as [Hlen Hnewer]. split; [done|].
    intros e [y [-> Hy]]%list_elem_of_fmap.
    apply (newer_not_older y (k, x)). by apply Hnewer.
Qed.

Lemma select_top_performing_spec (d : db) :
  StronglySorted Routes.score_ge (Routes.select_top_performing d) ∧
  NoDup (Routes.select_top_performing d).*1 ∧
  (∀ k x, (k, x) ∈ Routes.select_top_performing d →
          conversations d !! k = Some x ∧ (0 < row_success_score x)%Z) ∧
  (∀ k y, conversations d !! k = Some y → (0 < row_success_score y)%Z →
          (k, y) ∉ Routes.select_top_performing d →
          length (Routes.select_top_performing d) = 10 ∧
          ∀ x, x ∈ Routes.select_top_performing d → Routes.score_ge x (k, y)).
Proof.
  unfold Routes.select_top_performing.
  set (rows := filter (λ kv : Z * row, (0 < row_success_score kv.2)%Z)
                      (map_to_list (conversations d))).
  destruct (order_limit Routes.better_rel Routes.score_ge 10 rows)
    as (Hsorted & Hsub & Hperm & _ & Hout); [apply better_score_ge|].
  split; [done|]. split; [|split].
  - eapply sublist_NoDup; [|by apply fmap_sublist].
    rewrite Hperm.
    apply (sublist_NoDup _ (map_to_list (conversations d)).*1);
      [apply NoDup_fst_map_to_list|].
    apply fmap_sublist, sublist_filter.
  - intros k x Hin.
    assert ((k, x) ∈ rows) as Hrows.
    { rewrite <- Hperm. by eapply elem_of_sublist. }
    apply list_elem_of_filter in Hrows as [Hpos Hrows].
    split; [by apply elem_of_map_to_list | done].
  - intros k y Hy Hpos Hny. apply Hout; [|done].
    apply list_elem_of_filter. split; [done|]. by apply elem_of_map_to_list.
Qed.

(** X9. The exchanges listed as top performing are stored exchanges with
    a positive score, each once, in order of decreasing score; when a stored
    exchange with a positive score is not listed then 10 are, none of them
    with a lower score. *)
Theorem get_history_top_performing (f : fault) (d : db) (r : Routes.HistoryResponse) :
  Routes.get_history f d = Http200 r →
  (∀ t, t ∈ Routes.top_performing r →
     (0 < Routes.top_success_score t)%Z ∧
     ∃ x, conversations d !! Routes.top_id t = Some x ∧
       Routes.top_prompt t = row_prompt x ∧
       Routes.top_success_score t = row_success_score x ∧
       Routes.top_earnings t = row_earnings x) ∧
  NoDup (map Routes.top_id (Routes.top_performing r)) ∧
  (∀ i j a b, i < j →
     Routes.top_performing r !! i = Some a → Routes.top_performing r !! j = Some b →
     (Routes.top_success_score b ≤ Routes.top_success_score a)%Z) ∧
  (∀ k x, conversations d !! k = Some x → (0 < row_success_score x)%Z →
     k ∉ map Routes.top_id (Routes.top_performing r) →
     length (Routes.top_performing r) = 10 ∧
     ∀ t, t ∈ Routes.top_performing r →
       (row_success_score x ≤ Routes.top_success_score t)%Z).
Proof.
  intros ->%get_history_Http200. cbn [Routes.top_performing].
  destruct (select_top_performing_spec d) as (Hsorted & Hnodup & Hrows & Hout).
  split; [|split; [|split]].
  - intros t [[k x] [-> Hin]]%list_elem_of_fmap. cbn.
    destruct (Hrows k x Hin) as [Hx Hpos]. split; [done|]. by exists x.
  - rewrite map_map. exact Hnodup.
  - intros i j a b Hij Ha Hb.
    apply list_lookup_fmap_Some in Ha as (x & -> & Hx), Hb as (y & -> & Hy).
    cbn. by apply (StronglySorted_lookup Routes.score_ge
                     (Routes.select_top_performing d) i j x y).
  - intros k x Hx Hpos Hk.
    assert ((k, x) ∉ Routes.select_top_performing d) as Hnot.
    { intros Hin. apply Hk. rewrite map_map.
      apply list_elem_of_fmap. by exists (k, x). }
    destruct (Hout k x Hx Hpos Hnot) as [Hlen Hge]. split.
    + by rewrite length_map.
    + intros t [y [-> Hy]]%list_elem_of_fmap. by apply (Hge y).
Qed.




(** ** The text after the last marker *)

Lemma split_str_from_nonempty (sep : str) (skip : nat) (cur s : str) :
  split_str_from sep skip cur s ≠ [].
Proof.
  revert skip cur. induction s as [|c s IH]; intros skip cur; simpl; [done|].
  destruct skip; [|apply IH]. destruct (startswith (c :: s) sep); [done|apply IH].
Qed.

Lemma last_cons_nonempty {A} (x d : A) (l : list A) :
  l ≠ [] → List.last (x :: l) d = List.last l d.
Proof. by destruct l. Qed.

Lemma split_str_from_skip (sep : str) (a cur t : str) :
  split_str_from sep (length a) cur (a ++ t) = split_str_from sep 0 cur t.
Proof. induction a as [|c a IH]; [done|]. simpl. apply IH. Qed.

Lemma contains_false_cons (c : char) (t sep : str) :
  contains (c :: t) sep = false → startswith (c :: t) sep = false ∧ contains t sep = false.
Proof. cbn [contains]. by intros [? ?]%orb_false_elim. Qed.

(** A text that does not hold the separator is one piece. *)
Lemma split_str_from_none (sep cur t : str) :
  contains t sep = false → split_str_from sep 0 cur t = [rev cur ++ t].
Proof.
  revert cur. induction t as [|c t IH]; intros cur Ht.
  - simpl. by rewrite app_nil_r.
  - apply contains_false_cons in Ht as [Hstart Ht].
    cbn [split_str_from]. unfold str, char in *. rewrite Hstart, IH by done.
    simpl. by rewrite <- app_assoc.
Qed.

(** The marker does not overlap itself: an occurrence that begins before
    another one ends before it. *)
Lemma marker_no_overlap (pre t : str) :
  startswith (pre ++ lit "Strategy:" ++ t) (lit "Strategy:") = true →
  pre = [] ∨ 9 ≤ length pre.
Proof.
  intros [r Hr]%startswith_spec.
  destruct pre as [|c1 [|c2 [|c3 [|c4 [|c5 [|c6 [|c7 [|c8 [|c9 pre]]]]]]]]];
    [by left|try discriminate Hr..|right; simpl; lia].
Qed.

Lemma split_str_echo_from (pre t cur : str) (skip : nat) :
  contains t (lit "Strategy:") = false → skip ≤ length pre →
  List.last (split_str_from (lit "Strategy:") skip cur (pre ++ lit "Strategy:" ++ t)) [] = t.
Proof.
  intros Ht. revert skip cur. induction pre as [|c pre IH]; intros skip cur Hskip.
  - assert (skip = 0) as -> by (simpl in Hskip; lia).
    change ([] ++ lit "Strategy:" ++ t)
      with (83%N :: (lit "trategy:" ++ t)).
    cbn [split_str_from].
    assert (startswith (83%N :: lit "trategy:" ++ t) (lit "Strategy:") = true) as ->.
    { apply startswith_spec. by exists t. }
    rewrite last_cons_nonempty by apply split_str_from_nonempty.
    change (length (lit "Strategy:") - 1) with (length (lit "trategy:")).
    rewrite split_str_from_skip, split_str_from_none by done. done.
  - change ((c :: pre) ++ lit "Strategy:" ++ t) with (c :: (pre ++ lit "Strategy:" ++ t)).
    cbn [split_str_from]. destruct skip as [|k].
    + destruct (startswith (c :: pre ++ lit "Strategy:" ++ t) (lit "Strategy:")) eqn:Hstart.
      * rewrite last_cons_nonempty by apply split_str_from_nonempty.
        apply IH.
        apply (marker_no_overlap (c :: pre) t) in Hstart as [?|Hlen]; [done|].
        simpl in *. lia.
      * apply IH. lia.
    + apply IH. simpl in Hskip. lia.
Qed.

Lemma enhanced_prompt_marker (prompt : str) :
  ∃ pre, enhanced_prompt prompt = pre ++ lit "Strategy:".
Proof.
  exists (lit "
As an expert financial strategist and entrepreneur, provide a detailed, actionable money-making strategy for: "
  ++ [QUOTE] ++ prompt ++ [QUOTE] ++ lit "

Consider these factors:
1. Timeline and realistic expectations
2. Required skills and resources
3. Step-by-step action plan
4. Potential earnings and ROI
5. Risk assessment and mitigation
6. Scalability options

").
  unfold enhanced_prompt. rewrite <- !app_assoc. reflexivity.
Qed.

(** X11. When the model's path runs and the generated text is the request
    text followed by a continuation that does not hold the marker
    [Strategy:], the strategy is the continuation, trimmed, whatever the
    prompt holds, the marker included. *)
Theorem generate_money_strategy_echo `{CPython} (self : AIEngine) (g : text_generator)
    (prompt continuation : str) :
  generator self = Some g → tokenizer self = true →
  g (enhanced_prompt prompt) = Ok (enhanced_prompt prompt ++ continuation) →
  contains continuation (lit "Strategy:") = false →
  generate_money_strategy self prompt = strip continuation.
Proof.
  intros Hg Htok Hgen Hcont. unfold generate_money_strategy.
  rewrite Hg, Htok. unfold mbind, result_bind, mret, result_ret.
  rewrite Hgen. cbv beta iota.
  destruct (enhanced_prompt_marker prompt) as [pre ->].
  rewrite <- app_assoc. unfold split_str.
  rewrite split_str_echo_from; [done..|lia].
Qed.

(** ** Trimming *)

Lemma drop_while_suffix (p : char → bool) (s : str) :
  ∃ a, s = a ++ drop_while p s.
Proof.
  induction s as [|c s [a IH]]; [by exists []|]. simpl.
  destruct (p c); [|by exists []]. exists (c :: a). simpl. by f_equal.
Qed.

Lemma drop_while_idem (p : char → bool) (s : str) :
  drop_while p (drop_while p s) = drop_while p s.
Proof.
  induction s as [|c s IH]; [done|]. simpl.
  destruct (p c) eqn:Hc; [done|]. simpl. by rewrite Hc.
Qed.

Lemma drop_while_head (p : char → bool) (s r : str) (c : char) :
  drop_while p s = c :: r → p c = false.
Proof.
  induction s as [|x s IH]; [done|]. simpl.
  destruct (p x) eqn:Hx; [done|]. by intros [= <- _].
Qed.

Lemma rstrip_with_prefix (p : char → bool) (s : str) :
  ∃ b, s = rstrip_with p s ++ b.
Proof.
  unfold rstrip_with. destruct (drop_while_suffix p (rev s)) as [a Ha].
  exists (rev a). rewrite <- rev_app_distr, <- Ha. by rewrite rev_involutive.
Qed.

Lemma strip_infix (s : str) : substring (strip s) s.
Proof.
  unfold strip, lstrip_with.
  destruct (drop_while_suffix is_space s) as [a Ha].
  destruct (rstrip_with_prefix is_space (drop_while is_space s)) as [b Hb].
  exists a, b. by rewrite <- Hb.
Qed.

Lemma rstrip_with_head (p : char → bool) (c : char) (s : str) :
  p c = false → ∃ s', rstrip_with p (c :: s) = c :: s'.
Proof.
  intros Hc. unfold rstrip_with, str, char in *. simpl.
  assert (∃ u, drop_while p (rev s ++ [c]) = u ++ [c]) as [u Hu].
  { induction (rev s) as [|x l IH]; simpl.
    - rewrite Hc. by exists [].
    - destruct (p x); [done|]. by exists (x :: l). }
  rewrite Hu, rev_app_distr. simpl. eauto.
Qed.

(** [s.strip().strip() == s.strip()] *)
Lemma strip_idem (s : str) : strip (strip s) = strip s.
Proof.
  unfold strip, lstrip_with.
  destruct (drop_while is_space s) as [|c r] eqn:Hdrop; [done|].
  pose proof (drop_while_head _ _ _ _ Hdrop) as Hc.
  destruct (rstrip_with_head is_space c r Hc) as [s' Hs'].
  unfold str, char in *. rewrite Hs'. simpl. rewrite Hc. rewrite <- Hs'.
  unfold rstrip_with. by rewrite rev_involutive, drop_while_idem.
Qed.

Lemma substring_trans (a b c : str) : substring a b → substring b c → substring a c.
Proof.
  intros (x & y & ->) (u & v & ->). exists (u ++ x), (y ++ v).
  by rewrite <- !app_assoc.
Qed.

Lemma substring_not_elem (a b : str) (c : char) : substring a b → c ∉ b → c ∉ a.
Proof.
  intros (x & y & ->) Hc Ha. apply Hc.
  apply elem_of_app. right. apply elem_of_app. by left.
Qed.

(** ** The text the model's path returns *)

Lemma split_str_last (c0 : char) (sep' s cur : str) (skip : nat) :
  (List.last (split_str_from (c0 :: sep') skip cur s) [] = rev cur ++ drop skip s ∧
   contains (drop skip s) (c0 :: sep') = false) ∨
  (∃ a, s = a ++ List.last (split_str_from (c0 :: sep') skip cur s) [] ∧
        contains (List.last (split_str_from (c0 :: sep') skip cur s) []) (c0 :: sep') = false).
Proof.
  remember (c0 :: sep') as sep eqn:Hsep. unfold str, char in *.
  revert skip cur. induction s as [|c s IH]; intros skip cur.
  - left. cbn [split_str_from List.last]. by rewrite drop_nil, app_nil_r, Hsep.
  - cbn [split_str_from]. destruct skip as [|k].
    + destruct (startswith (c :: s) sep) eqn:Hstart.
      * rewrite last_cons_nonempty by apply split_str_from_nonempty.
        right. destruct (IH (length sep - 1) []) as [[Heq Hnone]|[a [Heq Hnone]]].
        -- exists (c :: take (length sep - 1) s). split; [|by rewrite Heq].
           rewrite Heq. simpl. by rewrite take_drop.
        -- exists (c :: a). split; [|done]. simpl. by f_equal.
      * destruct (IH 0 (c :: cur)) as [[Heq Hnone]|[a [Heq Hnone]]].
        -- left. split.
           ++ rewrite Heq. simpl. by rewrite <- app_assoc.
           ++ rewrite drop_0 in *. cbn [contains].
              unfold str, char in *. by rewrite Hstart, Hnone.
        -- right. exists (c :: a). split; [|done]. simpl. by f_equal.
    + destruct (IH k cur) as [[Heq Hnone]|[a [Heq Hnone]]].
      * left. by split.
      * right. exists (c :: a). split; [|done]. simpl. by f_equal.
Qed.

Lemma contains_substring_false (a b sep : str) :
  substring a b → contains b sep = false → contains a sep = false.
Proof.
  intros Hab Hb. destruct (contains a sep) eqn:Ha; [|done].
  apply contains_spec in Ha.
  assert (contains b sep = true) as Hb'
    by (apply contains_spec; by eapply substring_trans).
  congruence.
Qed.

(** X12. Whenever the model's path runs and the generator returns a
    text, the strategy holds no marker [Strategy:], has no blank at either
    end, and is a part of the generated text. *)
Theorem generate_money_strategy_primary `{CPython} (self : AIEngine) (g : text_generator)
    (prompt generated_text : str) :
  generator self = Some g → tokenizer self = true →
  g (enhanced_prompt prompt) = Ok generated_text →
  contains (generate_money_strategy self prompt) (lit "Strategy:") = false ∧
  strip (generate_money_strategy self prompt) = generate_money_strategy self prompt ∧
  substring (generate_money_strategy self prompt) generated_text.
Proof.
  intros Hg Htok Hgen. unfold generate_money_strategy.
  rewrite Hg, Htok. unfold mbind, result_bind, mret, result_ret.
  rewrite Hgen. cbv beta iota. unfold split_str.
  change (lit "Strategy:") with (83%N :: lit "trategy:").
  pose proof (split_str_last 83%N (lit "trategy:") generated_text [] 0) as Hlast.
  unfold str, char in *.
  set (piece := List.last (split_str_from (83%N :: lit "trategy:") 0 [] generated_text) [])
    in *.
  assert (substring piece generated_text ∧ contains piece (83%N :: lit "trategy:") = false)
    as [Hsub Hnone].
  { destruct Hlast as [[Heq Hn]|[a [Heq Hn]]].
    - rewrite drop_0 in Heq, Hn.
      assert (piece = generated_text) as -> by exact Heq. split; [|exact Hn].
      exists [], []. by rewrite app_nil_r.
    - split; [|exact Hn]. exists a, []. rewrite app_nil_r. exact Heq. }
  split; [|split].
  - eapply contains_substring_false; [apply strip_infix|done].
  - apply strip_idem.
  - eapply substring_trans; [apply strip_infix|done].
Qed.

(** ** The suggested actions *)

Lemma split_char_nonempty (sep : char) (s : str) : split_char sep s ≠ [].
Proof.
  destruct s as [|c s]; simpl; [done|].
  destruct (c =? sep)%N; [done|]. by destruct (split_char sep s).
Qed.

Lemma join_cons_cons (sep p q : str) (rest : list str) :
  join sep (p :: q :: rest) = p ++ sep ++ join sep (q :: rest).
Proof. done. Qed.

(** [sep.join(s.split(sep)) == s] *)
Lemma join_split_char (sep : char) (s : str) : join [sep] (split_char sep s) = s.
Proof.
  induction s as [|c s IH]; [done|]. simpl.
  pose proof (split_char_nonempty sep s) as Hne.
  destruct (N.eqb_spec c sep) as [->|_].
  - destruct (split_char sep s) as [|h t]; [done|].
    rewrite join_cons_cons. by rewrite IH.
  - destruct (split_char sep s) as [|h t]; [done|].
    destruct t as [|h' t].
    + simpl in *. by rewrite <- IH.
    + rewrite join_cons_cons. rewrite join_cons_cons in IH. by rewrite <- IH.
Qed.

Lemma join_elem_substring (sep l : str) (parts : list str) :
  l ∈ parts → substring l (join sep parts).
Proof.
  induction parts as [|p parts IH]; [by intros ?%elem_of_nil|].
  destruct parts as [|q parts].
  - intros ->%list_elem_of_singleton. exists [], []. simpl. by rewrite app_nil_r.
  - rewrite join_cons_cons. intros [->|Hin]%elem_of_cons.
    + by exists [], (sep ++ join sep (q :: parts)).
    + destruct (IH Hin) as (a & b & ->).
      exists (p ++ sep ++ a), b. by rewrite <- !app_assoc.
Qed.

Lemma split_char_elem_no_sep (sep : char) (s l : str) :
  l ∈ split_char sep s → sep ∉ l.
Proof.
  revert l. induction s as [|c s IH]; intros l; simpl.
  - intros ->%list_elem_of_singleton. apply not_elem_of_nil.
  - destruct (N.eqb_spec c sep) as [->|Hne].
    + intros [->|Hin]%elem_of_cons; [apply not_elem_of_nil | by apply IH].
    + destruct (split_char sep s) as [|h t].
      * intros ->%list_elem_of_singleton. by intros ->%list_elem_of_singleton.
      * intros [->|Hin]%elem_of_cons.
        -- intros [->|Hin]%elem_of_cons; [done|]. apply (IH h); [by left | done].
        -- apply IH. by right.
Qed.

(** X13. Every suggested action is longer than 10 characters, has no
    blank at either end and no line break, and is a part of the strategy
    text. *)
Theorem suggested_actions_shape (strategy action : str) :
  action ∈ extract_suggested_actions strategy →
  10 < length action ∧ strip action = action ∧ (LF ∉ action) ∧
  substring action strategy.
Proof.
  unfold extract_suggested_actions. intros Hin.
  apply elem_of_take in Hin as (i & Hin & _).
  apply list_elem_of_lookup_2 in Hin.
  rewrite foldl_extract_step in Hin. simpl in Hin.
  apply list_elem_of_In, filter_In in Hin as [Hin Hlong].
  apply in_map_iff in Hin as (line & <- & Hin).
  apply filter_In in Hin as [Hin _].
  apply in_map_iff in Hin as (raw & <- & Hin).
  apply list_elem_of_In in Hin.
  pose proof (split_char_elem_no_sep _ _ _ Hin) as Hsep.
  assert (substring raw strategy) as Hraw.
  { pose proof (join_elem_substring [LF] raw _ Hin) as Hj.
    by rewrite join_split_char in Hj. }
  assert (substring (clean_action (strip raw)) raw) as Hclean.
  { unfold clean_action, lstrip_chars, lstrip_with.
    eapply substring_trans; [apply strip_infix|].
    eapply substring_trans; [|apply strip_infix].
    destruct (drop_while_suffix (char_in action_strip_chars) (strip raw)) as [a Ha].
    exists a, []. by rewrite app_nil_r. }
  split; [|split; [|split]].
  - unfold long_enough in Hlong. destruct (clean_action (strip raw)); [done|].
    by apply Nat.ltb_lt in Hlong.
  - apply strip_idem.
  - by eapply substring_not_elem.
  - by eapply substring_trans.
Qed.

(** ** The chat request, field by field *)

Lemma chat_completions_fields `{CPython} (env : environment) (ai_engine : AIEngine)
    (d d' : db) (request : ChatRequest) (r : ChatResponse) :
  chat_completions env ai_engine d request = (Http200 r, d') →
  ∃ tail,
    (if non_empty (get_similar_strategies (lookup_fault env) (lookup_altered env)
                     d (request_prompt request))
     then similar_note (get_similar_strategies (lookup_fault env)
                          (lookup_altered env) d (request_prompt request)) = Ok tail
     else tail = []) ∧
    save_conversation (save_fault env) (save_now_iso env) (save_now_stamp env) d
      (request_prompt request)
      (generate_money_strategy ai_engine (request_prompt request) ++ tail)
    = (Ok (strategy_id r), d') ∧
    response r = generate_money_strategy ai_engine (request_prompt request) ++ tail ∧
    confidence r
    = chat_confidence (model ai_engine)
        (non_empty (get_similar_strategies (lookup_fault env) (lookup_altered env)
                      d (request_prompt request))) ∧
    suggested_actions r
    = extract_suggested_actions
        (generate_money_strategy ai_engine (request_prompt request) ++ tail) ∧
    estimated_earnings r
    = estimate_earnings (request_prompt request)
        (generate_money_strategy ai_engine (request_prompt request) ++ tail) ∧
    timestamp r = respond_now_iso env.
Proof.
  intros Hchat.
  destruct (chat_completions_Http200 env ai_engine d d' request r Hchat)
    as (strategy & Hnoted & Hsave & ->).
  destruct (noted_strategy_Ok env ai_engine d request strategy Hnoted)
    as (tail & -> & Htail).
  exists tail. by repeat split.
Qed.

(** ** The actions of a fallback strategy *)

Lemma split_char_lines (lines : list str) (rest : str) :
  Forall (λ l, LF ∉ l) lines →
  split_char LF (flat_map (λ l, l ++ [LF]) lines ++ rest) = lines ++ split_char LF rest.
Proof.
  induction 1 as [|l lines Hl _ IH]; [done|].
  cbn [flat_map]. rewrite <- !app_assoc. cbn [app].
  rewrite split_char_app by done. by rewrite IH.
Qed.

Lemma extract_step_no_marker (actions : list str) (line : str) :
  has_action_prefix (strip line) = false → extract_step actions line = actions.
Proof. intros Hno. unfold extract_step. by rewrite Hno. Qed.

(** The first five steps of a plan, as its lines 2 to 6 read. *)
Lemma plan_steps (c : category) :
  ∃ rest,
    strategies c
    = LF :: flat_map (λ l, l ++ [LF]) (take 5 (drop 1 (split_char LF (strategies c)))) ++ rest ∧
    Forall (λ l, LF ∉ l) (take 5 (drop 1 (split_char LF (strategies c)))) ∧
    foldl extract_step [] (take 5 (drop 1 (split_char LF (strategies c))))
    = map (drop 3) (take 5 (drop 1 (split_char LF (strategies c)))) ∧
    length (take 5 (drop 1 (split_char LF (strategies c)))) = 5.
Proof.
  exists (drop (length (LF :: flat_map (λ l, l ++ [LF])
                          (take 5 (drop 1 (split_char LF (strategies c))))))
               (strategies c)).
  split; [|split; [|split]].
  - by destruct c; vm_compute.
  - apply Forall_forall. intros l Hl.
    apply (split_char_elem_no_sep LF (strategies c)).
    eapply elem_of_sublist; [exact Hl|].
    etrans; [apply sublist_take | apply sublist_drop].
  - by destruct c; vm_compute.
  - by destruct c; vm_compute.
Qed.

Lemma fallback_header_line (prompt : str) :
  has_action_prefix (strip (lit "**Money-Making Strategy for: " ++ prompt ++ lit "**"))
  = false.
Proof.
  assert (lit "**Money-Making Strategy for: " ++ prompt ++ lit "**"
          = 42%N :: (lit "*Money-Making Strategy for: " ++ prompt ++ lit "*") ++ [42%N]) as ->.
  { rewrite <- !app_assoc. reflexivity. }
  by rewrite strip_no_blank.
Qed.

Lemma extract_fallback_actions `{CPython} (self : AIEngine) (prompt tail : str) :
  LF ∉ prompt →
  extract_suggested_actions (generate_fallback_strategy self prompt ++ tail)
  = map (drop 3)
        (take 5 (drop 1 (split_char LF (strategies (fallback_category prompt))))).
Proof.
  intros Hprompt. unfold generate_fallback_strategy.
  destruct (plan_steps (fallback_category prompt)) as (rest & Hplan & Hlines & Hfold & Hlen).
  set (steps := take 5 (drop 1 (split_char LF (strategies (fallback_category prompt))))) in *.
  set (header := lit "**Money-Making Strategy for: " ++ prompt ++ lit "**").
  assert (fallback_header ++ prompt ++ lit "**

" ++ strategies (fallback_category prompt) ++ fallback_footer
          = flat_map (λ l, l ++ [LF]) ([] :: header :: [] :: [] :: steps)
            ++ (rest ++ fallback_footer)) as ->.
  { rewrite Hplan at 1. unfold header. cbn [app flat_map].
    rewrite <- !app_assoc. cbn [app]. reflexivity. }
  unfold extract_suggested_actions. rewrite <- app_assoc.
  rewrite split_char_lines.
  2:{ repeat (apply Forall_cons; split); try apply not_elem_of_nil; [|done].
      unfold header. rewrite !not_elem_of_app.
      split; [by apply char_in_false|]. split; [done | by apply char_in_false]. }
  rewrite foldl_app. cbn [foldl].
  rewrite (extract_step_no_marker [] []) by done.
  rewrite (extract_step_no_marker [] header) by apply fallback_header_line.
  rewrite !(extract_step_no_marker [] []) by done.
  rewrite Hfold, foldl_extract_step.
  rewrite take_app_length'; [done|]. by rewrite length_map.
Qed.

(** X14. Without a generator, for a prompt that holds no line break, the
    suggested actions of a chat response are the first five steps of the
    plan of the prompt's category, without their numbers, whatever the store
    holds and whether or not the note on similar queries was appended. *)
Theorem chat_fallback_actions `{CPython} (env : environment) (ai_engine : AIEngine)
    (d d' : db) (request : ChatRequest) (r : ChatResponse) :
  generator ai_engine = None → LF ∉ request_prompt request →
  chat_completions env ai_engine d request = (Http200 r, d') →
  suggested_actions r
  = map (drop 3)
        (take 5 (drop 1 (split_char LF
                           (strategies (fallback_category (request_prompt request)))))) ∧
  length (suggested_actions r) = 5.
Proof.
  intros Hgen Hprompt Hchat.
  destruct (chat_completions_fields env ai_engine d d' request r Hchat)
    as (tail & _ & _ & _ & _ & -> & _).
  assert (generate_money_strategy ai_engine (request_prompt request)
          = generate_fallback_strategy ai_engine (request_prompt request)) as ->.
  { unfold generate_money_strategy. by rewrite Hgen. }
  rewrite extract_fallback_actions by done. split; [done|].
  rewrite length_map.
  destruct (plan_steps (fallback_category (request_prompt request)))
    as (_ & _ & _ & _ & Hlen).
  exact Hlen.
Qed.

(** ** The lookup fails *)



(** The handler stores nothing for a text that cannot be encoded. *)
Lemma save_conversation_unencodable `{CPython} (f : fault) (now_iso now_stamp : str)
    (d : db) (prompt response : str) :
  ¬ encodable prompt ∨ ¬ encodable response →
  save_conversation f now_iso now_stamp d prompt response
  = (Ok (lit "temp_" ++ now_stamp), d).
Proof.
  intros Henc.
  destruct (save_conversation_cases f now_iso now_stamp d prompt response)
    as [(e & _ & Hsave) | (h & id & d2 & _ & _ & _ & Htry & _)]; [done|].
  apply save_conversation_try_Ok in Htry as (_ & _ & _ & _ & Hp & Hr & _).
  by destruct Henc.
Qed.

(** A response whose text cannot be encoded cannot be sent. *)
Lemma render_unencodable (r : ChatResponse) :
  ¬ encodable (response r) → render r = Raise UnicodeEncodeError.
Proof. intros Hr. unfold render. by rewrite (not_encodable _ Hr). Qed.

(** Without a model the response repeats the prompt: a prompt that cannot
    be encoded gets status 500, and the store stays as it was. *)
Lemma post_unencodable_fallback `{CPython} (env : environment) (ai_engine : AIEngine)
    (d : db) (request : ChatRequest) :
  ¬ encodable (request_prompt request) → generator ai_engine = None →
  ∃ e, post_chat_completions env ai_engine d request = (Http500 e, d).
Proof.
  intros Hprompt Hgen. unfold post_chat_completions.
  destruct (noted_strategy env ai_engine d request) as [strategy|e] eqn:Hnoted.
  - destruct (chat_completions_Ok env ai_engine d request strategy Hnoted)
      as (sid & d' & Hsave & Hchat).
    rewrite Hchat.
    destruct (noted_strategy_Ok env ai_engine d request strategy Hnoted)
      as (tail & -> & _).
    assert (¬ encodable (generate_money_strategy ai_engine (request_prompt request)
                         ++ tail)) as Hr.
    { unfold generate_money_strategy. rewrite Hgen.
      unfold generate_fallback_strategy.
      intros Hs. apply encodable_app in Hs as [Hs _].
      apply encodable_app in Hs as [_ Hs]. by apply encodable_app in Hs as [Hs _]. }
    rewrite (save_conversation_unencodable _ _ _ _ _ _ (or_intror Hr)) in Hsave.
    injection Hsave as <- <-.
    rewrite render_unencodable by exact Hr. by exists UnicodeEncodeError.
  - rewrite (chat_completions_Raise env ai_engine d request e Hnoted). by exists e.
Qed.

(** X16. A chat request whose prompt or response UTF-8 cannot encode (a
    lone surrogate) leaves the store unchanged, though the store is
    available: the handler returns its response with a temporary
    identifier. A response that holds such a text cannot be sent, and the
    client gets status 500; that is the case whenever the service runs
    without a model, for the fallback strategy repeats the prompt. *)
Theorem chat_unencodable_prompt `{CPython} (env : environment) (ai_engine : AIEngine)
    (d : db) (request : ChatRequest) :
  (∀ r d',
     ¬ encodable (request_prompt request) ∨ ¬ encodable (response r) →
     chat_completions env ai_engine d request = (Http200 r, d') →
     d' = d ∧ strategy_id r = lit "temp_" ++ save_now_stamp env) ∧
  (∀ r d',
     ¬ encodable (response r) →
     chat_completions env ai_engine d request = (Http200 r, d') →
     post_chat_completions env ai_engine d request = (Http500 UnicodeEncodeError, d)) ∧
  (¬ encodable (request_prompt request) → generator ai_engine = None →
   ∃ e, post_chat_completions env ai_engine d request = (Http500 e, d)).
Proof.
  assert (∀ r d',
     ¬ encodable (request_prompt request) ∨ ¬ encodable (response r) →
     chat_completions env ai_engine d request = (Http200 r, d') →
     d' = d ∧ strategy_id r = lit "temp_" ++ save_now_stamp env) as Hhandler.
  { intros r d' Henc Hchat.
    destruct (chat_completions_Http200 env ai_engine d d' request r Hchat)
      as (strategy & _ & Hsave & Hr).
    assert (response r = strategy) as Hresp by (by rewrite Hr).
    rewrite Hresp in Henc.
    rewrite (save_conversation_unencodable _ _ _ _ _ _ Henc) in Hsave.
    by injection Hsave as <- <-. }
  split; [exact Hhandler|]. split.
  - intros r d' Hr Hchat.
    destruct (Hhandler r d' (or_intror Hr) Hchat) as [-> _].
    unfold post_chat_completions. by rewrite Hchat, (render_unencodable r Hr).
  - apply post_unencodable_fallback.
Qed.

(** ** [LIKE] *)

Lemma like_percent_unfold (p t : str) :
  like (PERCENT :: p) t
  = like p t || match t with [] => false | _ :: t' => like (PERCENT :: p) t' end.
Proof. by destruct t. Qed.

Lemma like_other_unfold (q : char) (p t : str) :
  q ≠ PERCENT →
  like (q :: p) t
  = match t with [] => false | c :: t' => like_char q c && like p t' end.
Proof.
  intros Hq. cbn [like]. by destruct (N.eqb_spec q PERCENT).
Qed.

(** [%] stands for any run of characters. *)
Lemma like_percent (p t : str) :
  like (PERCENT :: p) t = true ↔ ∃ a b, t = a ++ b ∧ like p b = true.
Proof.
  split.
  - induction t as [|c t IH]; rewrite like_percent_unfold.
    + rewrite orb_false_r. intros Hp. by exists [], [].
    + intros [Hp|Ht]%orb_prop.
      * by exists [], (c :: t).
      * destruct (IH Ht) as (a & b & -> & Hb). by exists (c :: a), b.
  - intros (a & b & -> & Hb). induction a as [|c a IH]; rewrite like_percent_unfold.
    + simpl. by rewrite Hb.
    + cbn [app]. rewrite IH. apply orb_true_r.
Qed.



Lemma ascii_lower_char_idem (c : char) :
  ascii_lower_char (ascii_lower_char c) = ascii_lower_char c.
Proof.
  unfold ascii_lower_char, between.
  destruct (N.leb_spec 65 c), (N.leb_spec c 90); simpl; try done.
  - destruct (N.leb_spec 65 (c + 32)), (N.leb_spec (c + 32) 90); simpl; try done; lia.
  - destruct (N.leb_spec 65 c), (N.leb_spec c 90); simpl; try done; lia.
  - destruct (N.leb_spec 65 c), (N.leb_spec c 90); simpl; try done; lia.
  - destruct (N.leb_spec 65 c), (N.leb_spec c 90); simpl; try done; lia.
Qed.

Lemma ascii_lower_idem (s : str) : ascii_lower (ascii_lower s) = ascii_lower s.
Proof.
  unfold ascii_lower. rewrite map_map. apply map_ext. intros c. apply ascii_lower_char_idem.
Qed.

(** A pattern without wildcards matches its own characters, the ASCII
    letters in either case, and nothing else. *)
Lemma like_literal (w p t : str) :
  PERCENT ∉ w → UNDERSCORE ∉ w →
  like (w ++ p) t = true →
  ∃ w' t', t = w' ++ t' ∧ ascii_lower w' = ascii_lower w ∧ like p t' = true.
Proof.
  revert t. induction w as [|q w IH]; intros t Hpc Hus Hlike.
  - by exists [], t.
  - apply not_elem_of_cons in Hpc as [Hq Hpc], Hus as [Hq' Hus].
    cbn [app] in Hlike. rewrite like_other_unfold in Hlike by done.
    destruct t as [|c t]; [done|].
    apply andb_prop in Hlike as [Hc Hlike].
    destruct (IH t Hpc Hus Hlike) as (w' & t' & -> & Hw' & Hp).
    exists (c :: w'), t'. split; [done|]. split; [|done].
    unfold like_char in Hc. destruct (N.eqb_spec q UNDERSCORE); [done|].
    apply N.eqb_eq in Hc. cbn [ascii_lower map]. unfold ascii_lower in Hw'.
    by rewrite Hw', Hc.
Qed.

Lemma c_text_prefix (s : str) : ∃ cut, s = c_text s ++ cut.
Proof.
  induction s as [|c s [cut IH]]; [by exists []|]. simpl.
  destruct (c =? 0)%N; [by exists (c :: s)|]. exists cut. simpl. by f_equal.
Qed.


(** What [LOWER(prompt) LIKE '%word%'] says for a word without wildcards:
    the prompt holds the word, the ASCII letters in either case. *)
Lemma lower_prompt_like_literal (w : str) (r : row) :
  PERCENT ∉ w → UNDERSCORE ∉ w →
  lower_prompt_like w r = true →
  substring (ascii_lower w) (ascii_lower (row_prompt r)).
Proof.
  intros Hpc Hus Hlike. unfold lower_prompt_like, sql_lower in Hlike.
  cbn [app] in Hlike.
  apply like_percent in Hlike as (a & b & Ht & Hlike).
  apply like_literal in Hlike as (w' & t' & -> & Hw' & _); [|done..].
  destruct (c_text_prefix (ascii_lower (row_prompt r))) as [cut Hcut].
  rewrite Ht in Hcut.
  pose proof (ascii_lower_idem (row_prompt r)) as Hidem.
  rewrite Hcut in Hidem. unfold ascii_lower in Hidem.
  rewrite <- !app_assoc, !map_app in Hidem.
  apply app_inj_1 in Hidem as [_ Hidem]; [|by rewrite length_map].
  apply app_inj_1 in Hidem as [Hlow _]; [|by rewrite length_map].
  assert (ascii_lower w = w') as -> by (rewrite <- Hw'; exact Hlow).
  exists a, (t' ++ cut). by rewrite Hcut, <- !app_assoc.
Qed.

(** ** Words *)




(** X18. When the first five words of the lowered prompt are plain and
    hold no percent sign and no underscore, every exchange the lookup
    returns is a stored exchange whose prompt holds one of the words (ASCII
    letters in either case); no exchange is returned twice, and the
    exchanges come newest first. *)
Theorem similar_lookup_plain_words `{CPython} (f : fault) (altered : altered_query)
    (d : db) (prompt : str) :
  forallb plain_word (take 5 (split (lower prompt))) = true →
  (∀ w, w ∈ take 5 (split (lower prompt)) → (PERCENT ∉ w) ∧ (UNDERSCORE ∉ w)) →
  (∀ s, s ∈ get_similar_strategies f altered d prompt →
     ∃ k x, conversations d !! k = Some x ∧
       similar_id s = Integer k ∧
       similar_prompt s = Text (row_prompt x) ∧
       similar_response s = Text (row_response x) ∧
       similar_timestamp s = Text (row_timestamp x) ∧
       similar_success_score s = Integer (row_success_score x) ∧
       ∃ w, w ∈ take 5 (split (lower prompt)) ∧
            substring (ascii_lower w) (ascii_lower (row_prompt x))) ∧
  NoDup (map similar_id (get_similar_strategies f altered d prompt)) ∧
  (∀ i j a b, i < j →
     get_similar_strategies f altered d prompt !! i = Some a →
     get_similar_strategies f altered d prompt !! j = Some b →
     ∃ ta tb, similar_timestamp a = Text ta ∧ similar_timestamp b = Text tb ∧
              str_compare ta tb ≠ Lt).
Proof.
  intros Hplain Hwild.
  assert (get_similar_strategies f altered d prompt = []
          ∨ get_similar_strategies f altered d prompt
            = map (λ kv, similar_of_row (fetch kv))
                  (select_like d (take 5 (split (lower prompt)))))
    as [->| ->].
  { unfold get_similar_strategies, execute, connect. rewrite Hplain.
    destruct f; result_simpl; auto;
      destruct (take 5 (split (lower prompt))); result_simpl; auto;
      right; by rewrite map_map. }
  { split; [by intros s ?%elem_of_nil|]. split; [constructor|]. by intros i j a b _ ?. }
  set (words := take 5 (split (lower prompt))) in *.
  unfold select_like, order_by_timestamp_desc.
  set (rows := filter _ (map_to_list (conversations d))).
  destruct (order_limit newer_rel newer_rel 5 rows)
    as (Hsorted & Hsub & Hperm & _ & _); [done|].
  split; [|split].
  - intros s [[k x] [-> Hin]]%list_elem_of_fmap. cbn.
    assert ((k, x) ∈ rows) as Hrows.
    { rewrite <- Hperm. by eapply elem_of_sublist. }
    apply list_elem_of_filter in Hrows as [Hmatch Hrows].
    apply elem_of_map_to_list in Hrows. exists k, x. do 6 (split; [done|]).
    apply existsb_exists in Hmatch as (w & Hw & Hlike).
    apply list_elem_of_In in Hw. exists w. split; [done|].
    destruct (Hwild w Hw). by apply lower_prompt_like_literal.
  - rewrite map_map.
    change (map (λ x, similar_id (similar_of_row (fetch x))) ?l)
      with ((Integer ∘ fst) <$> l).
    rewrite list_fmap_compose. apply NoDup_fmap_2; [by intros ?? [= ->]|].
    eapply sublist_NoDup; [|by apply fmap_sublist].
    rewrite Hperm.
    apply (sublist_NoDup _ (map_to_list (conversations d)).*1);
      [apply NoDup_fst_map_to_list|].
    apply fmap_sublist, sublist_filter.
  - intros i j a b Hij Ha Hb.
    apply list_lookup_fmap_Some in Ha as (x & -> & Hx), Hb as (y & -> & Hy).
    exists (row_timestamp x.2), (row_timestamp y.2). do 2 (split; [done|]).
    apply (newer_not_older x y).
    by apply (StronglySorted_lookup newer_rel (take 5 (merge_sort newer_rel rows)) i j).
Qed.

(** ** The address of the API *)

Lemma drop_while_split (p : char → bool) (s : str) :
  ∃ a, s = a ++ drop_while p s ∧ Forall (λ c, p c = true) a.
Proof.
  induction s as [|c s (a & IH & Ha)]; [by exists []|]. simpl.
  destruct (p c) eqn:Hc; [|by exists []].
  exists (c :: a). split; [simpl; by f_equal | by constructor].
Qed.

Lemma rev_replicate {A} (n : nat) (x : A) : rev (replicate n x) = replicate n x.
Proof.
  induction n as [|n IH]; [done|].
  rewrite replicate_S_end at 2. simpl. by rewrite IH.
Qed.

(** [s.rstrip('/')] cuts a run of slashes from the end, and all of it. *)
Lemma rstrip_slashes (s : str) :
  (∃ k, s = rstrip_with (char_in [Config.SLASH]) s ++ replicate k Config.SLASH) ∧
  ∀ t, rstrip_with (char_in [Config.SLASH]) s ≠ t ++ [Config.SLASH].
Proof.
  unfold rstrip_with. split.
  - destruct (drop_while_split (char_in [Config.SLASH]) (rev s)) as (a & Ha & Hall).
    exists (length a).
    assert (a = replicate (length a) Config.SLASH) as Hrep.
    { clear Ha. induction Hall as [|c a Hc _ IH]; [done|]. simpl. rewrite <- IH.
      apply char_in_spec in Hc. apply list_elem_of_singleton in Hc. by rewrite Hc. }
    set (kept := drop_while (char_in [Config.SLASH]) (rev s)) in *.
    apply (f_equal (@rev char)) in Ha.
    rewrite rev_involutive, rev_app_distr in Ha.
    rewrite Ha at 1. f_equal. rewrite Hrep at 1. apply rev_replicate.
  - intros t Ht. apply (f_equal (@rev char)) in Ht.
    rewrite rev_involutive, rev_app_distr in Ht. simpl in Ht.
    by apply drop_while_head in Ht.
Qed.

Lemma prefix_without_slash (pre stored r : str) (k : nat) :
  Config.SLASH ∉ pre → stored ++ replicate k Config.SLASH = pre ++ r →
  ∃ r', stored = pre ++ r'.
Proof.
  revert stored. induction pre as [|c pre IH]; intros stored Hpre Heq.
  - by exists stored.
  - apply not_elem_of_cons in Hpre as [Hc Hpre]. destruct stored as [|x stored].
    + destruct k as [|k]; [done|]. simpl in Heq. injection Heq as Hx _. done.
    + simpl in Heq. injection Heq as -> Heq.
      destruct (IH stored Hpre Heq) as [r' ->]. by exists r'.
Qed.

(** X19. [update_api_url] refuses an address that does not validate and
    leaves the setting as it was; for one that validates it stores the
    address without its trailing slashes: the stored text ends in no slash,
    still begins with [http:] or [https:], and storing it again changes
    nothing when it validates. The stored text need not validate:
    [http:///////] is accepted and stored as [http:]. *)
Theorem update_api_url_spec (API_BASE_URL new_url : str) :
  (Config.validate_api_url new_url = false →
   Config.update_api_url API_BASE_URL new_url = (API_BASE_URL, false)) ∧
  (Config.validate_api_url new_url = true →
   ∃ stored k,
     Config.update_api_url API_BASE_URL new_url = (stored, true) ∧
     new_url = stored ++ replicate k Config.SLASH ∧
     (∀ t, stored ≠ t ++ [Config.SLASH]) ∧
     (startswith stored (lit "http:") = true ∨ startswith stored (lit "https:") = true) ∧
     (Config.validate_api_url stored = true →
      Config.update_api_url stored stored = (stored, true))) ∧
  ∃ url, Config.validate_api_url url = true ∧
         Config.validate_api_url (Config.update_api_url API_BASE_URL url).1 = false.
Proof.
  split; [|split].
  - intros Hno. unfold Config.update_api_url. by rewrite Hno.
  - intros Hyes. unfold Config.update_api_url. rewrite Hyes.
    destruct (rstrip_slashes new_url) as [[k Hk] Hend].
    set (stored := rstrip_with (char_in [Config.SLASH]) new_url) in *.
    exists stored, k. split; [done|]. split; [done|]. split; [done|]. split.
    + unfold Config.validate_api_url in Hyes.
      apply andb_prop in Hyes as [Hscheme _].
      apply orb_prop in Hscheme as [[r Hr]%startswith_spec|[r Hr]%startswith_spec].
      * left. apply startswith_spec.
        apply (prefix_without_slash (lit "http:") stored (lit "//" ++ r) k).
        -- by apply char_in_false.
        -- rewrite <- Hk, Hr. reflexivity.
      * right. apply startswith_spec.
        apply (prefix_without_slash (lit "https:") stored (lit "//" ++ r) k).
        -- by apply char_in_false.
        -- rewrite <- Hk, Hr. reflexivity.
    + intros Hvalid. rewrite Hvalid. f_equal.
      destruct (rstrip_slashes stored) as [[j Hj] _].
      destruct j as [|j]; [by rewrite app_nil_r in Hj|].
      exfalso. apply (Hend (rstrip_with (char_in [Config.SLASH]) stored
                            ++ replicate j Config.SLASH)).
      rewrite Hj at 1. rewrite <- app_assoc. f_equal. apply replicate_S_end.
  - exists (lit "http:///////"). split; [done|].
    unfold Config.update_api_url. by vm_compute.
Qed.

(** ** The price of a bundle *)

(** X20. The suggested price is between 500 and 5000 cents and a multiple
    of 100; it does not fall when the word count or the number of articles
    grows; it is 500 below 2000 words with at most one article, and when
    both counts are missing. *)
Theorem calculate_suggested_price_spec :
  (∀ data,
     (500 ≤ EbookBot.calculate_suggested_price data ≤ 5000)%Z ∧
     (100 | EbookBot.calculate_suggested_price data)%Z) ∧
  (∀ w1 w2 a1 a2,
     (w1 ≤ w2)%Z → (a1 ≤ a2)%Z →
     (EbookBot.calculate_suggested_price
        {| EbookBot.total_word_count := Some w1; EbookBot.article_count := Some a1 |}
      ≤ EbookBot.calculate_suggested_price
          {| EbookBot.total_word_count := Some w2; EbookBot.article_count := Some a2 |})%Z) ∧
  (∀ w a,
     (w < 2000)%Z → (a ≤ 1)%Z →
     EbookBot.calculate_suggested_price
       {| EbookBot.total_word_count := Some w; EbookBot.article_count := Some a |} = 500%Z) ∧
  EbookBot.calculate_suggested_price
    {| EbookBot.total_word_count := None; EbookBot.article_count := None |} = 500%Z.
Proof.
  split; [|split; [|split]].
  - intros data. unfold EbookBot.calculate_suggested_price. cbv zeta.
    set (p := (Z.max 5 _ + Z.max 0 _)%Z). split; [lia|].
    destruct (Z.le_gt_cases (p * 100) 5000) as [Hle|Hgt].
    + rewrite Z.min_r by done.
      destruct (Z.le_gt_cases 500 (p * 100)) as [Hle'|Hgt'].
      * rewrite Z.max_r by done. by exists p.
      * rewrite Z.max_l by lia. by exists 5%Z.
    + rewrite Z.min_l by lia. rewrite Z.max_r by lia. by exists 50%Z.
  - intros w1 w2 a1 a2 Hw Ha. unfold EbookBot.calculate_suggested_price. cbn.
    pose proof (Z.div_le_mono w1 w2 1000 ltac:(lia) Hw). lia.
  - intros w a Hw Ha. unfold EbookBot.calculate_suggested_price. cbn.
    assert (w / 1000 < 2)%Z by (apply Z.div_lt_upper_bound; lia). lia.
  - reflexivity.
Qed.

(** ** The health check *)

(** X21. The health check and the chat route read the same flag: for an
    engine as [load_model] leaves it, the health check reports [fallback] or
    the model's name, it reports [fallback] exactly when the confidence of a
    chat response is below 0.8, and then the response begins with the
    fallback strategy. *)
Theorem health_check_model `{CPython} (loaded : result text_generator) (env : environment)
    (d d' : db) (request : ChatRequest) (r : ChatResponse) (now_iso : str) :
  chat_completions env (load_model loaded) d request = (Http200 r, d') →
  (Routes.ai_model (Routes.health_check (load_model loaded) now_iso) = lit "fallback"
   ∨ Routes.ai_model (Routes.health_check (load_model loaded) now_iso)
     = lit "facebook/opt-1.3b") ∧
  (Routes.ai_model (Routes.health_check (load_model loaded) now_iso) = lit "fallback"
   ↔ (confidence r <? 0.8)%float = true) ∧
  (Routes.ai_model (Routes.health_check (load_model loaded) now_iso) = lit "fallback" →
   ∃ tail, response r
           = generate_fallback_strategy (load_model loaded) (request_prompt request) ++ tail).
Proof.
  intros Hchat.
  destruct (chat_completions_fields env (load_model loaded) d d' request r Hchat)
    as (tail & _ & _ & -> & -> & _).
  unfold Routes.health_check. cbn [Routes.ai_model].
  destruct loaded as [g|e]; cbn [load_model model].
  - split; [by right|]. split.
    + destruct (non_empty _); vm_compute; split; congruence.
    + intros Heq'. by vm_compute in Heq'.
  - split; [by left|]. split.
    + destruct (non_empty _); vm_compute; split; congruence.
    + intros _. by exists tail.
Qed.

(** ** The amount of the label *)

Lemma is_digit_not_comma `{CPython} (c : char) : is_digit c = true → c ≠ COMMA.
Proof.
  intros Hc ->. unfold is_digit in Hc. by rewrite decimal_ascii in Hc.
Qed.

Lemma remove_char_digits `{CPython} (l : str) :
  forallb is_digit l = true → remove_char COMMA l = l.
Proof.
  unfold remove_char, str, char in *. induction l as [|c l IH]; [done|].
  intros Hl. cbn [forallb] in Hl. apply andb_prop in Hl as [Hc Hl].
  rewrite filter_cons_True by by apply is_digit_not_comma. by rewrite IH.
Qed.

Lemma match_digits_all `{CPython} (s : str) : forallb is_digit (match_digits s) = true.
Proof.
  induction s as [|c s IH]; [done|]. simpl.
  destruct (is_digit c) eqn:Hc; [|done]. simpl. by rewrite Hc.
Qed.

Lemma match_thousands_digits `{CPython} (n : nat) (s : str) :
  length s ≤ n →
  forallb is_digit (remove_char COMMA (match_thousands s)) = true.
Proof.
  revert s. induction n as [|n IH]; intros s Hlen.
  - destruct s; [done | simpl in Hlen; lia].
  - destruct s as [|c [|d1 [|d2 [|d3 r]]]]; try done.
    cbn [match_thousands].
    destruct ((c =? COMMA)%N && is_digit d1 && is_digit d2 && is_digit d3) eqn:Hgroup;
      [|done].
    apply andb_prop in Hgroup as [Hgroup H3].
    apply andb_prop in Hgroup as [Hgroup H2].
    apply andb_prop in Hgroup as [Hc H1]. apply N.eqb_eq in Hc as ->.
    unfold remove_char, str, char in *.
    rewrite filter_cons_False by (intros Hne; by apply Hne).
    rewrite !filter_cons_True by by apply is_digit_not_comma.
    cbn [forallb]. rewrite H1, H2, H3. cbn [andb].
    apply IH. simpl in Hlen. lia.
Qed.

Lemma match_cents_shape `{CPython} (s : str) :
  match_cents s = [] ∨
  ∃ d1 d2, match_cents s = [DOT; d1; d2] ∧ is_digit d1 = true ∧ is_digit d2 = true.
Proof.
  unfold match_cents. destruct s as [|c [|d1 [|d2 r]]]; auto.
  destruct ((c =? DOT)%N && is_digit d1 && is_digit d2) eqn:Hgroup; auto.
  apply andb_prop in Hgroup as [Hgroup H2]. apply andb_prop in Hgroup as [Hc H1].
  apply N.eqb_eq in Hc as ->. right. by exists d1, d2.
Qed.

Lemma remove_char_app (c : char) (a b : str) :
  remove_char c (a ++ b) = remove_char c a ++ remove_char c b.
Proof. unfold remove_char, str, char in *. apply filter_app. Qed.

Lemma remove_char_cents `{CPython} (s : str) :
  remove_char COMMA (match_cents s) = match_cents s.
Proof.
  destruct (match_cents_shape s) as [->|(d1 & d2 & -> & H1 & H2)]; [done|].
  unfold remove_char, str, char in *.
  rewrite filter_cons_True by done.
  by rewrite !filter_cons_True by by apply is_digit_not_comma.
Qed.

Lemma findall_amounts_head `{CPython} (skip : nat) (s first : str) (rest : list str) :
  findall_amounts_from skip s = first :: rest → ∃ s', match_amount s' = Some first.
Proof.
  revert skip. induction s as [|c s IH]; intros skip; [done|]. cbn [findall_amounts_from].
  destruct skip as [|k]; [|apply IH].
  destruct (c =? DOLLAR)%N; [|apply IH].
  destruct (match_amount s) as [m|] eqn:Hm; [|apply IH].
  intros [= <- _]. by exists s.
Qed.

(** X22. When the prompt holds an amount, the label of the estimate is
    [Target: $], then one or more digits, then nothing or a dot and two
    digits, then [ (as specified)]: the thousands separators of the first
    amount are removed. *)
Theorem estimate_earnings_amount_shape `{CPython} (prompt strategy : str) :
  findall_amounts prompt ≠ [] →
  ∃ whole cents,
    estimate_earnings prompt strategy
    = lit "Target: $" ++ whole ++ cents ++ lit " (as specified)" ∧
    whole ≠ [] ∧ forallb is_digit whole = true ∧
    (cents = [] ∨
     ∃ d1 d2, cents = [DOT; d1; d2] ∧ is_digit d1 = true ∧ is_digit d2 = true).
Proof.
  intros Hfound. unfold estimate_earnings.
  destruct (findall_amounts prompt) as [|first rest] eqn:Hall; [done|].
  apply findall_amounts_head in Hall as [s Hs].
  unfold match_amount in Hs.
  destruct (match_digits s) as [|d ds] eqn:Hdigits; [done|].
  set (s1 := drop (length (d :: ds)) s) in *.
  set (s2 := drop (length (match_thousands s1)) s1) in *.
  assert (first = (d :: ds) ++ match_thousands s1 ++ match_cents s2) as ->.
  { by injection Hs as <-. }
  clear Hs.
  pose proof (match_digits_all s) as Hd. rewrite Hdigits in Hd.
  pose proof (match_thousands_digits (length s1) s1 ltac:(done)) as Ht.
  exists ((d :: ds) ++ remove_char COMMA (match_thousands s1)), (match_cents s2).
  split; [|split; [|split]].
  - rewrite !remove_char_app, (remove_char_digits (d :: ds)), remove_char_cents by done.
    by rewrite <- !app_assoc.
  - done.
  - rewrite forallb_app. apply andb_true_intro. split; [exact Hd | exact Ht].
  - apply match_cents_shape.
Qed.

(** ** The note on similar queries, read as actions *)

Lemma split_char_app_sep (sep : char) (a b : str) :
  split_char sep (a ++ sep :: b) = split_char sep a ++ split_char sep b.
Proof.
  induction a as [|c a IH]; cbn [app split_char].
  - by rewrite N.eqb_refl.
  - destruct (N.eqb_spec c sep) as [->|_].
    + by rewrite IH.
    + rewrite IH. pose proof (split_char_nonempty sep a) as Hne.
      by destruct (split_char sep a).
Qed.

(** The line of the note for a similar prompt, as the extraction reads it. *)
Lemma extract_step_note_line (actions : list str) (k : char) (p : str) :
  k = 49%N ∨ k = 50%N →
  extract_step actions (k :: lit ". Previous approach: " ++ p ++ lit "...")
  = actions ++ [lit "Previous approach: " ++ p ++ lit "..."].
Proof.
  intros Hk.
  remember (k :: lit ". Previous approach: " ++ p ++ lit "...") as line eqn:Hline.
  remember (lit "Previous approach: " ++ p ++ lit "...") as action eqn:Haction.
  assert (line = k :: (lit ". Previous approach: " ++ p ++ lit "..") ++ [46%N]) as Hform.
  { rewrite Hline, <- !app_assoc. reflexivity. }
  assert (action = 80%N :: (lit "revious approach: " ++ p ++ lit "..") ++ [46%N]) as Hform'.
  { rewrite Haction, <- !app_assoc. reflexivity. }
  assert (is_space k = false) as Hsp by (by destruct Hk as [-> | ->]).
  assert (strip line = line) as Hstrip.
  { rewrite Hform. by apply strip_no_blank. }
  assert (has_action_prefix line = true) as Hmark.
  { rewrite Hline. by destruct Hk as [-> | ->]. }
  assert (clean_action line = action) as Hclean.
  { unfold clean_action, lstrip_chars, lstrip_with.
    assert (drop_while (char_in action_strip_chars) line = action) as ->.
    { rewrite Hline, Haction. by destruct Hk as [-> | ->]. }
    rewrite Hform'. by apply strip_no_blank. }
  assert (long_enough action = true) as Hlong.
  { rewrite Hform'. unfold long_enough. apply Nat.ltb_lt.
    cbn [length]. rewrite !length_app. simpl. lia. }
  unfold extract_step. by rewrite Hstrip, Hmark, Hclean, Hlong.
Qed.

(** The first line of the note. *)
Lemma note_header (n : N) :
  (LF ∉ lit "**" ++ [CHART] ++ lit " Based on " ++ str_of_N n
        ++ lit " similar queries, here are additional insights:**") ∧
  has_action_prefix
    (strip (lit "**" ++ [CHART] ++ lit " Based on " ++ str_of_N n
            ++ lit " similar queries, here are additional insights:**")) = false.
Proof.
  split.
  - rewrite !not_elem_of_app. split; [by apply char_in_false|].
    split; [by apply char_in_false|]. split; [by apply char_in_false|].
    split; [|by apply char_in_false].
    unfold str_of_N. intros Hin.
    pose proof (numeral_chars (N.to_uint n)) as Hd.
    rewrite Forall_forall in Hd. by apply Hd in Hin.
  - assert (lit "**" ++ [CHART] ++ lit " Based on " ++ str_of_N n
            ++ lit " similar queries, here are additional insights:**"
            = 42%N :: (lit "*" ++ [CHART] ++ lit " Based on " ++ str_of_N n
                       ++ lit " similar queries, here are additional insights:*")
              ++ [42%N]) as ->.
    { rewrite <- !app_assoc. reflexivity. }
    by rewrite strip_no_blank.
Qed.

(** The note, line by line, when the prompts of the first two similar
    exchanges are texts. *)
Lemma similar_note_lines (similar_strategies : list similar) (prompts : list str) :
  similar_strategies ≠ [] →
  map similar_prompt (take 2 similar_strategies) = map Text prompts →
  similar_note similar_strategies
  = Ok (LF :: flat_map (λ l, l ++ [LF])
            ([] :: (lit "**" ++ [CHART] ++ lit " Based on "
                    ++ str_of_N (N.of_nat (length similar_strategies))
                    ++ lit " similar queries, here are additional insights:**")
                :: imap (λ i p, str_of_N (N.of_nat (S i)) ++ lit ". Previous approach: "
                                ++ take 100 p ++ lit "...")
                        prompts)).
Proof.
  intros Hne Hprompts. unfold similar_note, note_heading.
  destruct similar_strategies as [|s1 [|s2 rest]]; [done|..].
  - change (take 2 [s1]) with [s1] in *.
    destruct prompts as [|p1 [|p2 prompts]]; try discriminate.
    injection Hprompts as Hp1.
    cbn [enumerate mapM]. unfold note_line. cbn [snd fst]. rewrite Hp1.
    unfold mbind, result_bind, mret, result_ret. cbn [slice_100].
    cbn [flat_map imap concat]. rewrite <- !app_assoc. reflexivity.
  - change (take 2 (s1 :: s2 :: rest)) with [s1; s2] in *.
    destruct prompts as [|p1 [|p2 [|p3 prompts]]]; try discriminate.
    injection Hprompts as Hp1 Hp2.
    cbn [enumerate mapM]. unfold note_line. cbn [snd fst]. rewrite Hp1, Hp2.
    unfold mbind, result_bind, mret, result_ret. cbn [slice_100].
    cbn [flat_map imap concat compose]. rewrite <- !app_assoc. reflexivity.
Qed.

(** X23. The lines of the note on similar queries are numbered, so the
    extraction reads them as actions: the suggested actions of a chat
    response are the first five of the actions in the generated strategy
    followed by one entry, Previous approach and the prompt cut to 100
    characters, for each of the first two similar exchanges (whose prompts
    are texts, and hold no line break once cut). *)
Theorem chat_note_actions `{CPython} (env : environment) (ai_engine : AIEngine)
    (d d' : db) (request : ChatRequest) (r : ChatResponse) (prompts : list str) :
  get_similar_strategies (lookup_fault env) (lookup_altered env) d (request_prompt request)
  ≠ [] →
  map similar_prompt
      (take 2 (get_similar_strategies (lookup_fault env) (lookup_altered env) d
                 (request_prompt request)))
  = map Text prompts →
  Forall (λ p, LF ∉ take 100 p) prompts →
  chat_completions env ai_engine d request = (Http200 r, d') →
  suggested_actions r
  = take 5 (foldl extract_step []
              (split_char LF (generate_money_strategy ai_engine (request_prompt request)))
            ++ map (λ p, lit "Previous approach: " ++ take 100 p ++ lit "...") prompts).
Proof.
  intros Hfound Hprompts Hlf Hchat.
  destruct (chat_completions_fields env ai_engine d d' request r Hchat)
    as (tail & Htail & _ & _ & _ & -> & _).
  set (similar := get_similar_strategies _ _ d (request_prompt request)) in *.
  set (gen := generate_money_strategy ai_engine (request_prompt request)).
  assert (non_empty similar = true) as Hne by (by destruct similar).
  rewrite Hne in Htail.
  rewrite (similar_note_lines similar prompts Hfound Hprompts) in Htail.
  match type of Htail with
  | Ok ?note = Ok _ => assert (tail = note) as -> by congruence
  end.
  clear Htail.
  destruct (note_header (N.of_nat (length similar))) as [Hhdr Hnomark].
  set (header := lit "**" ++ [CHART] ++ lit " Based on "
                 ++ str_of_N (N.of_nat (length similar))
                 ++ lit " similar queries, here are additional insights:**") in *.
  assert (length prompts ≤ 2) as Hlen.
  { apply (f_equal length) in Hprompts. rewrite !length_map, length_take in Hprompts. lia. }
  unfold extract_suggested_actions. f_equal.
  rewrite split_char_app_sep.
  rewrite <- (app_nil_r (flat_map _ _)).
  assert (Forall (λ l, LF ∉ l)
            (imap (λ i p, str_of_N (N.of_nat (S i)) ++ lit ". Previous approach: "
                          ++ take 100 p ++ lit "...")
                  prompts)) as Hlines.
  { apply Forall_lookup. intros i line Hline.
    apply list_lookup_imap_Some in Hline as (p & Hp & ->).
    rewrite Forall_lookup in Hlf. specialize (Hlf i p Hp).
    rewrite !not_elem_of_app.
    split; [|split; [by apply char_in_false | split; [done | by apply char_in_false]]].
    unfold str_of_N. intros Hin.
    pose proof (numeral_chars (N.to_uint (N.of_nat (S i)))) as Hd.
    rewrite Forall_forall in Hd. by apply Hd in Hin. }
  rewrite split_char_lines.
  2:{ apply Forall_cons. split; [apply not_elem_of_nil|].
      apply Forall_cons. split; [done | exact Hlines]. }
  rewrite !foldl_app. cbn [split_char foldl].
  rewrite (extract_step_no_marker _ []) by done.
  rewrite (extract_step_no_marker _ header) by done.
  rewrite (extract_step_no_marker _ []) by done.
  generalize (foldl extract_step [] (split_char LF gen)). intros actions.
  clear -Hlen. destruct prompts as [|p1 [|p2 [|p3 prompts]]].
  - cbn [imap foldl map]. by rewrite app_nil_r.
  - cbn [imap foldl map].
    exact (extract_step_note_line actions 49%N (take 100 p1) (or_introl eq_refl)).
  - cbn [imap foldl map compose].
    change (str_of_N (N.of_nat 1) ++ ?x) with (49%N :: x).
    change (str_of_N (N.of_nat 2) ++ ?x) with (50%N :: x).
    rewrite (extract_step_note_line actions 49%N) by (by left).
    rewrite (extract_step_note_line _ 50%N) by (by right).
    by rewrite <- app_assoc.
  - simpl in Hlen. lia.
Qed.

(** ** A row the lookup cannot have read from the table *)

(** Slicing raises [TypeError], nothing else. *)
Lemma note_line_Raise (item : N * similar) (e : exn) :
  note_line item = Raise e → e = TypeError.
Proof.
  unfold note_line. destruct (similar_prompt item.2); result_simpl; congruence.
Qed.

Lemma note_line_unsliceable (item : N * similar) :
  (∀ t, similar_prompt item.2 ≠ Text t) → (∀ b, similar_prompt item.2 ≠ Blob b) →
  note_line item = Raise TypeError.
Proof.
  intros Htext Hblob. unfold note_line.
  destruct (similar_prompt item.2) as [| | |t|b]; result_simpl; try done.
  - by destruct (Htext t).
  - by destruct (Hblob b).
Qed.

(** The note cannot be built when one of the first two prompts cannot be
    sliced. *)
Lemma similar_note_unsliceable (similar_strategies : list similar) (s : similar) :
  s ∈ take 2 similar_strategies →
  (∀ t, similar_prompt s ≠ Text t) → (∀ b, similar_prompt s ≠ Blob b) →
  similar_note similar_strategies = Raise TypeError.
Proof.
  intros Hin Htext Hblob. unfold similar_note.
  destruct similar_strategies as [|s1 [|s2 rest]].
  - by apply elem_of_nil in Hin.
  - change (take 2 [s1]) with [s1] in *. apply list_elem_of_singleton in Hin as ->.
    cbn [enumerate mapM].
    rewrite (note_line_unsliceable (1%N, s1)) by done. done.
  - change (take 2 (s1 :: s2 :: rest)) with [s1; s2] in *.
    cbn [enumerate mapM].
    destruct (note_line (1%N, s1)) as [l1|e] eqn:H1.
    + apply elem_of_cons in Hin as [->|Hin].
      * by rewrite (note_line_unsliceable (1%N, s1)) in H1.
      * apply list_elem_of_singleton in Hin as ->.
        rewrite (note_line_unsliceable ((1 + 1)%N, s2)) by done. done.
    + by rewrite (note_line_Raise _ _ H1).
Qed.

(** X24. When one of the first two exchanges the lookup returns has a
    prompt that is a number or NULL, as a statement altered by a quote in
    the prompt can return, slicing the prompt raises [TypeError] while the
    note is built: the handler raises before the upsert is called, the
    client gets status 500, and the store is unchanged. *)
Theorem chat_unsliceable_prompt `{CPython} (env : environment) (ai_engine : AIEngine)
    (d : db) (request : ChatRequest) (s : similar) :
  s ∈ take 2 (get_similar_strategies (lookup_fault env) (lookup_altered env) d
                (request_prompt request)) →
  (∀ t, similar_prompt s ≠ Text t) → (∀ b, similar_prompt s ≠ Blob b) →
  chat_completions env ai_engine d request = (Http500 TypeError, d) ∧
  post_chat_completions env ai_engine d request = (Http500 TypeError, d).
Proof.
  intros Hin Htext Hblob.
  assert (noted_strategy env ai_engine d request = Raise TypeError) as Hnoted.
  { unfold noted_strategy.
    destruct (get_similar_strategies _ _ d (request_prompt request)) as [|s1 rest] eqn:Hs.
    - by apply elem_of_nil in Hin.
    - cbn [non_empty].
      by rewrite (similar_note_unsliceable (s1 :: rest) s Hin Htext Hblob). }
  pose proof (chat_completions_Raise env ai_engine d request TypeError Hnoted) as Hchat.
  split; [exact Hchat|]. unfold post_chat_completions. by rewrite Hchat.
Qed.

(** ** The suggested actions, in the words of the specification *)

(** The prefixes the code tests are the markers the specification lists. *)
Lemma has_action_prefix_marked (line : str) :
  has_action_prefix (strip line) = true ↔ ∃ rest, marked line rest.
Proof.
  unfold has_action_prefix, marked. change action_prefixes with markers.
  rewrite existsb_exists. split.
  - intros (m & Hm & [rest Hr]%startswith_spec). exists rest, m.
    split; [by apply list_elem_of_In | done].
  - intros (rest & m & Hm & Hr). exists m.
    split; [by apply list_elem_of_In|]. apply startswith_spec. by exists rest.
Qed.

Lemma drop_while_app_all (p : char → bool) (a b : str) :
  Forall (λ c, p c = true) a → drop_while p (a ++ b) = drop_while p b.
Proof. induction 1 as [|c a Hc _ IH]; [done|]. simpl. by rewrite Hc. Qed.

(** A marker is made of characters that [lstrip] removes. *)
Lemma marker_removed (m : str) :
  m ∈ markers → Forall (λ c, char_in action_strip_chars c = true) m.
Proof.
  unfold markers. rewrite !elem_of_cons, elem_of_nil.
  intros [->|[->|[->|[->|[->|[->|[->|[]]]]]]]]; by repeat constructor.
Qed.

(** [lstrip] stops where the text of a plain action begins, or in the
    blanks before it. *)
Lemma lstrip_chars_plain (rest : str) :
  plain_action (strip rest) →
  drop_while is_space (drop_while (char_in action_strip_chars) rest)
  = drop_while is_space rest.
Proof.
  unfold strip, lstrip_with. induction rest as [|c rest IH]; [done|].
  cbn [drop_while]. destruct (is_space c) eqn:Hsp.
  - intros Hplain. destruct (char_in action_strip_chars c); [by apply IH|].
    cbn [drop_while]. by rewrite Hsp.
  - intros Hplain. destruct (rstrip_with_head is_space c rest Hsp) as [s' Hs'].
    unfold str, char in *. rewrite Hs' in Hplain. cbn [plain_action] in Hplain.
    assert (char_in action_strip_chars c = false) as ->.
    { rewrite action_strip_chars_spec, (is_space_32 c Hsp), orb_false_r.
      destruct (char_in marker_chars c) eqn:Hc; [|done].
      by apply char_in_spec in Hc. }
    cbn [drop_while]. by rewrite Hsp.
Qed.

(** Behind a marker, cleaning leaves the text of a plain action, trimmed. *)
Lemma clean_action_marked (line rest : str) :
  marked line rest → plain_action (strip rest) →
  clean_action (strip line) = strip rest.
Proof.
  intros (m & Hm & ->) Hplain.
  unfold clean_action, lstrip_chars, lstrip_with.
  rewrite drop_while_app_all by by apply marker_removed.
  unfold strip, lstrip_with. by rewrite lstrip_chars_plain.
Qed.

(** The loop collects the actions of the lines, in order. *)
Lemma foldl_extract_step_actions (lines actions : list str) :
  actions_of lines actions →
  ∀ collected, foldl extract_step collected lines = collected ++ actions.
Proof.
  induction 1 as [|line lines actions Hno _ IH
                  |line rest lines actions Hmark Hplain Hlen _ IH
                  |line rest lines actions Hmark Hplain Hlen _ IH];
    intros collected; cbn [foldl].
  - by rewrite app_nil_r.
  - rewrite IH. f_equal. unfold extract_step.
    destruct (has_action_prefix (strip line)) eqn:Hp; [|done].
    apply has_action_prefix_marked in Hp as [rest Hrest]. by destruct (Hno rest).
  - rewrite IH. unfold extract_step.
    assert (has_action_prefix (strip line) = true) as ->.
    { apply has_action_prefix_marked. by exists rest. }
    rewrite (clean_action_marked line rest Hmark Hplain).
    assert (long_enough (strip rest) = true) as ->.
    { unfold long_enough. destruct (strip rest); [simpl in Hlen; lia|].
      by apply Nat.ltb_lt. }
    by rewrite <- app_assoc.
  - rewrite IH. f_equal. unfold extract_step.
    assert (has_action_prefix (strip line) = true) as ->.
    { apply has_action_prefix_marked. by exists rest. }
    rewrite (clean_action_marked line rest Hmark Hplain).
    assert (long_enough (strip rest) = false) as ->; [|done].
    unfold long_enough. destruct (strip rest); [done|].
    apply Nat.ltb_ge. lia.
Qed.

Lemma not_marked (line : str) :
  has_action_prefix (strip line) = false → ∀ rest, ¬ marked line rest.
Proof.
  intros Hno rest Hmark.
  assert (has_action_prefix (strip line) = true) as Hyes.
  { apply has_action_prefix_marked. by exists rest. }
  congruence.
Qed.

(** Lines whose actions are all plain have their actions. *)
Lemma actions_of_exists (lines : list str) :
  (∀ line rest, line ∈ lines → marked line rest → plain_action (strip rest)) →
  ∃ actions, actions_of lines actions.
Proof.
  induction lines as [|line lines IH]; intros Hplain.
  - exists []. constructor.
  - destruct IH as [actions Hactions].
    { intros l rest Hl. apply Hplain. by right. }
    destruct (has_action_prefix (strip line)) eqn:Hp.
    + apply has_action_prefix_marked in Hp as [rest Hrest].
      assert (plain_action (strip rest)) as Hpl by (apply (Hplain line); [by left | done]).
      destruct (le_lt_dec (length (strip rest)) 10).
      * exists actions. by eapply actions_of_short.
      * exists (strip rest :: actions). by eapply actions_of_kept.
    + exists actions. apply actions_of_other; [by apply not_marked | done].
Qed.

(** C6, as amended. [extract_suggested_actions] returns the first 5, in the
    order of the text, of the actions of its lines: a line that, trimmed,
    starts with [1.] to [5.], a dash or a bullet gives the text behind the
    marker, trimmed, when that text is longer than 10 characters; any other
    line gives none. This is said of the texts in which no action begins
    with a character of a marker, and every such text has its actions. On
    seven lines numbered 1 to 7 whose texts are clean and longer than 10
    characters it returns the first five texts. *)
Theorem extract_suggested_actions_spec :
  (∀ text actions,
     actions_of (split_char LF text) actions →
     extract_suggested_actions text = take 5 actions) ∧
  (∀ text,
     (∀ line rest, line ∈ split_char LF text → marked line rest →
                   plain_action (strip rest)) →
     ∃ actions, actions_of (split_char LF text) actions) ∧
  (∀ text, length (extract_suggested_actions text) ≤ 5) ∧
  (∀ bodies,
     length bodies = 7 →
     Forall (λ b, clean_text b ∧ 10 < length b) bodies →
     extract_suggested_actions (numbered_lines bodies) = take 5 bodies).
Proof.
  split; [|split; [|split]].
  - intros text actions Hactions. unfold extract_suggested_actions.
    by rewrite (foldl_extract_step_actions _ _ Hactions []).
  - intros text. apply actions_of_exists.
  - intros text. unfold extract_suggested_actions. rewrite length_take. lia.
  - intros bodies Hlen Hall.
    destruct bodies as [|b1 [|b2 [|b3 [|b4 [|b5 [|b6 [|b7 [|]]]]]]]]; try done.
    repeat match goal with
    | Hf : Forall _ (_ :: _) |- _ => apply Forall_cons in Hf as [[? ?] Hf]
    end.
    unfold extract_suggested_actions.
    change (numbered_lines [b1; b2; b3; b4; b5; b6; b7])
      with (join [LF] [49%N :: lit ". " ++ b1; 50%N :: lit ". " ++ b2;
                       51%N :: lit ". " ++ b3; 52%N :: lit ". " ++ b4;
                       53%N :: lit ". " ++ b5; 54%N :: lit ". " ++ b6;
                       55%N :: lit ". " ++ b7]).
    rewrite split_char_join.
    + cbn [foldl].
      rewrite (extract_step_kept _ 49%N b1), (extract_step_kept _ 50%N b2),
        (extract_step_kept _ 51%N b3), (extract_step_kept _ 52%N b4),
        (extract_step_kept _ 53%N b5), (extract_step_skipped _ 54%N b6),
        (extract_step_skipped _ 55%N b7) by done.
      reflexivity.
    + done.
    + repeat (apply Forall_cons; split; [by apply numbered_line_no_LF|]).
      by apply Forall_nil.
Qed.

(** ** The upsert, seen from the chat request *)

(** *** The identifier as a string *)







(** *** What can be sent *)








(** *** The requests that reach the upsert *)






(** ** The further properties on concrete requests *)


(** X2 on two feedback requests for the same exchange. *)
Lemma submit_feedback_overwrites_witness :
  ∃ body d2,
    submit_feedback no_fault
      (submit_feedback no_fault abc_store (lit "1") 3 1.0%float).2 (lit "1") 5 2.5%float
    = (Http200 body, d2) ∧
    submit_feedback no_fault abc_store (lit "1") 5 2.5%float = (Http200 body, d2).
Proof.
  assert (∃ body d2,
    submit_feedback no_fault
      (submit_feedback no_fault abc_store (lit "1") 3 1.0%float).2 (lit "1") 5 2.5%float
    = (Http200 body, d2)) as (body & d2 & Hsub).
  { eexists _, _. vm_compute. reflexivity. }
  exists body, d2. split; [exact Hsub|].
  exact (submit_feedback_overwrites no_fault no_fault abc_store d2 (lit "1") 3 5
           1.0%float 2.5%float body Hsub).
Defined.


(** X4 on the fresh store: after an upsert, an upsert that loses its commit
    and an upsert of the first prompt in capitals, the next exchange gets
    the identifier 3, while the store holds one row. *)
Lemma strategy_ids_count_writes_witness :
  let us := [Upsert no_fault (lit "2024-01-01T00:00:00") (lit "1704067200.0")
               (lit "abc") (lit "first plan");
             Upsert commit_fails (lit "2024-01-01T12:00:00") (lit "1704110400.0")
               (lit "xyz") (lit "lost plan");
             Upsert no_fault (lit "2024-01-02T00:00:00") (lit "1704153600.0")
               (lit "ABC") (lit "second plan")] in
  let u := Upsert no_fault (lit "2024-01-03T00:00:00") (lit "1704240000.0")
             (lit "xyz") (lit "third plan") in
  stored (run_upserts init_database us) u = true ∧
  length (writes init_database us) = 2 ∧
  size (conversations (run_upserts init_database us)) = 1 ∧
  (save_conversation no_fault (lit "2024-01-03T00:00:00") (lit "1704240000.0")
     (run_upserts init_database us) (lit "xyz") (lit "third plan")).1
  = Ok (lit "3").
Proof.
  cbv zeta.
  set (us := [Upsert no_fault (lit "2024-01-01T00:00:00") (lit "1704067200.0")
               (lit "abc") (lit "first plan");
             Upsert commit_fails (lit "2024-01-01T12:00:00") (lit "1704110400.0")
               (lit "xyz") (lit "lost plan");
             Upsert no_fault (lit "2024-01-02T00:00:00") (lit "1704153600.0")
               (lit "ABC") (lit "second plan")]).
  set (u := Upsert no_fault (lit "2024-01-03T00:00:00") (lit "1704240000.0")
             (lit "xyz") (lit "third plan")).
  assert (stored (run_upserts init_database us) u = true) as Hstored
    by (vm_compute; reflexivity).
  assert (length (writes init_database us) = 2) as Hlen by (vm_compute; reflexivity).
  split; [exact Hstored|]. split; [exact Hlen|]. split; [vm_compute; reflexivity|].
  pose proof (proj1 (strategy_ids_count_writes us u Hstored)) as Hsave.
  rewrite Hlen in Hsave. cbn [upsert_fault upsert_now_iso upsert_now_stamp
                               upsert_prompt upsert_response u] in Hsave.
  by rewrite Hsave.
Defined.

(** X5 on the store with one exchange after it was rated: asking its prompt
    again, in capitals, deletes the rated row. *)
Lemma upsert_resets_feedback_witness :
  let rated := (submit_feedback no_fault abc_store (lit "1") 5 2.5%float).2 in
  ∃ sid d1 r0,
    save_conversation_try no_fault (lit "2024-01-02T00:00:00") rated
      (lit "ABC") (lit "another plan") = Ok (sid, d1) ∧
    conversations rated !! 1%Z = Some r0 ∧ row_success_score r0 = 5%Z ∧
    fits_int64 1 ∧
    get_prompt_hash (lit "ABC") = Ok (row_prompt_hash r0) ∧
    conversations d1 !! 1%Z = None ∧
    ∃ id, sid = str_of_Z id ∧ (1 < id)%Z ∧
          row_success_score <$> conversations d1 !! id = Some 0%Z.
Proof.
  cbv zeta.
  set (rated := (submit_feedback no_fault abc_store (lit "1") 5 2.5%float).2).
  assert (∃ sid d1,
    save_conversation_try no_fault (lit "2024-01-02T00:00:00") rated
      (lit "ABC") (lit "another plan") = Ok (sid, d1)) as (sid & d1 & Htry).
  { eexists _, _. vm_compute. reflexivity. }
  assert (∃ r0, conversations rated !! 1%Z = Some r0 ∧ row_success_score r0 = 5%Z ∧
                get_prompt_hash (lit "ABC") = Ok (row_prompt_hash r0))
    as (r0 & Hr0 & Hscore & Hhash).
  { eexists. split; [vm_compute; reflexivity|]. split; vm_compute; reflexivity. }
  assert (fits_int64 1) as H1 by (unfold fits_int64, int64_min, int64_max; lia).
  exists sid, d1, r0. split; [exact Htry|]. split; [exact Hr0|]. split; [exact Hscore|].
  split; [exact H1|]. split; [exact Hhash|].
  destruct (upsert_resets_feedback _ _ _ _ _ _ 1 r0 Htry Hr0 H1 Hhash)
    as (Hgone & id & Hsid & Hlt & Hrow & _).
  split; [exact Hgone|]. exists id. split; [exact Hsid|]. split; [exact Hlt|].
  by rewrite Hrow.
Defined.

(** X7 on the store with one exchange. *)
Lemma get_history_conversations_witness :
  ∃ r,
    Routes.get_history no_fault abc_store = Http200 r ∧
    NoDup (map Routes.conversation_id (Routes.history_conversations r)) ∧
    map Routes.conversation_response (Routes.history_conversations r)
    = [lit "a plan..."].
Proof.
  assert (∃ r, Routes.get_history no_fault abc_store = Http200 r ∧
               map Routes.conversation_response (Routes.history_conversations r)
               = [lit "a plan..."]) as (r & Hget & Hresp).
  { eexists. split; vm_compute; reflexivity. }
  exists r. split; [exact Hget|]. split; [|exact Hresp].
  exact (proj1 (get_history_conversations no_fault abc_store r Hget)).
Defined.

(** X9 on the store with one exchange after it was rated 5. *)
Lemma get_history_top_performing_witness :
  let rated := (submit_feedback no_fault abc_store (lit "1") 5 2.5%float).2 in
  ∃ r,
    Routes.get_history no_fault rated = Http200 r ∧
    map Routes.top_id (Routes.top_performing r) = [1%Z] ∧
    ∀ t, t ∈ Routes.top_performing r → (0 < Routes.top_success_score t)%Z.
Proof.
  cbv zeta.
  set (rated := (submit_feedback no_fault abc_store (lit "1") 5 2.5%float).2).
  assert (∃ r, Routes.get_history no_fault rated = Http200 r ∧
               map Routes.top_id (Routes.top_performing r) = [1%Z]) as (r & Hget & Htop).
  { eexists. split; vm_compute; reflexivity. }
  exists r. split; [exact Hget|]. split; [exact Htop|].
  intros t Ht.
  exact (proj1 (proj1 (get_history_top_performing no_fault rated r Hget) t Ht)).
Defined.


(** X11 on a model that repeats the request and adds one sentence. *)
Lemma generate_money_strategy_echo_witness :
  let g : text_generator := λ p, Ok (p ++ lit " Sell lemonade at the fair.
") in
  generator (load_model (Ok g)) = Some g ∧ tokenizer (load_model (Ok g)) = true ∧
  contains (lit " Sell lemonade at the fair.
") (lit "Strategy:") = false ∧
  generate_money_strategy (load_model (Ok g)) (lit "My Strategy: get rich")
  = lit "Sell lemonade at the fair.".
Proof.
  cbv zeta. split; [reflexivity|]. split; [reflexivity|]. split; [reflexivity|].
  exact (generate_money_strategy_echo
           (load_model (Ok (λ p, Ok (p ++ lit " Sell lemonade at the fair.
"))))
           (λ p, Ok (p ++ lit " Sell lemonade at the fair.
"))
           (lit "My Strategy: get rich") (lit " Sell lemonade at the fair.
") eq_refl eq_refl eq_refl eq_refl).
Defined.

(** X12 on a model that answers with a fixed text. *)
Lemma generate_money_strategy_primary_witness :
  let g : text_generator := λ _, Ok (lit "Plan. Strategy: sell lemonade ") in
  generator (load_model (Ok g)) = Some g ∧ tokenizer (load_model (Ok g)) = true ∧
  g (enhanced_prompt (lit "make money")) = Ok (lit "Plan. Strategy: sell lemonade ") ∧
  contains (generate_money_strategy (load_model (Ok g)) (lit "make money"))
           (lit "Strategy:") = false.
Proof.
  cbv zeta. split; [reflexivity|]. split; [reflexivity|]. split; [reflexivity|].
  exact (proj1 (generate_money_strategy_primary
                  (load_model (Ok (λ _, Ok (lit "Plan. Strategy: sell lemonade "))))
                  (λ _, Ok (lit "Plan. Strategy: sell lemonade "))
                  (lit "make money") (lit "Plan. Strategy: sell lemonade ")
                  eq_refl eq_refl eq_refl)).
Defined.

(** X13 on a text of two lines, of which one is an action. *)
Lemma suggested_actions_shape_witness :
  lit "Sell lemonade at the fair"
  ∈ extract_suggested_actions (lit "Plan:
 - Sell lemonade at the fair  ") ∧
  10 < length (lit "Sell lemonade at the fair") ∧
  strip (lit "Sell lemonade at the fair") = lit "Sell lemonade at the fair".
Proof.
  assert (lit "Sell lemonade at the fair"
          ∈ extract_suggested_actions (lit "Plan:
 - Sell lemonade at the fair  ")) as Hin.
  { change (extract_suggested_actions (lit "Plan:
 - Sell lemonade at the fair  ")) with [lit "Sell lemonade at the fair"].
    apply list_elem_of_here. }
  split; [exact Hin|].
  pose proof (suggested_actions_shape _ _ Hin) as (Hlen & Hstrip & _).
  split; [exact Hlen | exact Hstrip].
Defined.

(** X14 on a request for a gig, served without a model. *)
Lemma chat_fallback_actions_witness :
  let request := {| request_prompt := lit "I want a gig";
                    request_user_id := lit "default" |} in
  generator (load_model (Raise RuntimeError)) = None ∧
  (LF ∉ lit "I want a gig") ∧
  ∃ r d',
    chat_completions quiet_environment (load_model (Raise RuntimeError))
      init_database request = (Http200 r, d') ∧
    suggested_actions r
    = map lit ["Create profiles on Upwork, Fiverr, and Freelancer";
               "Identify your core skills (writing, design, programming, etc.)";
               "Start with competitive pricing to build reviews";
               "Focus on quick turnaround projects initially";
               "Gradually increase rates as you build reputation"]%string.
Proof.
  cbv zeta.
  assert (LF ∉ lit "I want a gig") as Hlf by (by apply char_in_false).
  assert (∃ r d',
    chat_completions quiet_environment (load_model (Raise RuntimeError)) init_database
      {| request_prompt := lit "I want a gig"; request_user_id := lit "default" |}
    = (Http200 r, d')) as (r & d' & Hchat).
  { eexists _, _. vm_compute. reflexivity. }
  split; [reflexivity|]. split; [exact Hlf|]. exists r, d'. split; [exact Hchat|].
  rewrite (proj1 (chat_fallback_actions quiet_environment
                    (load_model (Raise RuntimeError)) init_database d'
                    {| request_prompt := lit "I want a gig";
                       request_user_id := lit "default" |} r eq_refl Hlf Hchat)).
  vm_compute. reflexivity.
Defined.


(** X16 on a prompt that is one lone surrogate, served without a model:
    the handler returns the temporary identifier, the store keeps its one
    exchange, and the client gets status 500. *)
Lemma chat_unencodable_prompt_witness :
  let request := {| request_prompt := lone_surrogate; request_user_id := lit "default" |} in
  let engine := load_model (Raise RuntimeError) in
  ¬ encodable (request_prompt request) ∧ generator engine = None ∧
  (∃ r d',
     chat_completions quiet_environment engine abc_store request = (Http200 r, d') ∧
     d' = abc_store ∧ strategy_id r = lit "temp_1704067200.0") ∧
  ∃ e, post_chat_completions quiet_environment engine abc_store request
       = (Http500 e, abc_store).
Proof.
  cbv zeta.
  set (request := {| request_prompt := lone_surrogate; request_user_id := lit "default" |}).
  set (engine := load_model (Raise RuntimeError)).
  assert (¬ encodable (request_prompt request)) as Henc.
  { intros [bytes Hb]. vm_compute in Hb. discriminate Hb. }
  assert (generator engine = None) as Hgen by reflexivity.
  assert (∃ r d',
    chat_completions quiet_environment engine abc_store request = (Http200 r, d'))
    as (r & d' & Hchat).
  { eexists _, _. vm_compute. reflexivity. }
  split; [exact Henc|]. split; [exact Hgen|]. split.
  - exists r, d'. split; [exact Hchat|].
    exact (proj1 (chat_unencodable_prompt quiet_environment engine abc_store request)
             r d' (or_introl Henc) Hchat).
  - exact (proj2 (proj2 (chat_unencodable_prompt quiet_environment engine abc_store
                           request)) Henc Hgen).
Defined.


(** X18 on the store with the exchange for [abc] and the word [b]. *)
Lemma similar_lookup_plain_words_witness :
  forallb plain_word (take 5 (split (lower (lit "b")))) = true ∧
  (∀ w, w ∈ take 5 (split (lower (lit "b"))) → (PERCENT ∉ w) ∧ (UNDERSCORE ∉ w)) ∧
  NoDup (map similar_id
           (get_similar_strategies no_fault (λ _ _, Raise OperationalError)
              abc_store (lit "b"))).
Proof.
  assert (forallb plain_word (take 5 (split (lower (lit "b")))) = true) as Hp
    by (vm_compute; reflexivity).
  assert (∀ w, w ∈ take 5 (split (lower (lit "b"))) → (PERCENT ∉ w) ∧ (UNDERSCORE ∉ w))
    as Hwild.
  { intros w Hw. change (take 5 (split (lower (lit "b")))) with [lit "b"] in Hw.
    apply list_elem_of_singleton in Hw as ->.
    split; by apply char_in_false. }
  split; [exact Hp|]. split; [exact Hwild|].
  exact (proj1 (proj2 (similar_lookup_plain_words no_fault
                         (λ _ _, Raise OperationalError) abc_store (lit "b") Hp Hwild))).
Defined.

(** X21 on a request served without a model. *)
Lemma health_check_model_witness :
  let request := {| request_prompt := lit "abc"; request_user_id := lit "default" |} in
  ∃ r d',
    chat_completions quiet_environment (load_model (Raise RuntimeError)) abc_store request
    = (Http200 r, d') ∧
    (Routes.ai_model (Routes.health_check (load_model (Raise RuntimeError))
                        (lit "2024-01-01T00:00:02")) = lit "fallback"
     ↔ (confidence r <? 0.8)%float = true).
Proof.
  cbv zeta.
  set (request := {| request_prompt := lit "abc"; request_user_id := lit "default" |}).
  assert (∃ r d',
    chat_completions quiet_environment (load_model (Raise RuntimeError)) abc_store request
    = (Http200 r, d')) as (r & d' & Hchat).
  { eexists _, _. vm_compute. reflexivity. }
  exists r, d'. split; [exact Hchat|].
  exact (proj1 (proj2 (health_check_model (Raise RuntimeError) quiet_environment
                         abc_store d' request r (lit "2024-01-01T00:00:02") Hchat))).
Defined.

(** X22 on the prompt with the amount of 1,500.75 dollars. *)
Lemma estimate_earnings_amount_shape_witness :
  findall_amounts (lit "Earn me $1,500.75 today") ≠ [] ∧
  estimate_earnings (lit "Earn me $1,500.75 today") []
  = lit "Target: $1500.75 (as specified)" ∧
  ∃ whole cents,
    estimate_earnings (lit "Earn me $1,500.75 today") []
    = lit "Target: $" ++ whole ++ cents ++ lit " (as specified)" ∧
    whole ≠ [] ∧ forallb is_digit whole = true.
Proof.
  assert (findall_amounts (lit "Earn me $1,500.75 today") ≠ []) as Hfound
    by (vm_compute; discriminate).
  split; [exact Hfound|]. split; [vm_compute; reflexivity|].
  destruct (estimate_earnings_amount_shape (lit "Earn me $1,500.75 today") [] Hfound)
    as (whole & cents & Heq & Hne & Hdigits & _).
  exists whole, cents. split; [exact Heq|]. split; [exact Hne | exact Hdigits].
Defined.

(** X23 on a request for [abc] on the store that holds an exchange for it,
    answered by a model whose text has no numbered line. *)
Lemma chat_note_actions_witness :
  let engine := load_model (Ok (λ _ : str, Ok (lit "Plan. Strategy: sell lemonade"))) in
  let request := {| request_prompt := lit "abc"; request_user_id := lit "default" |} in
  get_similar_strategies (lookup_fault quiet_environment) (lookup_altered quiet_environment)
    abc_store (request_prompt request) ≠ [] ∧
  map similar_prompt
      (take 2 (get_similar_strategies (lookup_fault quiet_environment)
                 (lookup_altered quiet_environment) abc_store (request_prompt request)))
  = map Text [lit "abc"] ∧
  Forall (λ p, LF ∉ take 100 p) [lit "abc"] ∧
  ∃ r d',
    chat_completions quiet_environment engine abc_store request = (Http200 r, d') ∧
    suggested_actions r = [lit "Previous approach: abc..."].
Proof.
  cbv zeta.
  set (engine := load_model (Ok (λ _ : str, Ok (lit "Plan. Strategy: sell lemonade")))).
  set (request := {| request_prompt := lit "abc"; request_user_id := lit "default" |}).
  assert (get_similar_strategies (lookup_fault quiet_environment)
            (lookup_altered quiet_environment) abc_store (request_prompt request) ≠ [])
    as Hfound by (vm_compute; discriminate).
  assert (map similar_prompt
            (take 2 (get_similar_strategies (lookup_fault quiet_environment)
                       (lookup_altered quiet_environment) abc_store
                       (request_prompt request)))
          = map Text [lit "abc"]) as Hprompts by (vm_compute; reflexivity).
  assert (Forall (λ p, LF ∉ take 100 p) [lit "abc"]) as Hlf.
  { apply Forall_cons. split; [by apply char_in_false | by apply Forall_nil]. }
  assert (∃ r d',
    chat_completions quiet_environment engine abc_store request = (Http200 r, d'))
    as (r & d' & Hchat).
  { eexists _, _. vm_compute. reflexivity. }
  split; [exact Hfound|]. split; [exact Hprompts|]. split; [exact Hlf|].
  exists r, d'. split; [exact Hchat|].
  rewrite (chat_note_actions quiet_environment engine abc_store d' request r
             [lit "abc"] Hfound Hprompts Hlf Hchat).
  vm_compute. reflexivity.
Defined.

(** ** The statements of the last sections on concrete inputs *)

(** C6 as stated fails. Seven numbered lines, each of 12 characters, give
    no action at all: the 10 characters are counted on the text behind the
    marker ([Save cash] has 9), not on the line. *)
Lemma extract_suggested_actions_counterexample :
  let text := numbered_lines (replicate 7 (lit "Save cash")) in
  split_char LF text
  = map lit ["1. Save cash"; "2. Save cash"; "3. Save cash"; "4. Save cash";
             "5. Save cash"; "6. Save cash"; "7. Save cash"]%string ∧
  Forall (λ line, 10 < length line) (split_char LF text) ∧
  extract_suggested_actions text = [].
Proof.
  cbv zeta. split; [vm_compute; reflexivity|]. split.
  - vm_compute. repeat (apply Forall_cons; split; [lia|]). by apply Forall_nil.
  - vm_compute. reflexivity.
Qed.

Lemma clean_textb_spec (b : str) : clean_textb b = true → clean_text b.
Proof.
  unfold clean_textb.
  destruct b as [|c [|c2 t]]; try done.
  destruct (rev (c :: c2 :: t)) as [|e r] eqn:Hrev; [done|].
  intros Hb. repeat (apply andb_prop in Hb as [Hb ?]).
  apply (f_equal (@rev _)) in Hrev. rewrite rev_involutive in Hrev. simpl in Hrev.
  destruct (rev r) as [|c' middle]; [done|].
  injection Hrev as <- Ht.
  exists c, middle, e. rewrite Ht in *.
  repeat split; try by apply negb_true_iff.
  apply char_in_false. by apply negb_true_iff.
Qed.

(** C6 on a text of four lines, of which one starts with a bullet, one with
    a dash and a short text, and one with the number 6; and on the seven
    steps of the freelance plan, numbered: the first five come back. *)
Lemma extract_suggested_actions_witness :
  let lines := [lit "Plan:"; [BULLET] ++ lit " Open a shop on Etsy";
                lit " - Sell it "; lit "6. Keep records of sales"] in
  let bodies := map lit [
    "Create profiles on Upwork, Fiverr, and Freelancer";
    "Identify your core skills (writing, design, programming, etc.)";
    "Start with competitive pricing to build reviews";
    "Focus on quick turnaround projects initially";
    "Gradually increase rates as you build reputation";
    "Aim for $20-50/hour within first month";
    "Scale by offering package deals and retainer clients"]%string in
  (actions_of (split_char LF (join [LF] lines)) [lit "Open a shop on Etsy"] ∧
   extract_suggested_actions (join [LF] lines) = [lit "Open a shop on Etsy"]) ∧
  (length bodies = 7 ∧
   Forall (λ b, clean_text b ∧ 10 < length b) bodies ∧
   extract_suggested_actions (numbered_lines bodies) = take 5 bodies).
Proof.
  cbv zeta.
  set (lines := [lit "Plan:"; [BULLET] ++ lit " Open a shop on Etsy";
                 lit " - Sell it "; lit "6. Keep records of sales"]).
  assert (split_char LF (join [LF] lines) = lines) as Hlines by (vm_compute; reflexivity).
  assert (actions_of (split_char LF (join [LF] lines)) [lit "Open a shop on Etsy"])
    as Hactions.
  { rewrite Hlines. unfold lines.
    apply actions_of_other; [by apply not_marked|].
    apply (actions_of_kept _ (lit " Open a shop on Etsy")).
    { exists [BULLET]. split; [|vm_compute; reflexivity].
      unfold markers. rewrite !elem_of_cons. tauto. }
    { by apply char_in_false. }
    { vm_compute. lia. }
    apply (actions_of_short _ (lit " Sell it")).
    { exists (lit "-"). split; [|vm_compute; reflexivity].
      unfold markers. rewrite !elem_of_cons. tauto. }
    { by apply char_in_false. }
    { vm_compute. lia. }
    apply actions_of_other; [by apply not_marked|].
    apply actions_of_nil. }
  assert (Forall (λ b, clean_text b ∧ 10 < length b) (map lit [
    "Create profiles on Upwork, Fiverr, and Freelancer";
    "Identify your core skills (writing, design, programming, etc.)";
    "Start with competitive pricing to build reviews";
    "Focus on quick turnaround projects initially";
    "Gradually increase rates as you build reputation";
    "Aim for $20-50/hour within first month";
    "Scale by offering package deals and retainer clients"]%string)) as Hall.
  { cbn [map].
    repeat (apply Forall_cons; split;
      [split; [by apply clean_textb_spec | vm_compute; lia]|]).
    by apply Forall_nil. }
  split.
  - split; [exact Hactions|].
    exact (proj1 extract_suggested_actions_spec _ _ Hactions).
  - split; [reflexivity|]. split; [exact Hall|].
    apply (proj2 (proj2 (proj2 extract_suggested_actions_spec)));
      [reflexivity | exact Hall].
Defined.

(** C7 on a request for [abc], which the store holds, answered by an engine
    whose model is loaded and whose generator answers. *)
Lemma chat_confidence_spec_witness :
  let loaded := Ok (λ _ : str, Ok (lit "Plan. Strategy: sell lemonade")) in
  let request := {| request_prompt := lit "abc"; request_user_id := lit "default" |} in
  (∃ r d',
     chat_completions quiet_environment (load_model loaded) abc_store request
     = (Http200 r, d') ∧
     confidence r = 0.9%float) ∧
  primary_path_succeeded (load_model loaded) (lit "make money") = true ∧
  model (load_model loaded) = true.
Proof.
  cbv zeta.
  set (engine := load_model (Ok (λ _ : str, Ok (lit "Plan. Strategy: sell lemonade")))).
  set (request := {| request_prompt := lit "abc"; request_user_id := lit "default" |}).
  assert (∃ r d',
    chat_completions quiet_environment engine abc_store request = (Http200 r, d'))
    as (r & d' & Hchat).
  { eexists _, _. vm_compute. reflexivity. }
  split; [|split; [reflexivity|]].
  - exists r, d'. split; [exact Hchat|].
    rewrite (proj1 (proj1 chat_confidence_spec quiet_environment engine abc_store
                      request r d' Hchat)).
    vm_compute. reflexivity.
  - exact (proj2 (proj1 (proj2 chat_confidence_spec)
                    (Ok (λ _ : str, Ok (lit "Plan. Strategy: sell lemonade"))))
             (lit "make money") eq_refl).
Defined.


(** X8 on the store of 51 exchanges: the newest 50 are listed, the newest
    first, and the oldest is not. *)
Lemma get_history_newest_first_witness :
  ∃ r x,
    Routes.get_history no_fault busy_store = Http200 r ∧
    map Routes.conversation_id (Routes.history_conversations r)
    = map Z.of_nat (rev (seq 2 50)) ∧
    (∀ a b,
       Routes.history_conversations r !! 0 = Some a →
       Routes.history_conversations r !! 49 = Some b →
       str_compare (Routes.conversation_timestamp a) (Routes.conversation_timestamp b)
       ≠ Lt) ∧
    conversations busy_store !! 1%Z = Some x ∧
    (1%Z ∉ map Routes.conversation_id (Routes.history_conversations r)) ∧
    Routes.total_strategies r = 50 ∧
    ∀ e, e ∈ Routes.history_conversations r →
      str_compare (Routes.conversation_timestamp e) (row_timestamp x) ≠ Lt.
Proof.
  assert (∃ r, Routes.get_history no_fault busy_store = Http200 r ∧
               map Routes.conversation_id (Routes.history_conversations r)
               = map Z.of_nat (rev (seq 2 50))) as (r & Hget & Hids).
  { eexists. split; vm_compute; reflexivity. }
  assert (∃ x, conversations busy_store !! 1%Z = Some x) as [x Hx].
  { eexists. vm_compute. reflexivity. }
  assert (1%Z ∉ map Routes.conversation_id (Routes.history_conversations r)) as Hout.
  { rewrite Hids. apply (bool_decide_unpack _). vm_compute. reflexivity. }
  pose proof (get_history_newest_first no_fault busy_store r Hget) as [Horder Hcut].
  destruct (Hcut 1%Z x Hx Hout) as [Htotal Holder].
  exists r, x. split; [exact Hget|]. split; [exact Hids|]. split.
  - intros a b Ha Hb. apply (Horder 0 49 a b); [lia | exact Ha | exact Hb].
  - split; [exact Hx|]. split; [exact Hout|]. split; [exact Htotal | exact Holder].
Defined.

(** X24 on a prompt whose one word ends the pattern with a quote and adds a
    row of seven numbers to the result. *)
Lemma chat_unsliceable_prompt_witness :
  let injected := Fetched (Integer 1) (Integer 2) (Integer 3) (Integer 4)
                          (Integer 5) (Integer 6) (Integer 7) in
  let env := {| lookup_fault := no_fault;
                lookup_altered := λ _ _, Ok [injected];
                save_fault := no_fault;
                save_now_iso := lit "2024-01-01T00:00:00";
                save_now_stamp := lit "1704067200.0";
                respond_now_iso := lit "2024-01-01T00:00:01" |} in
  let request := {| request_prompt := lit "'union/**/select/**/1,2,3,4,5,6,7/*";
                    request_user_id := lit "default" |} in
  similar_of_row injected
  ∈ take 2 (get_similar_strategies (lookup_fault env) (lookup_altered env) abc_store
              (request_prompt request)) ∧
  chat_completions env failing_engine abc_store request = (Http500 TypeError, abc_store) ∧
  post_chat_completions env failing_engine abc_store request
  = (Http500 TypeError, abc_store).
Proof.
  cbv zeta.
  set (injected := Fetched (Integer 1) (Integer 2) (Integer 3) (Integer 4)
                           (Integer 5) (Integer 6) (Integer 7)).
  set (env := {| lookup_fault := no_fault;
                 lookup_altered := λ _ _, Ok [injected];
                 save_fault := no_fault;
                 save_now_iso := lit "2024-01-01T00:00:00";
                 save_now_stamp := lit "1704067200.0";
                 respond_now_iso := lit "2024-01-01T00:00:01" |}).
  set (request := {| request_prompt := lit "'union/**/select/**/1,2,3,4,5,6,7/*";
                     request_user_id := lit "default" |}).
  assert (similar_of_row injected
          ∈ take 2 (get_similar_strategies (lookup_fault env) (lookup_altered env)
                      abc_store (request_prompt request))) as Hin.
  { change (take 2 (get_similar_strategies (lookup_fault env) (lookup_altered env)
                      abc_store (request_prompt request)))
      with [similar_of_row injected].
    apply list_elem_of_here. }
  split; [exact Hin|].
  exact (chat_unsliceable_prompt env failing_engine abc_store request
           (similar_of_row injected) Hin ltac:(done) ltac:(done)).
Defined.
